(** * catkit / hicat testbed automation: a shallow embedding

    The Python sources are embedded as state-passing programs in a small
    state-and-exception monad.  Hardware, vendor libraries and helper
    packages that the sources only call are parameters of the sections;
    every call to them is recorded in a trace, so that statements about
    what is called, how often and in which order are statements about
    lists. *)

From Stdlib Require Import ZArith QArith Qround List String Bool Lia.
Import ListNotations.

Set Implicit Arguments.

(** ** Python semantics shared by all modules *)

Module Py.

(** A piece of an f-string: literal text or an interpolated number. *)
Inductive fragment : Type :=
| Lit (s : string)
| Num (q : Q).

Inductive exn : Type :=
| RuntimeError (msg : string)
| ValueError (msg : list fragment)
| NotImplementedError
| ZeroDivisionError
| TimeoutError
| IndexError
| TypeError (keyword : string).

Inductive result (A : Type) : Type :=
| Ok (a : A)
| Raise (e : exn).
Arguments Ok {A} a.
Arguments Raise {A} e.

(** A statement run in state [S]: it returns or raises, and in both
    cases leaves a state behind. *)
Definition M (S A : Type) : Type := S -> result A * S.

Definition ret {S A} (a : A) : M S A := fun s => (Ok a, s).

Definition raise {S A} (e : exn) : M S A := fun s => (Raise e, s).

Definition bind {S A B} (c : M S A) (k : A -> M S B) : M S B :=
  fun s =>
    match c s with
    | (Ok a, s1) => k a s1
    | (Raise e, s1) => (Raise e, s1)
    end.

Definition gets {S A} (f : S -> A) : M S A := fun s => (Ok (f s), s).

Definition modify {S} (f : S -> S) : M S unit := fun s => (Ok tt, f s).

(** [for x in l: body x] *)
Fixpoint for_each {S A} (l : list A) (body : A -> M S unit) : M S unit :=
  match l with
  | [] => ret tt
  | x :: rest => bind (body x) (fun _ => for_each rest body)
  end.

(** [with EXPR as v: body] for a manager whose [__exit__] returns
    [None]: the exit runs on both ways out of the body, an exception of
    the body is raised again after it, and an exception of the exit
    itself replaces it. *)
Definition with_ {S R V A}
           (expr : M S R) (enter : R -> M S V) (exit : R -> M S unit)
           (body : V -> M S A) : M S A :=
  bind expr (fun mgr =>
  bind (enter mgr) (fun v s =>
    match body v s with
    | (Ok a, s1) =>
        match exit mgr s1 with
        | (Ok _, s2) => (Ok a, s2)
        | (Raise e', s2) => (Raise e', s2)
        end
    | (Raise e, s1) =>
        match exit mgr s1 with
        | (Ok _, s2) => (Raise e, s2)
        | (Raise e', s2) => (Raise e', s2)
        end
    end)).

(** A [for] loop that carries the variables it assigns. *)
Fixpoint for_fold {S A L} (l : list A) (body : A -> L -> M S L) (init : L) : M S L :=
  match l with
  | [] => ret init
  | x :: rest => bind (body x init) (for_fold rest body)
  end.

(** [range(start, stop, step)] for a positive step. *)
Definition range3 (start stop step : Z) : list Z :=
  map (fun k => (start + Z.of_nat k * step)%Z)
      (seq 0 (Z.to_nat ((stop - start + step - 1) / step))).

(** [range(0, n)] *)
Definition range (n : Z) : list Z := range3 0 n 1.

(** Python floats are taken as the exact rationals they stand for; the
    rounding of binary floating point is not part of the model.
    [int(x)] truncates towards zero. *)
Definition int (x : Q) : Z := Z.quot (Qnum x) (Zpos (Qden x)).

(** [math.modf(x)]: fractional and integer part, both with the sign
    of [x]. *)
Definition math_modf (x : Q) : Q * Q :=
  let i := inject_Z (int x) in (Qred (x - i), i).

(** [a / b] *)
Definition truediv (a b : Q) : result Q :=
  if Qeq_bool b 0 then Raise ZeroDivisionError else Ok (Qred (a / b)).

(** [np.arange(start, stop, step)] for a positive step, on exact
    numbers: [ceil((stop - start) / step)] values [start + k * step],
    each in lowest terms. *)
Definition np_arange (start stop step : Q) : list Q :=
  map (fun k => Qred (start + inject_Z (Z.of_nat k) * step))
      (seq 0 (Z.to_nat (Qceiling ((stop - start) / step)))).

(** [a += b] on arrays of one shape (flattened): element by element.
    Shapes that differ are refused as [numpy] refuses shapes it cannot
    broadcast. *)
Definition np_iadd (a b : list Q) : result (list Q) :=
  if (List.length a =? List.length b)%nat
  then Ok (map (fun p => (fst p + snd p)%Q) (combine a b))
  else Raise (ValueError [Lit "operands could not be broadcast together"]).

(** [l[j]]: a negative index counts from the end, one out of range
    raises. *)
Definition index {A} (l : list A) (j : Z) : result A :=
  let n := Z.of_nat (List.length l) in
  let k := if (j <? 0)%Z then (n + j)%Z else j in
  if ((0 <=? k) && (k <? n))%Z
  then match nth_error l (Z.to_nat k) with
       | Some a => Ok a
       | None => Raise IndexError
       end
  else Raise IndexError.

Definition truthy_str (o : option string) : bool :=
  match o with
  | None | Some EmptyString => false
  | Some _ => true
  end.

End Py.

Import Py.

Declare Scope py_scope.
Delimit Scope py_scope with py.
Notation "x <- c ;; k" := (bind c (fun x => k))
  (at level 61, c at next level, right associativity) : py_scope.
Notation "c ;; k" := (bind c (fun _ => k))
  (at level 61, right associativity) : py_scope.
Notation "' pat <- c ;; k" := (bind c (fun x => match x with pat => k end))
  (at level 61, pat pattern, c at next level, right associativity) : py_scope.
Open Scope py_scope.

(** ** catkit/hardware/standa/stages.py *)

Module Stage.

(** [class Unit(enum.Enum)] *)
Inductive Unit : Type := STEPS | REAL.

(** What a caller can pass as [units]: a member of [Unit], or some
    other Python value (identified by its [repr]). *)
Inductive units_arg : Type :=
| Member (u : Unit)
| OtherValue (repr : string).

(** The structures of the vendor binding, with the fields the driver
    reads or writes; [ctypes] creates them zero-filled. *)
Record home_settings_t : Type :=
  { FastHome : Z; uFastHome : Z; SlowHome : Z; uSlowHome : Z;
    HomeDelta : Z; uHomeDelta : Z; HomeFlags : Z }.

Record move_settings_t : Type :=
  { Speed : Z; uSpeed : Z; move_rest : list Z }.

Record status_t : Type :=
  { MvCmdSts : Z; status_rest : list Z }.

Record get_position_t : Type :=
  { Position : Z; uPosition : Z; EncPosition : Z }.

Definition new_home_settings_t : home_settings_t :=
  {| FastHome := 0; uFastHome := 0; SlowHome := 0; uSlowHome := 0;
     HomeDelta := 0; uHomeDelta := 0; HomeFlags := 0 |}.
Definition new_move_settings_t : move_settings_t :=
  {| Speed := 0; uSpeed := 0; move_rest := [] |}.
Definition new_status_t : status_t :=
  {| MvCmdSts := 0; status_rest := [] |}.
Definition new_get_position_t : get_position_t :=
  {| Position := 0; uPosition := 0; EncPosition := 0 |}.

(** The vendor library [pyximc.lib] on a device in state [D].  Every
    function returns a result code; the ones that take a structure by
    reference also return what they left in it. *)
Record ximc (D : Type) : Type :=
  { Result_Ok : Z;
    lib_command_move : D -> Z -> Z -> Z * D;
    lib_command_homezero : D -> Z * D;
    lib_command_sstp : D -> Z * D;
    lib_get_home_settings : D -> home_settings_t -> Z * home_settings_t * D;
    lib_set_home_settings : D -> home_settings_t -> Z * D;
    lib_get_move_settings : D -> move_settings_t -> Z * move_settings_t * D;
    lib_set_move_settings : D -> move_settings_t -> Z * D;
    lib_get_status : D -> status_t -> Z * status_t * D;
    lib_get_position : D -> get_position_t -> Z * get_position_t * D }.

(** One vendor call, with what was passed and what came back in the
    structure. *)
Inductive call : Type :=
| command_move (pos upos : Z)
| command_homezero
| command_sstp
| get_home_settings_call (out : home_settings_t)
| set_home_settings_call (settings : home_settings_t)
| get_move_settings (out : move_settings_t)
| set_move_settings (settings : move_settings_t)
| get_status (out : status_t)
| get_position_call (out : get_position_t).

Inductive event : Type :=
| Vendor (c : call) (code : Z)
| Sleep (seconds : Z).

Record state (D : Type) : Type :=
  { dev : D;
    trace : list event;
    log : list (list fragment) }.

(** The attributes [initialize] sets on the object. *)
Record attrs : Type :=
  { device_name : string;
    softStops : Q * Q;
    u_homeOffset : Q;
    homeOffset : Q;
    conversionFactor : Q;
    units : units_arg }.

(** [Stage.initialize], without the device scan behind
    [get_device_id]. *)
Definition initialize (name : string) (stops : Q * Q)
           (home_offset conversion_factor : Q) (u : units_arg) : attrs :=
  let '(u_off, off) := math_modf home_offset in
  {| device_name := name; softStops := stops;
     u_homeOffset := u_off; homeOffset := off;
     conversionFactor := conversion_factor; units := u |}.

Section Driver.

Variable D : Type.
Variable lib : ximc D.
Variable self : attrs.

Definition St : Type := state D.

Definition record (e : event) (d : D) (s : St) : St :=
  {| dev := d; trace := trace s ++ [e]; log := log s |}.

Definition log_info (msg : list fragment) : M St unit :=
  modify (fun s => {| dev := dev s; trace := trace s;
                      log := log s ++ [msg] |}).

Definition time_sleep (seconds : Z) : M St unit :=
  modify (fun s => record (Sleep seconds) (dev s) s).

(** The calls into [self.instrument_lib.lib]. *)
Definition call0 (c : call) (f : D -> Z * D) : M St Z :=
  fun s => let '(code, d) := f (dev s) in
           (Ok code, record (Vendor c code) d s).

Definition call_ref {T} (c : T -> call) (f : D -> Z * T * D) : M St (Z * T) :=
  fun s => let '(code, out, d) := f (dev s) in
           (Ok (code, out), record (Vendor (c out) code) d s).

Definition is_ok (code : Z) : bool := (code =? Result_Ok lib)%Z.

Definition set_home_settings (settings : home_settings_t) : M St unit :=
  result <- call0 (set_home_settings_call settings)
                  (fun d => lib_set_home_settings lib d settings) ;;
  if negb (is_ok result) then raise (RuntimeError "set_home_settings() failed")
  else ret tt.

Definition get_home_settings : M St home_settings_t :=
  ' (result, hmst) <- call_ref get_home_settings_call
                        (fun d => lib_get_home_settings lib d new_home_settings_t) ;;
  if negb (is_ok result) then raise (RuntimeError "get_home_settings() failed")
  else ret hmst.

Definition home : M St unit :=
  hmst <- get_home_settings ;;
  let hmst :=
    {| FastHome := FastHome hmst; uFastHome := uFastHome hmst;
       SlowHome := SlowHome hmst; uSlowHome := uSlowHome hmst;
       HomeDelta := int (homeOffset self);
       uHomeDelta := int (u_homeOffset self);
       HomeFlags := HomeFlags hmst |} in
  set_home_settings hmst ;;
  result <- call0 command_homezero (lib_command_homezero lib) ;;
  if negb (is_ok result) then raise (RuntimeError "command_homezero failed")
  else ret tt.

Definition is_moving : M St bool :=
  ' (result, deviceStatus) <- call_ref get_status
                                (fun d => lib_get_status lib d new_status_t) ;;
  if negb (is_ok result) then raise (RuntimeError "get_status() failed")
  else
    let moveComState := MvCmdSts deviceStatus in
    ret (moveComState =? 129)%Z.

(** Modelled from the spec: [catkit.util.poll_status] is not among the
    sources.  The spec calls the waits simple polling loops with fixed
    timeouts: [func] is called, the loop ends when its value is one of
    [break_states], otherwise it sleeps [poll_interval] seconds and
    polls again; once [timeout] seconds have been slept through it
    raises.  Time is the sum of the sleeps. *)
Fixpoint poll_loop (fuel : nat) (break_states : list bool) (func : M St bool)
         (timeout poll_interval elapsed : Z) : M St bool :=
  match fuel with
  | O => raise TimeoutError
  | S fuel' =>
      status <- func ;;
      if existsb (Bool.eqb status) break_states then ret status
      else
        time_sleep poll_interval ;;
        let elapsed := (elapsed + poll_interval)%Z in
        if (timeout <=? elapsed)%Z then raise TimeoutError
        else poll_loop fuel' break_states func timeout poll_interval elapsed
  end.

(** Modelled from the spec: [catkit.util.poll_status(break_states, func,
    timeout, poll_interval)], the loop above started at time zero; with
    sleeps of at least a second, [timeout] rounds are all it can take. *)
Definition poll_status (break_states : list bool) (func : M St bool)
           (timeout poll_interval : Z) : M St bool :=
  poll_loop (Z.to_nat timeout) break_states func timeout poll_interval 0.

(** [await_stop(self, timeout=10*60, poll_interval=1)] *)
Definition await_stop (timeout poll_interval : option Z) : M St bool :=
  let timeout := match timeout with Some t => t | None => (10 * 60)%Z end in
  let poll_interval := match poll_interval with Some p => p | None => 1%Z end in
  poll_status [false] is_moving timeout poll_interval.

Definition goto_steps (position : Q) (wait : bool) : M St unit :=
  (* split the integer from the decimal *)
  let '(u_pos, pos) := math_modf position in
  (* convert the decimal to #/256 *)
  let u_pos := (u_pos * 256)%Q in
  result <- call0 (command_move (int pos) (int u_pos))
                  (fun d => lib_command_move lib d (int pos) (int u_pos)) ;;
  if negb (is_ok result) then raise (RuntimeError "command_move() failed")
  else if wait then (_ <- await_stop None None ;; ret tt)
  else ret tt.

Definition get_enc_position : M St Z :=
  ' (result, stagePositionTmp) <- call_ref get_position_call
                                    (fun d => lib_get_position lib d new_get_position_t) ;;
  if negb (is_ok result) then raise (RuntimeError "get_position() failed")
  else ret (EncPosition stagePositionTmp).

Definition get_step_position : M St Q :=
  ' (result, stagePositionTmp) <- call_ref get_position_call
                                    (fun d => lib_get_position lib d new_get_position_t) ;;
  if negb (is_ok result) then raise (RuntimeError "get_position() failed")
  else
    let stagePosition :=
      (inject_Z (Position stagePositionTmp)
       + inject_Z (uPosition stagePositionTmp) / 256)%Q in
    ret stagePosition.

Definition offset_steps (distance : Q) (wait : bool) : M St unit :=
  currentPosition <- get_enc_position ;;
  let newPosition := (inject_Z currentPosition + distance)%Q in
  goto_steps newPosition wait.

Definition lift_result {A} (r : result A) : M St A := fun s => (r, s).

Definition offset_real (distance : Q) (wait : bool) : M St unit :=
  distance <- lift_result (truediv distance (conversionFactor self)) ;;
  offset_steps distance wait.

Definition goto_real (position : Q) (wait : bool) : M St unit :=
  position <- lift_result (truediv position (conversionFactor self)) ;;
  log_info [Lit "goto_steps: "; Num position] ;;
  goto_steps position wait.

Definition absolute_move (position : Q) (wait : bool) (units : units_arg) : M St unit :=
  match units with
  | Member STEPS => goto_steps position wait
  | Member REAL => goto_real position wait
  | OtherValue _ => raise NotImplementedError
  end.

Definition relative_move (distance : Q) (wait : bool) (units : units_arg) : M St unit :=
  match units with
  | Member STEPS => offset_steps distance wait
  | Member REAL => offset_real distance wait
  | OtherValue _ => raise NotImplementedError
  end.

Definition set_speed (speed : Q) : M St unit :=
  ' (result, mvst) <- call_ref get_move_settings
                        (fun d => lib_get_move_settings lib d new_move_settings_t) ;;
  if negb (is_ok result) then raise (RuntimeError "get_move_settings() failed")
  else
    (* split the integer from the decimal *)
    let '(u_speed, speed) := math_modf speed in
    (* convert the decimal to #/256 *)
    let u_speed := (u_speed * 256)%Q in
    (* prepare move_settings_t struct *)
    let mvst := {| Speed := int speed; uSpeed := int u_speed;
                   move_rest := move_rest mvst |} in
    result <- call0 (set_move_settings mvst)
                    (fun d => lib_set_move_settings lib d mvst) ;;
    if negb (is_ok result) then raise (RuntimeError "set_move_settings() failed")
    else ret tt.

Definition get_speed : M St (Z * Z) :=
  ' (result, mvst) <- call_ref get_move_settings
                        (fun d => lib_get_move_settings lib d new_move_settings_t) ;;
  if negb (is_ok result) then raise (RuntimeError "get_move_settings() failed")
  else ret (Speed mvst, uSpeed mvst).

Definition get_position : M St Q :=
  enc <- get_enc_position ;;
  ret (conversionFactor self * inject_Z enc)%Q.

Definition stop : M St unit :=
  result <- call0 command_sstp (lib_command_sstp lib) ;;
  if negb (is_ok result) then raise (RuntimeError "Soft stop failed")
  else ret tt.

End Driver.

(** The message the driver raises for a vendor call that failed. *)
Definition failure_message (c : call) : string :=
  match c with
  | command_move _ _ => "command_move() failed"
  | command_homezero => "command_homezero failed"
  | command_sstp => "Soft stop failed"
  | get_home_settings_call _ => "get_home_settings() failed"
  | set_home_settings_call _ => "set_home_settings() failed"
  | get_move_settings _ => "get_move_settings() failed"
  | set_move_settings _ => "set_move_settings() failed"
  | get_status _ => "get_status() failed"
  | get_position_call _ => "get_position() failed"
  end.

Definition raised {A} (r : result A) : option exn :=
  match r with
  | Ok _ => None
  | Raise e => Some e
  end.

(** The error a sequence of vendor calls stands for: that of the first
    call whose code is not [ok], if there is one. *)
Fixpoint expected_error (ok : Z) (evs : list event) : option exn :=
  match evs with
  | [] => None
  | Vendor c code :: rest =>
      if (code =? ok)%Z then expected_error ok rest
      else Some (RuntimeError (failure_message c))
  | Sleep _ :: rest => expected_error ok rest
  end.

(** Nothing follows a failed call. *)
Fixpoint stops_at_failure (ok : Z) (evs : list event) : bool :=
  match evs with
  | [] => true
  | Vendor _ code :: rest =>
      if (code =? ok)%Z then stops_at_failure ok rest
      else match rest with [] => true | _ => false end
  | Sleep _ :: rest => stops_at_failure ok rest
  end.

Definition count_moves (evs : list event) : nat :=
  List.length (filter (fun e => match e with
                                | Vendor (command_move _ _) _ => true
                                | _ => false
                                end) evs).

(** An operation turns vendor codes into errors: it makes at least one
    vendor call, raises the message of the first one that fails, straight
    away, and returns if none fails. *)
Definition translates_codes {D A} (lib : ximc D) (op : M (state D) A) : Prop :=
  forall s, exists evs,
    evs <> [] /\
    trace (snd (op s)) = trace s ++ evs /\
    stops_at_failure (Result_Ok lib) evs = true /\
    raised (fst (op s)) = expected_error (Result_Ok lib) evs.

(** The polls of a device that is still moving: a status that reads
    129, then a sleep. *)
Definition polling (ok interval : Z) (outs : list status_t) : list event :=
  flat_map (fun o => [Vendor (get_status o) ok; Sleep interval]) outs.

(** The state [s] with the log [l] in place of its own. *)
Definition with_log {D} (s : state D) (l : list (list fragment)) : state D :=
  {| dev := dev s; trace := trace s; log := l |}.

(** A program that neither reads nor writes the log. *)
Definition log_blind {D A} (m : M (state D) A) : Prop :=
  forall s l, m (with_log s l) = (fst (m s), with_log (snd (m s)) l).

(** A stage that keeps moving for as many polls as its state says; every
    call succeeds with code 0. *)
Definition countdown : ximc nat :=
  {| Result_Ok := 0;
     lib_command_move := fun d _ _ => (0%Z, d);
     lib_command_homezero := fun d => (0%Z, d);
     lib_command_sstp := fun d => (0%Z, d);
     lib_get_home_settings := fun d h => (0%Z, h, d);
     lib_set_home_settings := fun d _ => (0%Z, d);
     lib_get_move_settings := fun d m => (0%Z, m, d);
     lib_set_move_settings := fun d _ => (0%Z, d);
     lib_get_status := fun d _ =>
       (0%Z, {| MvCmdSts := match d with O => 0 | S _ => 129 end;
                status_rest := [] |}, Nat.pred d);
     lib_get_position := fun d _ =>
       (0%Z, {| Position := 5; uPosition := 128; EncPosition := 7 |}, d) |}.

Definition at_rest (d : nat) : state nat :=
  {| dev := d; trace := []; log := [] |}.

End Stage.

(** ** LaserSource.py *)

Module LaserSource.

Inductive event : Type :=
| Initialize
| Close.

(** The instance: [config_id] and the handle [laser] ([None] in Python
    is [None] here). *)
Record object (Handle : Type) : Type :=
  { config_id : string;
    laser : option Handle }.

Record state (W Handle : Type) : Type :=
  { world : W;
    self : object Handle;
    stdout : list string;
    trace : list event }.

Section Interface.

Variables W Handle Args : Type.

(** The abstract methods, supplied by a subclass.  They act on the
    instance and on the hardware, and they may raise. *)
Variable initialize : object Handle -> Args -> W -> result Handle * object Handle * W.
Variable close : object Handle -> W -> result unit * object Handle * W.

Definition St : Type := state W Handle.

Definition print (line : string) : M St unit :=
  modify (fun s => {| world := world s; self := self s;
                      stdout := stdout s ++ [line]; trace := trace s |}).

Definition set_config_id (c : string) : M St unit :=
  modify (fun s => {| world := world s;
                      self := {| config_id := c; laser := laser (self s) |};
                      stdout := stdout s; trace := trace s |}).

Definition set_laser (h : option Handle) : M St unit :=
  modify (fun s => {| world := world s;
                      self := {| config_id := config_id (self s); laser := h |};
                      stdout := stdout s; trace := trace s |}).

Definition call_initialize (args : Args) : M St Handle :=
  fun s => let '(r, o, w) := initialize (self s) args (world s) in
           (r, {| world := w; self := o; stdout := stdout s;
                  trace := trace s ++ [Initialize] |}).

Definition call_close : M St unit :=
  fun s => let '(r, o, w) := close (self s) (world s) in
           (r, {| world := w; self := o; stdout := stdout s;
                  trace := trace s ++ [Close] |}).

(** [__init__]: opens the connection.  (The source hands the instance
    to [initialize] once more as first positional argument; it is the
    [object] the method receives here.) *)
Definition __init__ (config_id : string) (args : Args) : M St unit :=
  set_config_id config_id ;;
  h <- call_initialize args ;;
  set_laser (Some h) ;;
  print ("Opened connection to laser source " ++ config_id).

Definition __enter__ (_ : unit) : M St unit := ret tt.

Definition __exit__ (_ : unit) : M St unit :=
  call_close ;;
  set_laser None ;;
  c <- gets (fun s => config_id (self s)) ;;
  print ("Safely closed connection to laser source " ++ c).

(** [with LaserSource(config_id, *args) as laser: body] *)
Definition with_laser_source {A} (config_id : string) (args : Args)
           (body : M St A) : M St A :=
  with_ (__init__ config_id args) __enter__ __exit__ (fun _ => body).

End Interface.

(** A laser whose hardware state counts the connections opened and
    closed. *)
Definition counting_initialize (o : object nat) (_ : unit) (w : nat * nat)
  : result nat * object nat * (nat * nat) :=
  (Ok (fst w), o, (S (fst w), snd w)).

Definition counting_close (o : object nat) (w : nat * nat)
  : result unit * object nat * (nat * nat) :=
  (Ok tt, o, (fst w, S (snd w))).

Definition fresh : state (nat * nat) nat :=
  {| world := (0%nat, 0%nat); self := {| config_id := EmptyString; laser := None |};
     stdout := []; trace := [] |}.

Definition failing_body : M (state (nat * nat) nat) unit :=
  raise (RuntimeError "body failed").

End LaserSource.

(** ** The testbed the experiment scripts drive

    [hicat.hardware.testbed], [speckle_nulling], [util], [CONFIG_INI] and
    the Boston DM command builders are not among the sources: they are the
    fields of [testbed] below.  Helpers are taken to return normally; each
    call is recorded with its arguments and with what it returned. *)

Module Testbed.

(** [pint] quantities: a magnitude and a unit. *)
Inductive units : Type := millisecond | nanometer | micrometer.

Record quantity : Type := Quantity { magnitude : Q; unit_of : units }.

(** [quantity * float] *)
Definition scale (q : quantity) (c : Q) : quantity :=
  Quantity (Qred (magnitude q * c)) (unit_of q).

Inductive FpmPosition : Type := coron | direct.
Inductive LyotStopPosition : Type := in_beam | out_of_beam.
Inductive ImageCentering : Type :=
| auto | psf | custom_apodizer_spots | other_centering (name : string).

(** [FpmPosition.x.value == FpmPosition.y.value] *)
Definition fpm_value_eqb (a b : FpmPosition) : bool :=
  match a, b with
  | coron, coron | direct, direct => true
  | _, _ => false
  end.

(** [namedtuple("SinSpecification", "angle, ncycles, peak_to_valley, phase")] *)
Record SinSpecification : Type :=
  { angle : Q; ncycles : Q; peak_to_valley : quantity; phase : Q }.

(** What [sin_command] accepts: one specification or a list of them. *)
Inductive sin_argument : Type :=
| One (spec : SinSpecification)
| Many (specs : list SinSpecification).

(** A DM command object: the [data] array (flattened) and its other
    attributes. *)
Record DmCommand : Type :=
  { data : list Q; attributes : list (string * Z) }.

Definition set_data (c : DmCommand) (d : list Q) : DmCommand :=
  {| data := d; attributes := attributes c |}.

(** Text put together with [+] and [str()], and paths put together with
    [os.path.join]. *)
Definition text : Type := list fragment.
Definition path : Type := list text.
Definition path_join (p : path) (t : text) : path := p ++ [t].

Definition kwargs : Type := list (string * string).

(** The first key of [kw] that is also among [names]. *)
Definition repeated (names : list string) (kw : kwargs) : option string :=
  match find (fun item => existsb (String.eqb (fst item)) names) kw with
  | Some item => Some (fst item)
  | None => None
  end.

(** The arguments of one [testbed.run_hicat_imaging] call; a keyword
    that is not passed is [None]. *)
Record imaging : Type :=
  { img_exposure_time : quantity;
    img_num_exposures : Z;
    img_fpm_position : FpmPosition;
    img_lyot_stop_position : option LyotStopPosition;
    img_centering : option ImageCentering;
    img_path : path;
    img_auto_exposure_time : option bool;
    img_exposure_set_name : option string;
    img_filename : text;
    img_simulator : option bool;
    img_camera_type : option string;
    img_pipeline : option bool;
    img_kwargs : kwargs }.

Inductive event : Type :=
| LaserOpen
| LaserSetCurrent (current : Z)
| LaserClose
| DmOpen
| DmApplyShape (command : DmCommand) (dm_num : Z)
| DmApplyShapeToBoth (dm1 dm2 : DmCommand)
| DmClose
| RunHicatImaging (args : imaging)
| TestDarkZoneIntensity (exposure : quantity) (n : Z) (returned : quantity)
| SpeckleSensing (coron_path : path) (ncycles angle_deg : Q) (ptv : quantity)
| SpeckleControlPhase (p : path) (name : string) (returned : Q)
| SpeckleControlAmplitude (p : path) (name : string) (returned : Q)
| CreateDataPath (suffix : string) (returned : path)
| SetupHicatLogging (p : path) (name : string)
| LoadDmCommand (file : string) (bias flat_map : bool)
| PrintLine (line : string)
| SinCommand (arg : sin_argument) (bias flat_map : option bool)
             (initial_data : option (list Q))
| FlatCommand (bias flat_map : bool)
| AddToCommand (correction : DmCommand).

Record testbed (W Image : Type) : Type :=
  { getint : string -> string -> Z;
    laser_open : W -> W;
    laser_set_current : W -> Z -> W;
    laser_close : W -> W;
    dm_open : W -> W;
    dm_apply_shape : W -> DmCommand -> Z -> W;
    dm_apply_shape_to_both : W -> DmCommand -> DmCommand -> W;
    dm_close : W -> W;
    run_hicat_imaging : W -> imaging -> Image * W;
    test_dark_zone_intensity :
      W -> quantity -> Z -> FpmPosition -> LyotStopPosition -> ImageCentering
      -> quantity * W;
    speckle_sensing : W -> path -> Q * Q * quantity * W;
    speckle_control_phase : W -> path -> string -> Q * W;
    speckle_control_amplitude : W -> path -> string -> Q * W;
    create_data_path : W -> string -> path * W;
    setup_hicat_logging : W -> path -> string -> W;
    load_dm_command : W -> string -> bool -> bool -> DmCommand * W;
    (* pure builders; an argument left to its default is [None] *)
    sin_command :
      sin_argument -> option bool -> option bool -> option (list Q)
      -> DmCommand * string;
    flat_command : bool -> bool -> DmCommand * string }.

Record state (W : Type) : Type :=
  { world : W; trace : list event }.

Section Calls.

Variables W Image : Type.
Variable tb : testbed W Image.

Definition St : Type := state W.

(** A call that returns [a], leaves the world [w] and is recorded
    as [e]. *)
Definition called {A} (f : W -> A * W) (e : A -> event) : M St A :=
  fun s => let '(a, w) := f (world s) in
           (Ok a, {| world := w; trace := trace s ++ [e a] |}).

Definition called_ (f : W -> W) (e : event) : M St unit :=
  called (fun w => (tt, f w)) (fun _ => e).

Definition note (e : event) : M St unit := called_ (fun w => w) e.

(** [with testbed.laser_source() as laser: body] *)
Definition with_laser_source {A} (body : M St A) : M St A :=
  with_ (called_ (laser_open tb) LaserOpen) (fun _ => ret tt)
        (fun _ => called_ (laser_close tb) LaserClose) (fun _ => body).

(** [with testbed.dm_controller() as dm: body] *)
Definition with_dm_controller {A} (body : M St A) : M St A :=
  with_ (called_ (dm_open tb) DmOpen) (fun _ => ret tt)
        (fun _ => called_ (dm_close tb) DmClose) (fun _ => body).

Definition set_current (c : Z) : M St unit :=
  called_ (fun w => laser_set_current tb w c) (LaserSetCurrent c).

Definition apply_shape (c : DmCommand) (dm_num : Z) : M St unit :=
  called_ (fun w => dm_apply_shape tb w c dm_num) (DmApplyShape c dm_num).

Definition apply_shape_to_both (c1 c2 : DmCommand) : M St unit :=
  called_ (fun w => dm_apply_shape_to_both tb w c1 c2) (DmApplyShapeToBoth c1 c2).

Definition imaging_call (a : imaging) : M St Image :=
  called (fun w => run_hicat_imaging tb w a) (fun _ => RunHicatImaging a).

(** [testbed.run_hicat_imaging(..., name=value, ..., **kwargs)] with the
    keywords [names] passed by name: a key of [kwargs] that is also
    passed by name is a [TypeError] (multiple values for the keyword),
    raised before the function is called. *)
Definition imaging_call_with (names : list string) (a : imaging) : M St Image :=
  match repeated names (img_kwargs a) with
  | Some keyword => raise (TypeError keyword)
  | None => imaging_call a
  end.

End Calls.

(** An event without its data: which step of an experiment it is. *)
Inductive step : Type :=
| laser_opened | current_set | laser_closed
| dm_opened | shape_applied | both_shapes_applied | dm_closed
| images_taken | dark_zone_tested | speckles_sensed
| phase_controlled | amplitude_controlled
| data_path_created | logging_set_up | command_loaded | printed
| sine_built | flat_built | correction_added.

Definition kind (e : event) : step :=
  match e with
  | LaserOpen => laser_opened
  | LaserSetCurrent _ => current_set
  | LaserClose => laser_closed
  | DmOpen => dm_opened
  | DmApplyShape _ _ => shape_applied
  | DmApplyShapeToBoth _ _ => both_shapes_applied
  | DmClose => dm_closed
  | RunHicatImaging _ => images_taken
  | TestDarkZoneIntensity _ _ _ => dark_zone_tested
  | SpeckleSensing _ _ _ _ => speckles_sensed
  | SpeckleControlPhase _ _ _ => phase_controlled
  | SpeckleControlAmplitude _ _ _ => amplitude_controlled
  | CreateDataPath _ _ => data_path_created
  | SetupHicatLogging _ _ => logging_set_up
  | LoadDmCommand _ _ _ => command_loaded
  | PrintLine _ => printed
  | SinCommand _ _ _ _ => sine_built
  | FlatCommand _ _ => flat_built
  | AddToCommand _ => correction_added
  end.

(** The events that produce a starting command. *)
Definition makes_command (e : event) : bool :=
  match e with
  | LoadDmCommand _ _ _ | SinCommand _ _ _ _ | FlatCommand _ _ => true
  | _ => false
  end.

(** The folders speckle sensing was run on, in order. *)
Fixpoint sensed_at (t : list event) : list path :=
  match t with
  | [] => []
  | SpeckleSensing p _ _ _ :: r => p :: sensed_at r
  | _ :: r => sensed_at r
  end.

(** Every command the testbed can hand out has [n] actuator values. *)
Definition dm_shaped {W Image} (tb : testbed W Image) (n : nat) : Prop :=
  (forall w file b f, List.length (data (fst (load_dm_command tb w file b f))) = n) /\
  (forall arg b f init, List.length (data (fst (sin_command tb arg b f init))) = n) /\
  (forall b f, List.length (data (fst (flat_command tb b f))) = n).

(** A testbed on paper: the world counts the calls made, commands have
    two actuators, sensing always finds the same speckle. *)
Definition paper : testbed nat unit :=
  {| getint := fun _ key => if String.eqb key "coron_current" then 40%Z else 20%Z;
     laser_open := S;
     laser_set_current := fun w _ => S w;
     laser_close := S;
     dm_open := S;
     dm_apply_shape := fun w _ _ => S w;
     dm_apply_shape_to_both := fun w _ _ => S w;
     dm_close := S;
     run_hicat_imaging := fun w _ => (tt, S w);
     test_dark_zone_intensity := fun w e _ _ _ _ => (e, S w);
     speckle_sensing := fun w _ => (12, 10, Quantity 25 nanometer, S w);
     speckle_control_phase := fun w _ _ => (90, S w);
     speckle_control_amplitude := fun w _ _ => (5, S w);
     create_data_path := fun w sfx => ([[Lit "data"]; [Lit sfx]], S w);
     setup_hicat_logging := fun w _ _ => S w;
     load_dm_command := fun w _ _ _ => ({| data := [0; 0]; attributes := [] |}, S w);
     sin_command := fun arg _ _ init =>
       ({| data := match arg with
                   | One spec => [magnitude (peak_to_valley spec); phase spec]
                   | Many _ => [0; 0]
                   end;
           attributes := [] |}, "sin"%string);
     flat_command := fun _ _ => ({| data := [0; 0]; attributes := [] |}, "flat"%string) |}.

Definition start (w : nat) : state nat := {| world := w; trace := [] |}.

(** Which of the two scopes are open after a trace. *)
Fixpoint laser_is_open (open : bool) (t : list event) : bool :=
  match t with
  | [] => open
  | LaserOpen :: r => laser_is_open true r
  | LaserClose :: r => laser_is_open false r
  | _ :: r => laser_is_open open r
  end.

Fixpoint dm_is_open (open : bool) (t : list event) : bool :=
  match t with
  | [] => open
  | DmOpen :: r => dm_is_open true r
  | DmClose :: r => dm_is_open false r
  | _ :: r => dm_is_open open r
  end.

End Testbed.

(** ** modules/general.py *)

Module General.
Import Testbed.

Section TakeExposures.

Variables W Image : Type.
Variable tb : testbed W Image.

Definition take_exposures
           (dm1_command_object dm2_command_object : DmCommand)
           (exposure_time : quantity) (num_exposures : Z)
           (camera_type : string) (coronograph pipeline : bool)
           (path : option path) (filename : text)
           (exposure_set_name suffix : option string)
           (kw_centering : option ImageCentering) (kw : kwargs)
  : M (St W) Image :=
  (* Wait to set the path until the experiment starts *)
  path <- match path with
          | None =>
              let suffix := match suffix with
                            | None => "take_exposures_data"
                            | Some x => "take_exposures_data_" ++ x
                            end%string in
              called (fun w => create_data_path tb w suffix) (CreateDataPath suffix)
          | Some p => ret p
          end ;;
  called_ (fun w => setup_hicat_logging tb w path "take_exposures_data")
          (SetupHicatLogging path "take_exposures_data") ;;
  (* Establish image type and set the FPM position and laser current *)
  let '(fpm_position, laser_current, exposure_set_name) :=
    if coronograph
    then (coron, getint tb "thorlabs_source_mcls1" "coron_current",
          match exposure_set_name with None => "coron"%string | Some n => n end)
    else (direct, getint tb "thorlabs_source_mcls1" "direct_current",
          match exposure_set_name with None => "direct"%string | Some n => n end) in
  (* Take data *)
  with_laser_source tb (
    set_current tb laser_current ;;
    with_dm_controller tb (
      apply_shape_to_both tb dm1_command_object dm2_command_object ;;
      imaging_call tb
        {| img_exposure_time := exposure_time;
           img_num_exposures := num_exposures;
           img_fpm_position := fpm_position;
           img_lyot_stop_position := None;
           img_centering := kw_centering;
           img_path := path;
           img_auto_exposure_time := None;
           img_exposure_set_name := Some exposure_set_name;
           img_filename := filename;
           img_simulator := None;
           img_camera_type := Some camera_type;
           img_pipeline := Some pipeline;
           img_kwargs := kw |})).

End TakeExposures.

End General.

(** ** SpeckleNulling.py *)

Module SpeckleNulling.
Import Testbed.

(** The attributes [__init__] stores. *)
Record attrs : Type :=
  { num_iterations : Z;
    bias : bool;
    flat_map : bool;
    path : option path;
    exposure_time : quantity;
    num_exposures : Z;
    dm_command_path : option string;
    initial_speckles : option sin_argument;
    suffix : option string;
    fpm_position : FpmPosition;
    lyot_stop_position : LyotStopPosition;
    centering : ImageCentering;
    kwargs : Testbed.kwargs }.

(** [SpeckleNulling()] with every argument left to its default. *)
Definition defaults : attrs :=
  {| num_iterations := 10; bias := false; flat_map := true; path := None;
     exposure_time := Quantity 100 millisecond; num_exposures := 3;
     dm_command_path := None;
     initial_speckles :=
       Some (One {| angle := 10; ncycles := 12;
                    peak_to_valley := Quantity 25 nanometer; phase := 90 |});
     suffix := None; fpm_position := coron; lyot_stop_position := in_beam;
     centering := auto; kwargs := [] |}.

(** [if self.initial_speckles:] a named tuple is true, [None] and the
    empty list are false. *)
Definition truthy_speckles (o : option sin_argument) : bool :=
  match o with
  | None | Some (Many []) => false
  | Some _ => true
  end.

(** The variables the main loop assigns. *)
Record locals : Type :=
  { current_command_object : DmCommand;
    auto_exposure_time : quantity }.

(** The keywords the imaging calls of the loop pass by name: the first
    call of a pass passes all of them but [simulator], the calls of the
    sweeps all of them, and the final call all of them but
    [auto_exposure_time].  What the calls pass by position
    ([exposure_time], [num_exposures], [fpm_position]) are parameters of
    [__init__], which its [**kwargs] cannot hold. *)
Definition imaging_keywords : list string :=
  ["lyot_stop_position"; "centering"; "path"; "auto_exposure_time";
   "exposure_set_name"; "filename"; "simulator"]%string.

Section Experiment.

Variables W Image : Type.
Variable tb : testbed W Image.
Variable self : attrs.

Definition build_sin (arg : sin_argument) (b f : option bool)
           (initial_data : option (list Q)) : M (St W) (DmCommand * string) :=
  note (SinCommand arg b f initial_data) ;;
  ret (sin_command tb arg b f initial_data).

Definition build_flat (b f : bool) : M (St W) (DmCommand * string) :=
  note (FlatCommand b f) ;;
  ret (flat_command tb b f).

(** Lines 61-80: the command the loop starts from, and its short
    name. *)
Definition initial_command : M (St W) (DmCommand * string) :=
  if truthy_str (dm_command_path self) then
    let file := match dm_command_path self with Some f => f | None => EmptyString end in
    current_command_object <-
      called (fun w => load_dm_command tb w file (bias self) (flat_map self))
             (fun _ => LoadDmCommand file (bias self) (flat_map self)) ;;
    let file_name := if flat_map self then "flat_map"%string else "bias"%string in
    (if truthy_speckles (initial_speckles self)
     then note (PrintLine "Ignoring initial speckles and loading dm_command from disk.")
     else ret tt) ;;
    ret (current_command_object, file_name)
  else if truthy_speckles (initial_speckles self) then
    let arg := match initial_speckles self with Some a => a | None => Many [] end in
    build_sin arg (Some (bias self)) (Some (flat_map self)) None
  else
    build_flat (bias self) (flat_map self).

Definition imaging_args (exposure : quantity) (p : Testbed.path)
           (exp_set_name : string) (name : text) (sim : option bool) : imaging :=
  {| img_exposure_time := exposure;
     img_num_exposures := num_exposures self;
     img_fpm_position := fpm_position self;
     img_lyot_stop_position := Some (lyot_stop_position self);
     img_centering := Some (centering self);
     img_path := p;
     img_auto_exposure_time := Some false;
     img_exposure_set_name := Some exp_set_name;
     img_filename := name;
     img_simulator := sim;
     img_camera_type := None;
     img_pipeline := None;
     img_kwargs := kwargs self |}.

Definition phase_list : list Z := range3 0 360 30.

Definition amplitude_coeff_list : list Q := np_arange (1 # 10) 2 (3 # 10).

Section Iteration.

Variable base : Testbed.path.        (* self.path *)
Variables file_name exp_set_name : string.
Variable i : Z.

Definition iteration_path : Testbed.path :=
  path_join base [Lit "iteration"; Num (inject_Z i)].

Definition itr_name (name : string) : text :=
  [Lit "itr"; Num (inject_Z i); Lit "_"; Lit name].

(** Lines 123-139. *)
Definition phase_sweep (current : DmCommand) (exposure : quantity)
           (ncycles_new angle_deg_new : Q) (peak_to_valley_new : quantity)
  : M (St W) unit :=
  for_each phase_list (fun phi =>
    (* Add the current dm command into a new sin_command. *)
    ' (new_command, name) <-
      build_sin (One {| angle := angle_deg_new; ncycles := ncycles_new;
                        peak_to_valley := peak_to_valley_new;
                        phase := inject_Z phi |})
                (Some (bias self)) (Some (flat_map self))
                (Some (data current)) ;;
    apply_shape tb new_command 1 ;;
    let phase_path := path_join iteration_path [Lit "phase"; Num (inject_Z phi)] in
    _ <- imaging_call_with tb
           ["lyot_stop_position"; "path"; "auto_exposure_time"; "centering";
            "exposure_set_name"; "filename"; "simulator"]%string
           (imaging_args exposure phase_path exp_set_name (itr_name name) (Some false)) ;;
    ret tt).

(** Lines 145-164. *)
Definition amplitude_sweep (current : DmCommand) (exposure : quantity)
           (ncycles_new angle_deg_new : Q) (peak_to_valley_new : quantity)
           (new_phase : Q) : M (St W) unit :=
  for_each amplitude_coeff_list (fun ampl_ptv =>
    (* Add the current dm command into a new sin_command. *)
    let peak_to_valley_test := scale peak_to_valley_new ampl_ptv in
    ' (new_command, name) <-
      build_sin (One {| angle := angle_deg_new; ncycles := ncycles_new;
                        peak_to_valley := peak_to_valley_test;
                        phase := new_phase |})
                (Some (bias self)) (Some (flat_map self))
                (Some (data current)) ;;
    apply_shape tb new_command 1 ;;
    let amplitude_path := path_join iteration_path [Lit "amplitude"; Num ampl_ptv] in
    _ <- imaging_call_with tb
           ["lyot_stop_position"; "centering"; "path"; "auto_exposure_time";
            "exposure_set_name"; "filename"; "simulator"]%string
           (imaging_args exposure amplitude_path exp_set_name (itr_name name)
                         (Some false)) ;;
    ret tt).

(** What one step of a sweep leaves in the trace: the sine command
    is built on top of the current data, applied to DM 1, and
    images are taken into the folder [tag]. *)
Definition sweep_events (current : DmCommand) (exposure : quantity)
           (spec : SinSpecification) (tag : text) : list event :=
  let built := sin_command tb (One spec) (Some (bias self)) (Some (flat_map self))
                           (Some (data current)) in
  [SinCommand (One spec) (Some (bias self)) (Some (flat_map self))
              (Some (data current));
   DmApplyShape (fst built) 1;
   RunHicatImaging (imaging_args exposure (path_join iteration_path tag)
                                 exp_set_name (itr_name (snd built)) (Some false))].

(** Lines 100-173: the body of the main loop. *)
Definition iteration (l : locals) : M (St W) locals :=
  let current := current_command_object l in
  apply_shape tb current 1 ;;
  (* Tests the dark zone intensity and updates exposure time if needed *)
  exposure <-
    called (fun w => test_dark_zone_intensity tb w (auto_exposure_time l) 2
                       (fpm_position self) (lyot_stop_position self) (centering self))
           (TestDarkZoneIntensity (auto_exposure_time l) 2) ;;
  (* Take coronographic data, with backgrounds. *)
  _ <- imaging_call_with tb
         ["lyot_stop_position"; "centering"; "path"; "auto_exposure_time";
          "exposure_set_name"; "filename"]%string
         (imaging_args exposure iteration_path exp_set_name (itr_name file_name) None) ;;
  (* Run sensing. *)
  let coron_path := path_join iteration_path [Lit exp_set_name] in
  ' (ncycles_new, angle_deg_new, peak_to_valley_new) <-
    called (fun w => speckle_sensing tb w coron_path)
           (fun r => SpeckleSensing coron_path (fst (fst r)) (snd (fst r)) (snd r)) ;;
  phase_sweep current exposure ncycles_new angle_deg_new peak_to_valley_new ;;
  (* Run control on the set of phase shifted data. *)
  new_phase <-
    called (fun w => speckle_control_phase tb w iteration_path exp_set_name)
           (SpeckleControlPhase iteration_path exp_set_name) ;;
  amplitude_sweep current exposure ncycles_new angle_deg_new peak_to_valley_new
                  new_phase ;;
  new_amplitude_tmp <-
    called (fun w => speckle_control_amplitude tb w iteration_path exp_set_name)
           (SpeckleControlAmplitude iteration_path exp_set_name) ;;
  let new_amplitude := Quantity new_amplitude_tmp nanometer in
  (* Create a new sine wave at the specified phase, and add it to our
     current_dm_command. *)
  ' (phase_correction_command, _) <-
    build_sin (One {| angle := angle_deg_new; ncycles := ncycles_new;
                      peak_to_valley := new_amplitude; phase := new_phase |})
              None None None ;;
  note (AddToCommand phase_correction_command) ;;
  sum <- (fun s => (np_iadd (data current) (data phase_correction_command), s)) ;;
  ret {| current_command_object := set_data current sum;
         auto_exposure_time := exposure |}.

End Iteration.

(** The steps of one pass through the loop body. *)
Definition iteration_steps : list step :=
  [shape_applied; dark_zone_tested; images_taken; speckles_sensed]
    ++ List.concat (repeat [sine_built; shape_applied; images_taken] 12)
    ++ [phase_controlled]
    ++ List.concat (repeat [sine_built; shape_applied; images_taken] 7)
    ++ [amplitude_controlled; sine_built; correction_added].

(** The steps before the loop: the data path, if none was given, and
    the starting command. *)
Definition prologue_steps : list step :=
  match path self with None => [data_path_created] | Some _ => [] end
    ++ (if truthy_str (dm_command_path self)
        then command_loaded
               :: (if truthy_speckles (initial_speckles self) then [printed] else [])
        else if truthy_speckles (initial_speckles self) then [sine_built]
             else [flat_built]).

Definition experiment : M (St W) unit :=
  (* Wait to set the path until the experiment starts *)
  base <- match path self with
          | None =>
              let suffix := match suffix self with
                            | None => "speckle_nulling"
                            | Some x => "speckle_nulling" ++ "_" ++ x
                            end%string in
              called (fun w => create_data_path tb w suffix) (CreateDataPath suffix)
          | Some p => ret p
          end ;;
  ' (current_command_object, file_name) <- initial_command ;;
  (* Set the starting exposure time. *)
  let auto_exposure_time := exposure_time self in
  (* Set the exposure set name and laser current based on FPM position. *)
  let '(exp_set_name, laser_current) :=
    if fpm_value_eqb (fpm_position self) coron
    then ("coron"%string, getint tb "thorlabs_source_mcls1" "coron_current")
    else ("direct"%string, getint tb "thorlabs_source_mcls1" "direct_current") in
  with_laser_source tb (
    set_current tb laser_current ;;
    with_dm_controller tb (
      _ <- for_fold (range (num_iterations self))
                    (iteration base file_name exp_set_name)
                    {| current_command_object := current_command_object;
                       auto_exposure_time := auto_exposure_time |} ;;
      (* Take a final (non-saturated) image *)
      _ <- imaging_call_with tb
             ["centering"; "lyot_stop_position"; "path"; "exposure_set_name";
              "filename"; "simulator"]%string
             {| img_exposure_time := exposure_time self;
                img_num_exposures := num_exposures self;
                img_fpm_position := fpm_position self;
                img_lyot_stop_position := Some (lyot_stop_position self);
                img_centering := Some (centering self);
                img_path := base;
                img_auto_exposure_time := None;
                img_exposure_set_name := Some "final"%string;
                img_filename := [Lit "final_dark_zone.fits"];
                img_simulator := Some false;
                img_camera_type := None;
                img_pipeline := None;
                img_kwargs := kwargs self |} ;;
      ret tt)).

End Experiment.

(** [after] is [before] with the data of [correction] added to its own,
    element by element. *)
Definition accumulated (before correction after : DmCommand) : Prop :=
  data after = map (fun p => (fst p + snd p)%Q) (combine (data before) (data correction)) /\
  attributes after = attributes before.

(** The events [evs] are one pass of the loop with index [i] that
    starts with the variables [l] and hands on the variables [l']: the
    command of [l] is applied, the dark zone test is given the exposure
    time of [l] and returns the one of [l'], with which the images of
    the iteration are taken; sensing runs on the folder of the
    iteration; the steps are those of [iteration_steps]; the last one
    adds a correction, and the command of [l'] is the command of [l]
    with that correction accumulated. *)
Definition pass_from (base : Testbed.path) (exp_set_name : string)
           (l : locals) (i : Z) (evs : list event) (l' : locals) : Prop :=
  exists images rest front correction,
    evs = DmApplyShape (current_command_object l) 1
            :: TestDarkZoneIntensity (auto_exposure_time l) 2 (auto_exposure_time l')
            :: RunHicatImaging images :: rest /\
    img_exposure_time images = auto_exposure_time l' /\
    img_path images = iteration_path base i /\
    sensed_at evs = [path_join (iteration_path base i) [Lit exp_set_name]] /\
    map kind evs = iteration_steps /\
    evs = front ++ [AddToCommand correction] /\
    accumulated (current_command_object l) correction (current_command_object l').

(** Passes in a row: each starts with the variables the one before
    handed on. *)
Inductive passes_from (base : Testbed.path) (exp_set_name : string)
  : locals -> list Z -> list (list event) -> locals -> Prop :=
| no_pass l : passes_from base exp_set_name l [] [] l
| pass_then l i evs l1 indices blocks l2 :
    pass_from base exp_set_name l i evs l1 ->
    passes_from base exp_set_name l1 indices blocks l2 ->
    passes_from base exp_set_name l (i :: indices) (evs :: blocks) l2.

(** The variables of a loop that starts from a command with the data
    [1, 2]. *)
Definition on_paper : locals :=
  {| current_command_object := {| data := [1; 2]; attributes := [] |};
     auto_exposure_time := Quantity 100 millisecond |}.

End SpeckleNulling.

(** ** pastis/PastisModeAmplitudes.py *)

Module PastisModeAmplitudes.

Definition path : Type := list (list fragment).

Inductive event : Type :=
| WriteReadme (p : path)
| LogInfo (msg : list fragment)
| RunFluxNormalization
| MeasureCoronagraphFloor (floor direct_max : Q)
| IrisApplyShape (command_list : list (Q * Q * Q))
| TakeExposure (kind : string) (initial_path : path)
| SaveTxt (file : list fragment) (values : list Q).

(** What the base class [PastisExperiment] and the devices do; they are
    not among the sources and are taken to return normally. *)
Record bench (W : Type) : Type :=
  { run_flux_normalization : W -> W;
    (* leaves [coronagraph_floor] and [direct_max] on the instance *)
    measure_coronagraph_floor : W -> Q * Q * W;
    iris_apply_shape : W -> list (Q * Q * Q) -> W;
    (* the image, flattened *)
    take_exposure : W -> string -> path -> list Q * W }.

(** The attributes: what [__init__] is given or reads from the result
    files, and what the base class provides. *)
Record attrs : Type :=
  { pastis_results_path : list fragment;
    mode_number : Z;
    c_target : Q;
    wfe_amplitudes : list Q;
    pastis_modes : list (list Q);
    mode_weights : list Q;
    nb_seg : Z;
    dark_zone : list bool;
    output_path : path }.

Record state (W : Type) : Type :=
  { world : W;
    trace : list event;
    measured_contrast : list Q;
    coronagraph_floor : option Q;
    direct_max : option Q }.

(** The instance [__init__] leaves: nothing measured yet. *)
Definition __init__ {W} (w : W) : state W :=
  {| world := w; trace := []; measured_contrast := [];
     coronagraph_floor := None; direct_max := None |}.

(** [np.mean(image[mask])] on exact numbers. *)
Definition masked (image : list Q) (mask : list bool) : list Q :=
  map fst (filter snd (combine image mask)).

Definition np_mean (l : list Q) : Q :=
  Qred (fold_right Qplus 0 l / inject_Z (Z.of_nat (List.length l))).

(** [[f(x) for x in l]] where [f] can raise. *)
Fixpoint comprehension {A B} (f : A -> result B) (l : list A) : result (list B) :=
  match l with
  | [] => Ok []
  | x :: r =>
      match f x with
      | Raise e => Raise e
      | Ok b => match comprehension f r with
                | Raise e => Raise e
                | Ok bs => Ok (b :: bs)
                end
      end
  end.

Section Experiment.

Variable W : Type.
Variable tb : bench W.
Variable self : attrs.

Definition St : Type := state W.

Definition emit (e : event) (w : W) (s : St) : St :=
  {| world := w; trace := trace s ++ [e];
     measured_contrast := measured_contrast s;
     coronagraph_floor := coronagraph_floor s;
     direct_max := direct_max s |}.

Definition note (e : event) : M St unit :=
  modify (fun s => emit e (world s) s).

Definition lift {A} (r : result A) : M St A := fun s => (r, s).

Definition call_measure_coronagraph_floor : M St unit :=
  fun s => let '(floor, dmax, w) := measure_coronagraph_floor tb (world s) in
           (Ok tt,
            {| world := w;
               trace := trace s ++ [MeasureCoronagraphFloor floor dmax];
               measured_contrast := measured_contrast s;
               coronagraph_floor := Some floor;
               direct_max := Some dmax |}).

Definition call_take_exposure (kind : string) (p : path) : M St (list Q) :=
  fun s => let '(img, w) := take_exposure tb (world s) kind p in
           (Ok img, emit (TakeExposure kind p) w s).

Definition append_measured_contrast (c : Q) : M St unit :=
  modify (fun s => {| world := world s; trace := trace s;
                      measured_contrast := measured_contrast s ++ [c];
                      coronagraph_floor := coronagraph_floor s;
                      direct_max := direct_max s |}).

(** Lines 96-119: the body of the loop over [wfe_amplitudes]. *)
Definition scan_amplitude (wfe : Q) : M St unit :=
  note (LogInfo [Lit "Applying scaling of "; Num wfe; Lit "nm rms"]) ;;
  let initial_path := output_path self ++ [[Lit "wfe_"; Num wfe; Lit "nm"]] in
  (* Multiply mode by its mode weight, and scale by extra WFE amplitude *)
  column <- lift (comprehension (fun row => index row (mode_number self))
                                (pastis_modes self)) ;;
  weight <- lift (index (mode_weights self) (mode_number self)) ;;
  let opd := map (fun m => (m * weight * wfe)%Q) column in
  (* Convert this to IrisAO command: nm to um *)
  command_list <- lift (comprehension
                          (fun seg => match index opd seg with
                                      | Ok v => Ok (Qred (v / 1000), 0%Q, 0%Q)
                                      | Raise e => Raise e
                                      end)
                          (range (nb_seg self))) ;;
  (* Apply this to IrisAO *)
  modify (fun s => emit (IrisApplyShape command_list)
                        (iris_apply_shape tb (world s) command_list) s) ;;
  (* Take coro images *)
  pair_image <- call_take_exposure "coron" initial_path ;;
  dmax <- gets (fun s => match direct_max s with Some d => d | None => 0%Q end) ;;
  let pair_image := map (fun v => (v / dmax)%Q) pair_image in
  (* Measure mean contrast *)
  append_measured_contrast (np_mean (masked pair_image (dark_zone self))).

Definition experiment : M St unit :=
  (* Save some experiment input params into a readme *)
  note (WriteReadme (output_path self ++ [[Lit "_README.txt"]])) ;;
  (* A couple of initial log messages *)
  note (LogInfo [Lit "Will be scaling mode number "; Num (inject_Z (mode_number self))]) ;;
  note (LogInfo [Lit "Target contrast: "; Num (c_target self)]) ;;
  note (LogInfo (Lit "WFE amplitudes used for scaling: "
                   :: map Num (wfe_amplitudes self) ++ [Lit " nm"])) ;;
  note (LogInfo (Lit "PASTIS modes and mode weights read from "
                   :: pastis_results_path self)) ;;
  (* Run flux normalization *)
  note (LogInfo [Lit "Starting flux normalization"]) ;;
  modify (fun s => emit RunFluxNormalization (run_flux_normalization tb (world s)) s) ;;
  (* Take unaberrated direct and coro images *)
  note (LogInfo [Lit "Measuring reference PSF (direct) and coronagraph floor"]) ;;
  call_measure_coronagraph_floor ;;
  (* Target contrast needs to be above contrast floor *)
  floor <- gets (fun s => match coronagraph_floor s with Some f => f | None => 0%Q end) ;;
  if Qle_bool (c_target self) floor then
    raise (ValueError [Lit "Coronagraph floor ("; Num floor;
                       Lit ") cannot be above target contrast (";
                       Num (c_target self); Lit ")."])
  else
    (* Loop over all WFE amplitudes *)
    for_each (wfe_amplitudes self) scan_amplitude ;;
    (* Save the measured contrasts to file, and the input WFE amplitudes *)
    contrasts <- gets (fun s => measured_contrast s) ;;
    note (SaveTxt [Lit "scaled_mode_contrasts_"; Num (c_target self); Lit ".txt"]
                  contrasts) ;;
    note (SaveTxt [Lit "wfe_amplitudes_"; Num (c_target self); Lit ".txt"]
                  (wfe_amplitudes self)).

End Experiment.

(** A bench on paper whose coronagraph floor is 1e-6. *)
Definition paper : bench nat :=
  {| run_flux_normalization := S;
     measure_coronagraph_floor := fun w => (1 # 1000000, 1, S w);
     iris_apply_shape := fun w _ => S w;
     take_exposure := fun w _ _ => ([1 # 10000000; 3 # 10000000], S w) |}.

(** One mode on two segments, scanned at three amplitudes, for a target
    contrast of 1e-7. *)
Definition too_ambitious : attrs :=
  {| pastis_results_path := [Lit "results"];
     mode_number := 0;
     c_target := 1 # 10000000;
     wfe_amplitudes := [1; 2; 3];
     pastis_modes := [[1]; [-1]];
     mode_weights := [1 # 2];
     nb_seg := 2;
     dark_zone := [true; true];
     output_path := [[Lit "out"]] |}.

End PastisModeAmplitudes.

(** ** catkit/hardware/standa/stages.py: finding the device *)

Module Devices.

(** [needle in hay] on strings. *)
Fixpoint contains (needle hay : string) : bool :=
  if String.prefix needle hay then true
  else match hay with
       | EmptyString => false
       | String _ rest => contains needle rest
       end.

(** [repr] of a list, from the [repr] of its items. *)
Definition list_repr (items : list string) : string :=
  ("[" ++ String.concat ", " items ++ "]")%string.

(** What [pyximc.lib] answers about one enumeration of the bus
    ([enumerate_devices(ENUMERATE_PROBE, None)]): how many devices, the
    name of the device at an index, and the result code of asking for
    its controller name.  [repr_name] is Python's [repr] of a name. *)
Record enumeration (Name : Type) : Type :=
  { Result_Ok : Z;
    get_device_count : Z;
    get_device_name : Z -> Name;
    get_enumerate_device_controller_name : Z -> Z;
    repr_name : Name -> string }.

Section Scan.

Variable Name : Type.
Variable lib : enumeration Name.

(** [scan_for_devices]: the loop appends to [devices_list]. *)
Definition scan_for_devices : list Name :=
  let dev_count := get_device_count lib in
  fold_left
    (fun devices_list dev_ind =>
       let enum_name := get_device_name lib dev_ind in
       let result := get_enumerate_device_controller_name lib dev_ind in
       if (result =? Result_Ok lib)%Z then devices_list ++ [enum_name]
       else devices_list)
    (range dev_count) [].

(** The [for item in device_list] loop of [get_device_id], which returns
    from inside. *)
Fixpoint first_with (id_str : string) (device_list : list Name) : option Name :=
  match device_list with
  | [] => None
  | item :: rest =>
      if contains id_str (repr_name lib item) then Some item
      else first_with id_str rest
  end.

Definition get_device_id (id_str : string) : result Name :=
  (* Get device ID number. *)
  let device_list := scan_for_devices in
  match device_list with
  | [] => Raise (RuntimeError "No devices found.")
  | _ =>
      match first_with id_str device_list with
      | Some item => Ok item
      | None =>
          Raise (RuntimeError
                   ("'" ++ id_str ++ "' not present in device list: '"
                        ++ list_repr (map (repr_name lib) device_list) ++ "'."))
      end
  end.

(** The two tests as the code makes them. *)
Definition answers (i : Z) : bool :=
  (get_enumerate_device_controller_name lib i =? Result_Ok lib)%Z.

Definition fits (id_str : string) (i : Z) : bool :=
  contains id_str (repr_name lib (get_device_name lib i)).

(** An index the scan keeps, and one [get_device_id] accepts. *)
Definition listed (i : Z) : Prop :=
  (0 <= i < get_device_count lib)%Z /\
  get_enumerate_device_controller_name lib i = Result_Ok lib.

Definition matches (id_str : string) (i : Z) : Prop :=
  listed i /\ contains id_str (repr_name lib (get_device_name lib i)) = true.

End Scan.

(** A bus with four controllers, the third of which does not answer. *)
Definition four_on_the_bus : enumeration string :=
  {| Result_Ok := 0;
     get_device_count := 4;
     get_device_name := fun i =>
       if (i =? 0)%Z then "xi-com:///dev/ttyACM0"%string
       else if (i =? 1)%Z then "xi-com:///dev/ttyACM1"%string
       else if (i =? 2)%Z then "xi-com:///dev/ttyACM2"%string
       else "xi-com:///dev/ttyACM3"%string;
     get_enumerate_device_controller_name := fun i => if (i =? 2)%Z then (-1)%Z else 0%Z;
     repr_name := fun n => ("b'" ++ n ++ "'")%string |}.

End Devices.

(** ** Stages that remember what they were told *)

Module Registers.
Import Stage.

(** After a move command that succeeded, the stage reports the commanded
    step and microstep. *)
Definition reports_commanded_position {D} (lib : ximc D) : Prop :=
  forall d p u,
    fst (lib_command_move lib d p u) = Stage.Result_Ok lib ->
    forall g, exists enc,
      lib_get_position lib (snd (lib_command_move lib d p u)) g =
        (Stage.Result_Ok lib,
         {| Position := p; uPosition := u; EncPosition := enc |},
         snd (lib_command_move lib d p u)).

(** After move settings were set with success, reading them gives them
    back. *)
Definition keeps_move_settings {D} (lib : ximc D) : Prop :=
  forall d m,
    fst (lib_set_move_settings lib d m) = Stage.Result_Ok lib ->
    forall m0,
      lib_get_move_settings lib (snd (lib_set_move_settings lib d m)) m0 =
        (Stage.Result_Ok lib, m, snd (lib_set_move_settings lib d m)).

(** The state of a stage on paper: where it is and how it is set. *)
Record registers : Type :=
  { at_position : Z * Z;
    settings : move_settings_t;
    homing : home_settings_t }.

Definition stored : ximc registers :=
  {| Stage.Result_Ok := 0;
     lib_command_move := fun d p u =>
       (0%Z, {| at_position := (p, u); settings := settings d; homing := homing d |});
     lib_command_homezero := fun d =>
       (0%Z, {| at_position := (0%Z, 0%Z); settings := settings d; homing := homing d |});
     lib_command_sstp := fun d => (0%Z, d);
     lib_get_home_settings := fun d _ => (0%Z, homing d, d);
     lib_set_home_settings := fun d h =>
       (0%Z, {| at_position := at_position d; settings := settings d; homing := h |});
     lib_get_move_settings := fun d _ => (0%Z, settings d, d);
     lib_set_move_settings := fun d m =>
       (0%Z, {| at_position := at_position d; settings := m; homing := homing d |});
     lib_get_status := fun d _ => (0%Z, {| MvCmdSts := 0; status_rest := [] |}, d);
     lib_get_position := fun d _ =>
       (0%Z, {| Position := fst (at_position d); uPosition := snd (at_position d);
                EncPosition := fst (at_position d) |}, d) |}.

Definition switched_on : state registers :=
  {| dev := {| at_position := (0%Z, 0%Z);
               settings := {| Speed := 100; uSpeed := 0; move_rest := [500; 500]%Z |};
               homing := {| FastHome := 100; uFastHome := 0; SlowHome := 20; uSlowHome := 0;
                            HomeDelta := 0; uHomeDelta := 0; HomeFlags := 370 |} |};
     trace := []; log := [] |}.

(** A stage whose position cannot be read. *)
Definition unreadable : ximc nat :=
  {| Stage.Result_Ok := 0;
     lib_command_move := fun d _ _ => (0%Z, S d);
     lib_command_homezero := fun d => (0%Z, d);
     lib_command_sstp := fun d => (0%Z, d);
     lib_get_home_settings := fun d h => (0%Z, h, d);
     lib_set_home_settings := fun d _ => (0%Z, d);
     lib_get_move_settings := fun d m => (0%Z, m, d);
     lib_set_move_settings := fun d _ => (0%Z, d);
     lib_get_status := fun d s => (0%Z, s, d);
     lib_get_position := fun d g => ((-1)%Z, g, d) |}.

End Registers.

(** ** Lasers that fail *)

Module BrokenLasers.
Import LaserSource.

(** A laser that cannot be reached. *)
Definition unreachable (o : object nat) (_ : unit) (w : nat * nat)
  : result nat * object nat * (nat * nat) :=
  (Raise (RuntimeError "no laser"), o, w).

(** A laser that does not let go. *)
Definition stuck_close (o : object nat) (w : nat * nat)
  : result unit * object nat * (nat * nat) :=
  (Raise (RuntimeError "still on"), o, w).

Definition quiet_body : M (state (nat * nat) nat) Z := ret 7%Z.

End BrokenLasers.

(** ** pastis/PastisModeAmplitudes.py: the scan in closed form *)

Module PastisScan.
Import PastisModeAmplitudes.

(** The mode number is a valid column of every row of [pastis_modes] and
    a valid index of [mode_weights], counted from the front, and the
    modes have a row for every segment. *)
Definition well_indexed (self : attrs) : Prop :=
  (0 <= mode_number self < Z.of_nat (List.length (mode_weights self)))%Z /\
  Forall (fun row => (mode_number self < Z.of_nat (List.length row))%Z) (pastis_modes self) /\
  (nb_seg self <= Z.of_nat (List.length (pastis_modes self)))%Z.

(** The optical path difference of the scaled mode, in nanometres, per
    row of [pastis_modes]. *)
Definition scaled_mode (self : attrs) (wfe : Q) : list Q :=
  let k := Z.to_nat (mode_number self) in
  map (fun row => (nth k row 0 * nth k (mode_weights self) 0 * wfe)%Q) (pastis_modes self).

(** The IrisAO command for it: piston in micrometres for the first
    [nb_seg] segments, no tip and no tilt. *)
Definition iris_command (self : attrs) (wfe : Q) : list (Q * Q * Q) :=
  map (fun v => (Qred (v / 1000), 0, 0))
      (firstn (Z.to_nat (nb_seg self)) (scaled_mode self wfe)).

(** What [experiment] leaves in the trace before it compares the floor
    with the target. *)
Definition preparation (self : attrs) (floor dmax : Q) : list event :=
  [WriteReadme (output_path self ++ [[Lit "_README.txt"]]);
   LogInfo [Lit "Will be scaling mode number "; Num (inject_Z (mode_number self))];
   LogInfo [Lit "Target contrast: "; Num (c_target self)];
   LogInfo (Lit "WFE amplitudes used for scaling: "
              :: map Num (wfe_amplitudes self) ++ [Lit " nm"]);
   LogInfo (Lit "PASTIS modes and mode weights read from " :: pastis_results_path self);
   LogInfo [Lit "Starting flux normalization"];
   RunFluxNormalization;
   LogInfo [Lit "Measuring reference PSF (direct) and coronagraph floor"];
   MeasureCoronagraphFloor floor dmax].

(** One mode on two segments, scanned at three amplitudes, for a target
    contrast of 1e-5; and the same asked for a mode that does not
    exist. *)
Definition modest : attrs :=
  {| pastis_results_path := [Lit "results"];
     mode_number := 0;
     c_target := 1 # 100000;
     wfe_amplitudes := [1; 2; 3];
     pastis_modes := [[1]; [-1]];
     mode_weights := [1 # 2];
     nb_seg := 2;
     dark_zone := [true; true];
     output_path := [[Lit "out"]] |}.

Definition off_the_table : attrs :=
  {| pastis_results_path := [Lit "results"];
     mode_number := 5;
     c_target := 1 # 100000;
     wfe_amplitudes := [1; 2; 3];
     pastis_modes := [[1]; [-1]];
     mode_weights := [1 # 2];
     nb_seg := 2;
     dark_zone := [true; true];
     output_path := [[Lit "out"]] |}.

End PastisScan.

(** ** Reading traces of the testbed *)

Module Traces.
Import Testbed.

(** The imaging calls of a trace, in order. *)
Fixpoint images (t : list event) : list imaging :=
  match t with
  | [] => []
  | RunHicatImaging a :: r => a :: images r
  | _ :: r => images r
  end.

(** The laser currents set in a trace, in order. *)
Fixpoint currents (t : list event) : list Z :=
  match t with
  | [] => []
  | LaserSetCurrent c :: r => c :: currents r
  | _ :: r => currents r
  end.

(** The shapes applied to a single DM in a trace, in order. *)
Fixpoint shapes (t : list event) : list (DmCommand * Z) :=
  match t with
  | [] => []
  | DmApplyShape c n :: r => (c, n) :: shapes r
  | _ :: r => shapes r
  end.

(** The pairs of shapes applied to both DMs in a trace, in order. *)
Fixpoint pairs (t : list event) : list (DmCommand * DmCommand) :=
  match t with
  | [] => []
  | DmApplyShapeToBoth c1 c2 :: r => (c1, c2) :: pairs r
  | _ :: r => pairs r
  end.

(** Following the laser scope and the DM scope through the steps of a
    trace.  The answer is [None] when a scope is opened while open or
    closed while not open, when the laser is closed before the DM
    controller, when the current is set without the laser, when a shape
    is applied without the DM controller, or when images are taken
    without both; otherwise it is which scopes are open at the end. *)
Fixpoint scopes (laser dm : bool) (t : list step) : option (bool * bool) :=
  match t with
  | [] => Some (laser, dm)
  | laser_opened :: r => if laser then None else scopes true dm r
  | laser_closed :: r => if laser && negb dm then scopes false dm r else None
  | current_set :: r => if laser then scopes laser dm r else None
  | dm_opened :: r => if dm then None else scopes laser true r
  | dm_closed :: r => if dm then scopes laser false r else None
  | shape_applied :: r | both_shapes_applied :: r =>
      if dm then scopes laser dm r else None
  | images_taken :: r => if laser && dm then scopes laser dm r else None
  | _ :: r => scopes laser dm r
  end.

End Traces.

(** ** Speckle nulling without a pass *)

Module SpeckleRuns.
Import Testbed SpeckleNulling.

(** [SpeckleNulling(num_iterations=0)]. *)
Definition without_loop : attrs :=
  {| num_iterations := 0; bias := false; flat_map := true; path := None;
     exposure_time := Quantity 100 millisecond; num_exposures := 3;
     dm_command_path := None;
     initial_speckles :=
       Some (One {| angle := 10; ncycles := 12;
                    peak_to_valley := Quantity 25 nanometer; phase := 90 |});
     suffix := None; fpm_position := coron; lyot_stop_position := in_beam;
     centering := auto; kwargs := [] |}.

(** [SpeckleNulling(simulator=True)] and
    [SpeckleNulling(num_iterations=0, simulator=True)]. *)
Definition with_simulator : attrs :=
  {| num_iterations := 10; bias := false; flat_map := true; path := None;
     exposure_time := Quantity 100 millisecond; num_exposures := 3;
     dm_command_path := None;
     initial_speckles :=
       Some (One {| angle := 10; ncycles := 12;
                    peak_to_valley := Quantity 25 nanometer; phase := 90 |});
     suffix := None; fpm_position := coron; lyot_stop_position := in_beam;
     centering := auto; kwargs := [("simulator", "True")]%string |}.

Definition without_loop_with_simulator : attrs :=
  {| num_iterations := 0; bias := false; flat_map := true; path := None;
     exposure_time := Quantity 100 millisecond; num_exposures := 3;
     dm_command_path := None;
     initial_speckles :=
       Some (One {| angle := 10; ncycles := 12;
                    peak_to_valley := Quantity 25 nanometer; phase := 90 |});
     suffix := None; fpm_position := coron; lyot_stop_position := in_beam;
     centering := auto; kwargs := [("simulator", "True")]%string |}.

End SpeckleRuns.

(** ** modules/general.py: the data sets *)

Module DataSets.
Import Testbed General.

(** [s.split('.')[0]]: what stands before the first dot. *)
Fixpoint before_dot (s : string) : string :=
  match s with
  | EmptyString => EmptyString
  | String c rest =>
      if String.eqb (String c EmptyString) "." then EmptyString
      else String c (before_dot rest)
  end.

(** An item of a command list: a path when the list is a list of paths,
    a command object otherwise. *)
Definition command_item (list_of_paths : bool) : Type :=
  if list_of_paths then string else DmCommand.

Section Loops.

Variables W Image : Type.
Variable tb : testbed W Image.

(** [os.path.basename] and [os.path.dirname]. *)
Variables basename dirname : string -> string.

(** [DmCommand.load_dm_command(file, bias=, flat_map=, dm_num=, as_volts=)];
    the trace keeps the file and the first two keywords. *)
Variable load_dm_command_as : W -> string -> bool -> bool -> Z -> bool -> DmCommand * W.

Definition load (file : string) (bias flat_map : bool) (dm_num : Z) (as_volts : bool)
  : M (St W) DmCommand :=
  called (fun w => load_dm_command_as w file bias flat_map dm_num as_volts)
         (fun _ => LoadDmCommand file bias flat_map).

(** The parameters of [take_exposures] that a call with eleven
    positional arguments binds by position. *)
Definition take_exposures_parameters : list string :=
  ["dm1_command_object"; "dm2_command_object"; "exposure_time"; "num_exposures";
   "camera_type"; "coronograph"; "pipeline"; "path"; "filename";
   "exposure_set_name"; "suffix"]%string.

(** [take_exposures(a1, ..., a11, centering=c, **kw)]: a key [centering]
    of [kw] repeats the keyword, and a key of [kw] that names a parameter
    bound by position gives it a second value.  Both are [TypeError]s,
    the first raised while the call is put together and the second while
    the arguments are bound, before the body of [take_exposures] runs. *)
Definition call_take_exposures
           (dm1_command_object dm2_command_object : DmCommand)
           (exposure_time : quantity) (num_exposures : Z)
           (camera_type : string) (coronograph pipeline : bool)
           (path : Testbed.path) (filename : text) (exposure_set_name : string)
           (centering : ImageCentering) (kw : kwargs) : M (St W) Image :=
  match repeated ["centering"%string] kw with
  | Some keyword => raise (TypeError keyword)
  | None =>
      match repeated take_exposures_parameters kw with
      | Some keyword => raise (TypeError keyword)
      | None =>
          take_exposures tb dm1_command_object dm2_command_object exposure_time
                         num_exposures camera_type coronograph pipeline (Some path)
                         filename (Some exposure_set_name) None (Some centering) kw
      end
  end.

(** Lines 11-55, with every argument given; [kw] is [**kwargs]. *)
Definition take_coffee_data_set
           (dm2_command_list : list string) (path : Testbed.path) (exp_set_name : string)
           (coron_exp_time direct_exp_time : quantity) (num_exposures : Z)
           (dm1_command_object : DmCommand) (camera_type : string)
           (centering : ImageCentering) (pipeline : bool) (kw : kwargs)
  : M (St W) unit :=
  for_each dm2_command_list (fun command =>
    dm2_command_object <- load command false false 2 true ;;
    let filename := basename (dirname command) in
    let experiment_path := path_join (path_join path [Lit exp_set_name]) [Lit filename] in
    (* Direct. *)
    call_take_exposures dm1_command_object dm2_command_object direct_exp_time
                        num_exposures camera_type false pipeline experiment_path
                        [Lit filename] "direct" psf kw ;;
    (* Coron. *)
    call_take_exposures dm1_command_object dm2_command_object coron_exp_time
                        num_exposures camera_type true pipeline experiment_path
                        [Lit filename] "coron" centering kw ;;
    ret tt).

(** ["dm1_{}_dm2_{}".format(filename1, filename2)] *)
Definition pair_name (filename1 filename2 : string) : text :=
  [Lit "dm1_"; Lit filename1; Lit "_dm2_"; Lit filename2].

(** Lines 58-120, with every argument given; the items of a list are
    paths or command objects as its flag says. *)
Definition take_exposures_both_dm_commands
           (dm2_list_of_paths dm1_list_of_paths : bool)
           (dm2_command_list : list (command_item dm2_list_of_paths))
           (dm1_command_list : list (command_item dm1_list_of_paths))
           (path : Testbed.path) (exp_set_name : string)
           (coron_exp_time direct_exp_time : quantity)
           (dm2_flat_map dm1_flat_map : bool)
           (num_exposures : Z) (camera_type : string) (centering : ImageCentering)
  : M (St W) unit :=
  for_each dm1_command_list (fun command1 =>
    ' (dm1_command_object, filename1) <-
      (if dm1_list_of_paths as b
          return command_item b -> M (St W) (DmCommand * string)
       then fun command1 =>
              object <- load command1 false dm1_flat_map 1 true ;;
              ret (object, before_dot (basename command1))
       else fun command1 => ret (command1, "flats"%string)) command1 ;;
    for_each dm2_command_list (fun command2 =>
      ' (dm2_command_object, filename2) <-
        (if dm2_list_of_paths as b
            return command_item b -> M (St W) (DmCommand * string)
         then fun command2 =>
                object <- load command2 false dm2_flat_map 2 true ;;
                ret (object, before_dot (basename command2))
         else fun command2 => ret (command2, "flat"%string)) command2 ;;
      let experiment_path :=
        path_join (path_join path [Lit exp_set_name]) (pair_name filename1 filename2) in
      (* Direct. *)
      take_exposures tb dm1_command_object dm2_command_object direct_exp_time
                     num_exposures camera_type false true (Some experiment_path)
                     (pair_name filename1 filename2) (Some "direct"%string) None
                     (Some psf) [] ;;
      (* Coron. *)
      take_exposures tb dm1_command_object dm2_command_object coron_exp_time
                     num_exposures camera_type true true (Some experiment_path)
                     (pair_name filename1 filename2) (Some "coron"%string) None
                     (Some centering) [] ;;
      ret tt)).

(** What an item of a command list stands for: the name used for the
    folder, the command object (loaded in the world [w], or the item
    itself) and the events of getting it. *)
Definition item_name (list_of_paths : bool) (otherwise : string)
  : command_item list_of_paths -> string :=
  if list_of_paths as b return command_item b -> string
  then fun command => before_dot (basename command)
  else fun _ => otherwise.

Definition item_object (list_of_paths : bool) (flat_map : bool) (dm_num : Z) (w : W)
  : command_item list_of_paths -> DmCommand :=
  if list_of_paths as b return command_item b -> DmCommand
  then fun command => fst (load_dm_command_as w command false flat_map dm_num true)
  else fun command => command.

Definition item_events (list_of_paths : bool) (flat_map : bool)
  : command_item list_of_paths -> list event :=
  if list_of_paths as b return command_item b -> list event
  then fun command => [LoadDmCommand command false flat_map]
  else fun _ => [].

(** The events of one [take_exposures] into the folder [p]. *)
Definition exposure_events
           (dm1 dm2 : DmCommand) (exposure_time : quantity) (num_exposures : Z)
           (camera_type : string) (coronograph pipeline : bool)
           (p : Testbed.path) (filename : text) (set_name : string)
           (cen : option ImageCentering) (kw : kwargs) : list event :=
  [SetupHicatLogging p "take_exposures_data";
   LaserOpen;
   LaserSetCurrent (getint tb "thorlabs_source_mcls1"
                           (if coronograph then "coron_current" else "direct_current"));
   DmOpen;
   DmApplyShapeToBoth dm1 dm2;
   RunHicatImaging
     {| img_exposure_time := exposure_time;
        img_num_exposures := num_exposures;
        img_fpm_position := if coronograph then coron else direct;
        img_lyot_stop_position := None;
        img_centering := cen;
        img_path := p;
        img_auto_exposure_time := None;
        img_exposure_set_name := Some set_name;
        img_filename := filename;
        img_simulator := None;
        img_camera_type := Some camera_type;
        img_pipeline := Some pipeline;
        img_kwargs := kw |};
   DmClose;
   LaserClose].

(** The events of one pair of items in [take_exposures_both_dm_commands],
    with the DM1 command got in the world [w1] and the DM2 command in
    the world [w2]: getting the DM2 command, the direct set and the coron
    set. *)
Definition pair_events
           (dm2_list_of_paths dm1_list_of_paths : bool)
           (command2 : command_item dm2_list_of_paths)
           (command1 : command_item dm1_list_of_paths)
           (path : Testbed.path) (exp_set_name : string)
           (coron_exp_time direct_exp_time : quantity)
           (dm2_flat_map dm1_flat_map : bool)
           (num_exposures : Z) (camera_type : string) (centering : ImageCentering)
           (w1 w2 : W) : list event :=
  let dm1 := item_object dm1_list_of_paths dm1_flat_map 1 w1 command1 in
  let dm2 := item_object dm2_list_of_paths dm2_flat_map 2 w2 command2 in
  let name := pair_name (item_name dm1_list_of_paths "flats" command1)
                        (item_name dm2_list_of_paths "flat" command2) in
  let folder := path_join (path_join path [Lit exp_set_name]) name in
  item_events dm2_list_of_paths dm2_flat_map command2
    ++ exposure_events dm1 dm2 direct_exp_time num_exposures camera_type false true
                       folder name "direct" (Some psf) []
    ++ exposure_events dm1 dm2 coron_exp_time num_exposures camera_type true true
                       folder name "coron" (Some centering) [].

End Loops.

(** The steps of one [take_exposures] into a given folder. *)
Definition exposure_steps : list step :=
  [logging_set_up; laser_opened; current_set; dm_opened; both_shapes_applied;
   images_taken; dm_closed; laser_closed].

(** Where an image set goes and how it is taken. *)
Definition shot : Type :=
  (Testbed.path * text * FpmPosition * quantity * option ImageCentering)%type.

Definition shot_of (a : imaging) : shot :=
  (img_path a, img_filename a, img_fpm_position a, img_exposure_time a, img_centering a).

End DataSets.

(** ** coffee/CoffeeStrokeMin.py *)

Module CoffeeStrokeMin.
Import Testbed General DataSets.

(** [self.kwargs], read as the call of [take_coffee_data_set] reads it:
    the entries [camera_type] and [pipeline], for which that function has
    parameters of its own, when present, and the other entries in their
    order. *)
Record keywords : Type :=
  { kw_camera_type : option string;
    kw_pipeline : option bool;
    kw_others : Testbed.kwargs }.

Record attrs : Type :=
  { path : option Testbed.path;
    path_dm1_corr : option string;
    num_exposures : Z;
    coron_exp_time : quantity;
    direct_exp_time : quantity;
    centering : ImageCentering;
    kwargs : keywords }.

(** [CoffeeStrokeMin()] with every argument left to its default. *)
Definition defaults : attrs :=
  {| path := None; path_dm1_corr := None; num_exposures := 10;
     coron_exp_time := Quantity 100 millisecond;
     direct_exp_time := Quantity 1 millisecond;
     centering := custom_apodizer_spots;
     kwargs := {| kw_camera_type := None; kw_pipeline := None; kw_others := [] |} |}.

(** [CoffeeStrokeMin(camera_type="pupil_camera")] *)
Definition with_pupil_camera : attrs :=
  {| path := None; path_dm1_corr := None; num_exposures := 10;
     coron_exp_time := Quantity 100 millisecond;
     direct_exp_time := Quantity 1 millisecond;
     centering := custom_apodizer_spots;
     kwargs := {| kw_camera_type := Some "pupil_camera"%string; kw_pipeline := None;
                  kw_others := [] |} |}.

(** The keywords the call of [take_coffee_data_set] passes by name, and
    the parameters it binds by position. *)
Definition named : list string :=
  ["num_exposures"; "dm1_command_object"; "centering"]%string.

Definition positional : list string :=
  ["dm2_command_list"; "path"; "exp_set_name"; "coron_exp_time";
   "direct_exp_time"]%string.

(** Every name a key of [self.kwargs] must stay clear of on the way down
    to [take_exposures]. *)
Definition bound_names : list string :=
  named ++ positional ++ take_exposures_parameters.

(** [self.path = p] *)
Definition set_path (self : attrs) (p : option Testbed.path) : attrs :=
  {| path := p; path_dm1_corr := path_dm1_corr self;
     num_exposures := num_exposures self; coron_exp_time := coron_exp_time self;
     direct_exp_time := direct_exp_time self; centering := centering self;
     kwargs := kwargs self |}.

(** The experiment object and the testbed it runs on. *)
Record object (W : Type) : Type :=
  { self : attrs; bench : Testbed.state W }.

Section Experiment.

Variables W Image : Type.
Variable tb : testbed W Image.
Variables basename dirname : string -> string.
Variable load_dm_command_as : W -> string -> bool -> bool -> Z -> bool -> DmCommand * W.

(** [glob(pattern)] *)
Variable glob : W -> string -> list string * W.

(** [DmCommand.load_dm_command(file, flat_map=, dm_num=)], the other
    keywords left to their defaults. *)
Variable load_dm_command_for : W -> option string -> bool -> Z -> DmCommand * W.

(** A statement that leaves the attributes alone. *)
Definition on_bench {A} (c : M (Testbed.state W) A) : M (object W) A :=
  fun o => let '(r, b) := c (bench o) in (r, {| self := self o; bench := b |}).

(** A call the trace does not keep. *)
Definition unrecorded {A} (f : W -> A * W) : M (Testbed.state W) A :=
  fun s => let '(a, w) := f (world s) in (Ok a, {| world := w; trace := trace s |}).

(** [take_coffee_data_set(a1, ..., a5, num_exposures=, dm1_command_object=,
    centering=, **self.kwargs)]: a key that repeats a keyword or names a
    parameter bound by position is a [TypeError]; [camera_type] and
    [pipeline] are taken from [self.kwargs] when it has them and are
    ["imaging_camera"] and [True] otherwise; the other entries are the
    [**kwargs] of the function. *)
Definition call_take_coffee_data_set
           (dm2_command_list : list string) (p : Testbed.path) (exp_set_name : string)
           (coron_exp_time direct_exp_time : quantity) (num_exposures : Z)
           (dm1_command_object : DmCommand) (centering : ImageCentering)
           (kw : keywords) : M (Testbed.state W) unit :=
  match repeated named (kw_others kw) with
  | Some keyword => raise (TypeError keyword)
  | None =>
      match repeated positional (kw_others kw) with
      | Some keyword => raise (TypeError keyword)
      | None =>
          take_coffee_data_set tb basename dirname load_dm_command_as
            dm2_command_list p exp_set_name coron_exp_time direct_exp_time
            num_exposures dm1_command_object
            match kw_camera_type kw with
            | Some camera_type => camera_type
            | None => "imaging_camera"%string
            end
            centering
            match kw_pipeline kw with Some pipeline => pipeline | None => true end
            (kw_others kw)
      end
  end.

(** Lines 50-66; [p] is [self.path] after the [if]. *)
Definition experiment : M (object W) unit :=
  current <- gets (fun o => path (self o)) ;;
  p <- match current with
       | None =>
           let suffix := "coffee_strokemin"%string in
           created <- on_bench (called (fun w => create_data_path tb w suffix)
                                       (CreateDataPath suffix)) ;;
           modify (fun o => {| self := set_path (self o) (Some created);
                               bench := bench o |}) ;;
           on_bench (called_ (fun w => setup_hicat_logging tb w created "coffee_strokemin")
                             (SetupHicatLogging created "coffee_strokemin")) ;;
           ret created
       | Some p => ret p
       end ;;
  (* Focus Zernike commands. *)
  let focus_zernike_data_path :=
    "Z:/Testbeds/hicat_dev/data_vault/coffee/coffee_commands/focus/"%string in
  focus_zernike_command_paths <-
    on_bench (unrecorded (fun w => glob w (focus_zernike_data_path ++ "/*p2v/*.fits"))) ;;
  (* DM1 correction, DM2 focus loop. *)
  dm1_path <- gets (fun o => path_dm1_corr (self o)) ;;
  dm1_correction <-
    on_bench (unrecorded (fun w => load_dm_command_for w dm1_path true 1)) ;;
  me <- gets (fun o => self o) ;;
  on_bench (call_take_coffee_data_set
              focus_zernike_command_paths p "stroke_min" (coron_exp_time me)
              (direct_exp_time me) (num_exposures me) dm1_correction
              (centering me) (kwargs me)).

End Experiment.

(** The image set is saved somewhere under the folder [p]. *)
Definition under (p : Testbed.path) (a : imaging) : Prop :=
  firstn (List.length p) (img_path a) = p.

(** On paper: three focus commands in the vault, commands of two
    actuators, and a new experiment object asking for the pupil
    camera. *)
Definition vault (w : nat) (pattern : string) : list string * nat :=
  (["focus/10p2v/a.fits"; "focus/20p2v/b.fits"; "focus/30p2v/c.fits"]%string, S w).

Definition paper_load_as (w : nat) (file : string) (bias flat_map : bool) (dm_num : Z)
           (as_volts : bool) : DmCommand * nat :=
  ({| data := [0; 0]; attributes := [] |}, S w).

Definition paper_load_for (w : nat) (file : option string) (flat_map : bool) (dm_num : Z)
  : DmCommand * nat :=
  ({| data := [1; 1]; attributes := [] |}, S w).

Definition fresh : object nat :=
  {| self := with_pupil_camera; bench := Testbed.start 0 |}.

(** [CoffeeStrokeMin(exp_set_name="mine")] *)
Definition with_set_name : object nat :=
  {| self := {| path := None; path_dm1_corr := None; num_exposures := 10;
                coron_exp_time := Quantity 100 millisecond;
                direct_exp_time := Quantity 1 millisecond;
                centering := custom_apodizer_spots;
                kwargs := {| kw_camera_type := None; kw_pipeline := None;
                             kw_others := [("exp_set_name", "mine")]%string |} |};
     bench := Testbed.start 0 |}.

End CoffeeStrokeMin.

(** * Properties *)

(** ** The monad *)

Lemma bind_ok {S A B} (c : M S A) (k : A -> M S B) s a s1 :
  c s = (Ok a, s1) -> bind c k s = k a s1.
Proof. unfold bind; intros ->; reflexivity. Qed.

Lemma bind_raise {S A B} (c : M S A) (k : A -> M S B) s e s1 :
  c s = (Raise e, s1) -> bind c k s = (Raise e, s1).
Proof. unfold bind; intros ->; reflexivity. Qed.

Example range_counts_up : range 3 = [0; 1; 2]%Z /\ range (-2) = [] /\ range3 0 10 3 = [0; 3; 6; 9]%Z.
Proof. repeat split. Qed.

Example modf_keeps_the_sign :
  math_modf (5 # 2) = (1 # 2, 2) /\ math_modf (- 5 # 2) = (- 1 # 2, - 2) /\ int (- 7 # 2) = (- 3)%Z.
Proof. repeat split. Qed.

Example index_from_the_end :
  index [10; 20; 30] (-1) = Ok 30 /\ index [10; 20; 30] 3 = Raise IndexError.
Proof. repeat split. Qed.

(** ** The stage driver *)

Section StageFacts.

Import Stage.

Variable D : Type.
Variable lib : ximc D.
Variable self : attrs.

Let ok := Result_Ok lib.

Lemma is_ok_true code : is_ok lib code = true <-> code = ok.
Proof. unfold is_ok; apply Z.eqb_eq. Qed.

Lemma is_ok_false code : is_ok lib code = false <-> code <> ok.
Proof. unfold is_ok; apply Z.eqb_neq. Qed.

(** One poll of [is_moving]. *)
Lemma is_moving_run s :
  let '(code, out, d) := lib_get_status lib (dev s) new_status_t in
  is_moving lib s =
    (if is_ok lib code then Ok (MvCmdSts out =? 129)%Z
     else Raise (RuntimeError "get_status() failed"),
     record (Vendor (get_status out) code) d s).
Proof.
  unfold is_moving, bind, call_ref.
  destruct (lib_get_status lib (dev s) new_status_t) as [[code out] d].
  destruct (is_ok lib code); reflexivity.
Qed.

Lemma poll_loop_step n bs (f : M (state D) bool) timeout interval elapsed s :
  poll_loop (S n) bs f timeout interval elapsed s =
    match f s with
    | (Ok status, s1) =>
        if existsb (Bool.eqb status) bs then (Ok status, s1)
        else if (timeout <=? elapsed + interval)%Z
             then (Raise TimeoutError, record (Sleep interval) (dev s1) s1)
             else poll_loop n bs f timeout interval (elapsed + interval)
                            (record (Sleep interval) (dev s1) s1)
    | (Raise e, s1) => (Raise e, s1)
    end.
Proof.
  cbn [poll_loop]. unfold bind at 1.
  destruct (f s) as [[status|e] s1]; [|reflexivity].
  destruct (existsb (Bool.eqb status) bs); [reflexivity|].
  unfold bind, time_sleep, modify.
  destruct (timeout <=? elapsed + interval)%Z; reflexivity.
Qed.

(** The polling loop of [await_stop], one second between polls, with
    [n] seconds left before the timeout. *)
Lemma poll_loop_shape n : forall timeout elapsed s r s',
  timeout = (elapsed + Z.of_nat n)%Z ->
  poll_loop n [false] (is_moving lib) timeout 1 elapsed s = (r, s') ->
  exists outs final,
    Forall (fun o => MvCmdSts o = 129%Z) outs /\
    trace s' = trace s ++ polling ok 1 outs ++ final /\
    ((exists o, final = [Vendor (get_status o) ok] /\ MvCmdSts o <> 129%Z /\
                r = Ok false /\ (List.length outs < n)%nat)
     \/ (exists o code, final = [Vendor (get_status o) code] /\ code <> ok /\
                        r = Raise (RuntimeError "get_status() failed") /\
                        (List.length outs < n)%nat)
     \/ (final = [] /\ r = Raise TimeoutError /\ List.length outs = n)).
Proof.
  induction n as [|n IH]; intros timeout elapsed s r s' Ht E.
  - injection E as <- <-.
    exists [], []. simpl. rewrite app_nil_r. auto 10.
  - rewrite poll_loop_step in E.
    pose proof (is_moving_run s) as Hm.
    destruct (lib_get_status lib (dev s) new_status_t) as [[code out] d].
    rewrite Hm in E; clear Hm.
    destruct (is_ok lib code) eqn:Hc.
    + apply is_ok_true in Hc; subst code.
      destruct (Z.eqb_spec (MvCmdSts out) 129) as [Hmv|Hmv].
      * cbn [existsb Bool.eqb orb] in E.
        destruct (Z.leb_spec timeout (elapsed + 1)) as [Hle|Hgt].
        -- injection E as <- <-.
           assert (n = 0%nat) by lia; subst n.
           exists [out], []. simpl. rewrite <- app_assoc. simpl.
           split; [auto|]. split; [reflexivity|]. right; right. auto.
        -- apply IH in E; [|lia].
           destruct E as (outs & final & Hall & Htr & Hcase).
           exists (out :: outs), final.
           split; [constructor; assumption|].
           split.
           { rewrite Htr. simpl. rewrite <- !app_assoc. reflexivity. }
           simpl List.length.
           destruct Hcase as [(o & ? & ? & ? & ?)|[(o & c & ? & ? & ? & ?)|(? & ? & ?)]].
           ++ left. exists o. repeat split; auto; lia.
           ++ right; left. exists o, c. repeat split; auto; lia.
           ++ right; right. repeat split; auto.
      * cbn [existsb Bool.eqb orb] in E. injection E as <- <-.
        exists [], [Vendor (get_status out) ok]. simpl.
        split; [constructor|]. split; [reflexivity|].
        left. exists out. repeat split; auto; lia.
    + apply is_ok_false in Hc. injection E as <- <-.
      exists [], [Vendor (get_status out) code]. simpl.
      split; [constructor|]. split; [reflexivity|].
      right; left. exists out, code. repeat split; auto; lia.
Qed.

Lemma goto_steps_run position wait s :
  let pos := int (snd (math_modf position)) in
  let u_pos := int (fst (math_modf position) * 256) in
  let '(code, d) := lib_command_move lib (dev s) pos u_pos in
  let s1 := record (Vendor (command_move pos u_pos) code) d s in
  goto_steps lib position wait s =
    if is_ok lib code
    then if wait then bind (await_stop lib None None) (fun _ => ret tt) s1
         else (Ok tt, s1)
    else (Raise (RuntimeError "command_move() failed"), s1).
Proof.
  unfold goto_steps, math_modf. cbv zeta. cbn [fst snd].
  unfold bind at 1, call0.
  destruct (lib_command_move lib (dev s) _ _) as [code d].
  destruct (is_ok lib code); [destruct wait|]; reflexivity.
Qed.

Lemma count_moves_app a b : count_moves (a ++ b) = (count_moves a + count_moves b)%nat.
Proof. unfold count_moves. rewrite filter_app, length_app. reflexivity. Qed.

Lemma count_moves_polling outs : count_moves (polling ok 1 outs) = 0%nat.
Proof. induction outs as [|o outs IH]; [reflexivity|exact IH]. Qed.

(** [goto_steps] after a move command that succeeded, waiting. *)
Lemma await_after_move s1 r s2 :
  bind (await_stop lib None None) (fun _ => ret tt) s1 = (r, s2) ->
  exists outs final,
    Forall (fun o => MvCmdSts o = 129%Z) outs /\
    trace s2 = trace s1 ++ polling ok 1 outs ++ final /\
    ((exists o, final = [Vendor (get_status o) ok] /\ MvCmdSts o <> 129%Z /\
                r = Ok tt /\ (List.length outs < 600)%nat)
     \/ (exists o code, final = [Vendor (get_status o) code] /\ code <> ok /\
                        r = Raise (RuntimeError "get_status() failed") /\
                        (List.length outs < 600)%nat)
     \/ (final = [] /\ r = Raise TimeoutError /\ List.length outs = 600%nat)).
Proof.
  unfold bind, await_stop, poll_status.
  change (Z.to_nat (10 * 60)) with 600%nat.
  destruct (poll_loop 600 [false] (is_moving lib) (10 * 60) 1 0 s1) as [r0 s0] eqn:E.
  apply poll_loop_shape in E; [|reflexivity].
  destruct E as (outs & final & Hall & Htr & Hcase).
  intros H. exists outs, final.
  destruct Hcase as [(o & ? & ? & ? & ?)|[(o & c & ? & ? & ? & ?)|(? & ? & ?)]];
    subst r0; injection H as <- <-; (split; [assumption|]); (split; [assumption|]).
  - left. exists o. auto.
  - right; left. exists o, c. auto.
  - right; right. auto.
Qed.

(** Tactic for the operations that make their vendor calls one after
    the other: name the codes, split on each, and give the calls made. *)
Ltac split_code code :=
  let H := fresh "Hcode" in
  unfold is_ok; destruct (Z.eqb_spec code (Result_Ok lib)) as [H|H];
  [subst code|]; cbn [negb].

Ltac give_calls evs :=
  exists evs; unfold raise, ret;
  cbn [fst snd trace record raised expected_error stops_at_failure app];
  repeat rewrite Z.eqb_refl;
  repeat match goal with
         | H : ?c <> Result_Ok lib |- _ =>
             let E := fresh in
             assert (E : (c =? Result_Ok lib)%Z = false) by (apply Z.eqb_neq; exact H);
             rewrite E; clear H
         end;
  repeat split;
  solve [discriminate | reflexivity | rewrite <- ?app_assoc; reflexivity].

Lemma stop_translates : translates_codes lib (stop lib).
Proof.
  intros s. unfold stop, bind, call0.
  destruct (lib_command_sstp lib (dev s)) as [code d].
  split_code code.
  - give_calls [Vendor command_sstp (Result_Ok lib)].
  - give_calls [Vendor command_sstp code].
Qed.

Lemma is_moving_translates : translates_codes lib (is_moving lib).
Proof.
  intros s. unfold is_moving, bind, call_ref.
  destruct (lib_get_status lib (dev s) new_status_t) as [[code out] d].
  split_code code.
  - give_calls [Vendor (get_status out) (Result_Ok lib)].
  - give_calls [Vendor (get_status out) code].
Qed.

Lemma get_enc_position_translates : translates_codes lib (get_enc_position lib).
Proof.
  intros s. unfold get_enc_position, bind, call_ref.
  destruct (lib_get_position lib (dev s) new_get_position_t) as [[code out] d].
  split_code code.
  - give_calls [Vendor (get_position_call out) (Result_Ok lib)].
  - give_calls [Vendor (get_position_call out) code].
Qed.

Lemma get_step_position_translates : translates_codes lib (get_step_position lib).
Proof.
  intros s. unfold get_step_position, bind, call_ref.
  destruct (lib_get_position lib (dev s) new_get_position_t) as [[code out] d].
  split_code code.
  - give_calls [Vendor (get_position_call out) (Result_Ok lib)].
  - give_calls [Vendor (get_position_call out) code].
Qed.

Lemma get_speed_translates : translates_codes lib (get_speed lib).
Proof.
  intros s. unfold get_speed, bind, call_ref.
  destruct (lib_get_move_settings lib (dev s) new_move_settings_t) as [[code out] d].
  split_code code.
  - give_calls [Vendor (get_move_settings out) (Result_Ok lib)].
  - give_calls [Vendor (get_move_settings out) code].
Qed.

Lemma set_speed_translates speed : translates_codes lib (set_speed lib speed).
Proof.
  intros s. unfold set_speed, math_modf, bind, call_ref, call0. cbv zeta.
  destruct (lib_get_move_settings lib (dev s) new_move_settings_t) as [[c1 out] d1].
  split_code c1.
  - cbn [dev record].
    match goal with
    | |- context [lib_set_move_settings lib d1 ?m] =>
        set (mvst := m); destruct (lib_set_move_settings lib d1 mvst) as [c2 d2]
    end.
    split_code c2.
    + give_calls [Vendor (get_move_settings out) (Result_Ok lib);
                  Vendor (set_move_settings mvst) (Result_Ok lib)].
    + give_calls [Vendor (get_move_settings out) (Result_Ok lib);
                  Vendor (set_move_settings mvst) c2].
  - give_calls [Vendor (get_move_settings out) c1].
Qed.

Lemma home_translates : translates_codes lib (home lib self).
Proof.
  intros s. unfold home, get_home_settings, set_home_settings, bind, call_ref, call0.
  destruct (lib_get_home_settings lib (dev s) new_home_settings_t) as [[c1 out] d1].
  split_code c1.
  - cbv beta iota zeta delta [ret raise dev record].
    match goal with
    | |- context [lib_set_home_settings lib d1 ?h] =>
        set (hmst := h); destruct (lib_set_home_settings lib d1 hmst) as [c2 d2]
    end.
    split_code c2.
    + cbv beta iota zeta delta [ret raise dev record].
      destruct (lib_command_homezero lib d2) as [c3 d3].
      split_code c3.
      * give_calls [Vendor (get_home_settings_call out) (Result_Ok lib);
                    Vendor (set_home_settings_call hmst) (Result_Ok lib);
                    Vendor command_homezero (Result_Ok lib)].
      * give_calls [Vendor (get_home_settings_call out) (Result_Ok lib);
                    Vendor (set_home_settings_call hmst) (Result_Ok lib);
                    Vendor command_homezero c3].
    + give_calls [Vendor (get_home_settings_call out) (Result_Ok lib);
                  Vendor (set_home_settings_call hmst) c2].
  - give_calls [Vendor (get_home_settings_call out) c1].
Qed.

(** *** Waiting *)

(** C7: [goto_steps] after a move command that succeeded.  With
    [wait=False] nothing follows the move command.  With [wait=True]
    the driver polls [get_status] once a second: every poll but the
    last reads "moving" (129) and is followed by a sleep of one second;
    the wait ends with the first poll that reads something else, with a
    poll that fails, or, after 600 polls and 600 seconds, with a
    timeout. *)
Theorem goto_steps_waits_by_polling position s :
  let pos := int (snd (math_modf position)) in
  let u_pos := int (fst (math_modf position) * 256) in
  fst (lib_command_move lib (dev s) pos u_pos) = Result_Ok lib ->
  (goto_steps lib position false s =
     (Ok tt, record (Vendor (command_move pos u_pos) (Result_Ok lib))
                    (snd (lib_command_move lib (dev s) pos u_pos)) s))
  /\ exists outs final,
      Forall (fun o => MvCmdSts o = 129%Z) outs /\
      trace (snd (goto_steps lib position true s)) =
        trace s ++ [Vendor (command_move pos u_pos) (Result_Ok lib)]
                ++ polling (Result_Ok lib) 1 outs ++ final /\
      ((exists o, final = [Vendor (get_status o) (Result_Ok lib)] /\
                  MvCmdSts o <> 129%Z /\
                  fst (goto_steps lib position true s) = Ok tt /\
                  (List.length outs < 600)%nat)
       \/ (exists o code, final = [Vendor (get_status o) code] /\
                          code <> Result_Ok lib /\
                          fst (goto_steps lib position true s)
                            = Raise (RuntimeError "get_status() failed") /\
                          (List.length outs < 600)%nat)
       \/ (final = [] /\
           fst (goto_steps lib position true s) = Raise TimeoutError /\
           List.length outs = 600%nat)).
Proof.
  intros pos u_pos Hok.
  pose proof (goto_steps_run position false s) as Hf.
  pose proof (goto_steps_run position true s) as Ht.
  cbv zeta in Hf, Ht. fold pos u_pos in Hf, Ht.
  destruct (lib_command_move lib (dev s) pos u_pos) as [code d].
  cbn [fst snd] in *. subst code.
  assert (Hio : is_ok lib (Result_Ok lib) = true) by (apply is_ok_true; reflexivity).
  rewrite Hio in Hf, Ht. split; [exact Hf|].
  rewrite Ht.
  destruct (bind (await_stop lib None None) (fun _ => ret tt) _) as [r s2] eqn:E.
  apply await_after_move in E.
  destruct E as (outs & final & Hall & Htr & Hcase).
  exists outs, final. cbn [fst snd].
  split; [assumption|]. split; [|assumption].
  rewrite Htr. cbn [trace record]. rewrite <- !app_assoc. reflexivity.
Qed.

(** *** Errors *)

(** C4: [goto_steps] raises [RuntimeError("command_move() failed")]
    exactly when [command_move] returns a code other than [Result.Ok],
    and it issues the move command once, whatever the code.  [home],
    [set_speed], [get_speed], [is_moving], [get_step_position],
    [get_enc_position] and [stop] raise the fixed message of the first
    vendor call that returns another code than [Result.Ok], stop there,
    and return when every call returns [Result.Ok]. *)
Theorem stage_errors_follow_vendor_codes :
  (forall position wait s,
      let pos := int (snd (math_modf position)) in
      let u_pos := int (fst (math_modf position) * 256) in
      (fst (goto_steps lib position wait s)
         = Raise (RuntimeError "command_move() failed")
       <-> fst (lib_command_move lib (dev s) pos u_pos) <> Result_Ok lib)
      /\ count_moves (trace (snd (goto_steps lib position wait s)))
         = S (count_moves (trace s)))
  /\ translates_codes lib (home lib self)
  /\ (forall speed, translates_codes lib (set_speed lib speed))
  /\ translates_codes lib (get_speed lib)
  /\ translates_codes lib (is_moving lib)
  /\ translates_codes lib (get_step_position lib)
  /\ translates_codes lib (get_enc_position lib)
  /\ translates_codes lib (stop lib).
Proof.
  split; [|auto 10 using home_translates, set_speed_translates, get_speed_translates,
             is_moving_translates, get_step_position_translates,
             get_enc_position_translates, stop_translates].
  intros position wait s pos u_pos.
  pose proof (goto_steps_run position wait s) as H.
  cbv zeta in H. fold pos u_pos in H.
  destruct (lib_command_move lib (dev s) pos u_pos) as [code d].
  cbn [fst snd]. rewrite H; clear H.
  destruct (is_ok lib code) eqn:Hc.
  - apply is_ok_true in Hc. subst code.
    destruct wait.
    + destruct (bind (await_stop lib None None) (fun _ => ret tt) _) as [r s2] eqn:E.
      apply await_after_move in E.
      destruct E as (outs & final & _ & Htr & Hcase).
      cbn [fst snd]. split.
      * split; [|intros Hne; exfalso; apply Hne; reflexivity].
        intros ->.
        destruct Hcase as [(o & _ & _ & Hr & _)|[(o & c & _ & _ & Hr & _)|(_ & Hr & _)]];
          discriminate Hr.
      * rewrite Htr. cbn [trace record].
        rewrite !count_moves_app, count_moves_polling.
        destruct Hcase as [(o & -> & _)|[(o & c & -> & _)|(-> & _)]];
          cbn; lia.
    + cbn [fst snd trace record]. split.
      * split; [discriminate|intros Hne; exfalso; apply Hne; reflexivity].
      * rewrite count_moves_app. cbn. lia.
  - apply is_ok_false in Hc. cbn [fst snd trace record]. split.
    + split; [intros _; exact Hc|reflexivity].
    + rewrite count_moves_app. cbn. lia.
Qed.

(** *** Units *)

Lemma log_blind_ret A (a : A) : log_blind (D:=D) (ret a).
Proof. intros s l; reflexivity. Qed.

Lemma log_blind_raise A e : log_blind (D:=D) (A:=A) (raise e).
Proof. intros s l; reflexivity. Qed.

Lemma log_blind_bind A B (c : M (state D) A) (k : A -> M (state D) B) :
  log_blind c -> (forall a, log_blind (k a)) -> log_blind (bind c k).
Proof.
  intros Hc Hk s l. unfold bind. rewrite Hc.
  destruct (c s) as [[a|e] s1]; cbn [fst snd]; [apply Hk|reflexivity].
Qed.

Lemma log_blind_call0 c f : log_blind (call0 (D:=D) c f).
Proof.
  intros s l. unfold call0. cbn [dev with_log].
  destruct (f (dev s)) as [code d]. reflexivity.
Qed.

Lemma log_blind_call_ref T (c : T -> call) f : log_blind (call_ref (D:=D) c f).
Proof.
  intros s l. unfold call_ref. cbn [dev with_log].
  destruct (f (dev s)) as [[code out] d]. reflexivity.
Qed.

Lemma log_blind_is_moving : log_blind (is_moving lib).
Proof.
  apply log_blind_bind; [apply log_blind_call_ref|].
  intros [code out]. destruct (negb (is_ok lib code));
    [apply log_blind_raise|apply log_blind_ret].
Qed.

Lemma log_blind_poll_loop n : forall timeout interval elapsed,
  log_blind (poll_loop n [false] (is_moving lib) timeout interval elapsed).
Proof.
  induction n as [|n IH]; intros timeout interval elapsed.
  - apply log_blind_raise.
  - cbn [poll_loop]. apply log_blind_bind; [apply log_blind_is_moving|].
    intros status. destruct (existsb (Bool.eqb status) [false]);
      [apply log_blind_ret|].
    apply log_blind_bind; [intros s l; reflexivity|].
    intros _. destruct (timeout <=? elapsed + interval)%Z;
      [apply log_blind_raise|apply IH].
Qed.

Lemma log_blind_goto_steps position wait : log_blind (goto_steps lib position wait).
Proof.
  unfold goto_steps, math_modf. cbv zeta.
  apply log_blind_bind; [apply log_blind_call0|].
  intros code. destruct (negb (is_ok lib code)); [apply log_blind_raise|].
  destruct wait; [|apply log_blind_ret].
  apply log_blind_bind; [|intros; apply log_blind_ret].
  apply log_blind_poll_loop.
Qed.

(** C9: [goto_real(p)] is [goto_steps(p / conversionFactor)] with one
    line added to the log, and [offset_real(d)] is
    [offset_steps(d / conversionFactor)]; a zero factor makes the
    division raise before anything is done.  [absolute_move] and
    [relative_move] call the steps function for [Unit.STEPS], the real
    one for [Unit.REAL] and raise [NotImplementedError] for anything
    else.  [get_position] returns
    [conversionFactor * get_enc_position()]. *)
Theorem real_units_are_scaled_steps :
  (forall p wait s,
      goto_real lib self p wait s =
        if Qeq_bool (conversionFactor self) 0
        then (Raise ZeroDivisionError, s)
        else
          let steps := Qred (p / conversionFactor self) in
          let run := goto_steps lib steps wait s in
          (fst run, with_log (snd run) (log s ++ [[Lit "goto_steps: "; Num steps]])))
  /\ (forall d wait s,
      offset_real lib self d wait s =
        if Qeq_bool (conversionFactor self) 0
        then (Raise ZeroDivisionError, s)
        else offset_steps lib (Qred (d / conversionFactor self)) wait s)
  /\ (forall p wait,
      absolute_move lib self p wait (Member STEPS) = goto_steps lib p wait /\
      absolute_move lib self p wait (Member REAL) = goto_real lib self p wait /\
      forall other s, absolute_move lib self p wait (OtherValue other) s
                      = (Raise NotImplementedError, s))
  /\ (forall d wait,
      relative_move lib self d wait (Member STEPS) = offset_steps lib d wait /\
      relative_move lib self d wait (Member REAL) = offset_real lib self d wait /\
      forall other s, relative_move lib self d wait (OtherValue other) s
                      = (Raise NotImplementedError, s))
  /\ (forall s,
      get_position lib self s =
        match get_enc_position lib s with
        | (Ok enc, s') => (Ok (conversionFactor self * inject_Z enc)%Q, s')
        | (Raise e, s') => (Raise e, s')
        end).
Proof.
  split; [|split; [|split; [|split]]].
  - intros p wait s. unfold goto_real, truediv, lift_result.
    destruct (Qeq_bool (conversionFactor self) 0); [reflexivity|].
    unfold bind at 1. unfold bind at 1, log_info, modify. cbv zeta.
    set (x := Qred (p / conversionFactor self)).
    change {| dev := dev s; trace := trace s; log := log s ++ [[Lit "goto_steps: "; Num x]] |}
      with (with_log s (log s ++ [[Lit "goto_steps: "; Num x]])).
    apply log_blind_goto_steps.
  - intros d wait s. unfold offset_real, truediv, lift_result.
    destruct (Qeq_bool (conversionFactor self) 0); reflexivity.
  - intros p wait. repeat split.
  - intros d wait. repeat split.
  - intros s. unfold get_position, bind.
    destruct (get_enc_position lib s) as [[enc|e] s']; reflexivity.
Qed.

End StageFacts.

(** The countdown stage, asked to go to 2.5 steps and to wait, while it
    keeps moving for three polls. *)
Lemma goto_steps_waits_by_polling_witness :
  fst (Stage.lib_command_move Stage.countdown 3%nat 2 128) = 0%Z /\
  exists outs final,
    Forall (fun o => Stage.MvCmdSts o = 129%Z) outs /\
    Stage.trace (snd (Stage.goto_steps Stage.countdown (5 # 2) true (Stage.at_rest 3))) =
      [] ++ [Stage.Vendor (Stage.command_move 2 128) 0]
         ++ Stage.polling 0 1 outs ++ final /\
    ((exists o, final = [Stage.Vendor (Stage.get_status o) 0] /\
                Stage.MvCmdSts o <> 129%Z /\
                fst (Stage.goto_steps Stage.countdown (5 # 2) true (Stage.at_rest 3)) = Ok tt /\
                (List.length outs < 600)%nat)
     \/ (exists o code, final = [Stage.Vendor (Stage.get_status o) code] /\
                        code <> 0%Z /\
                        fst (Stage.goto_steps Stage.countdown (5 # 2) true (Stage.at_rest 3))
                          = Raise (RuntimeError "get_status() failed") /\
                        (List.length outs < 600)%nat)
     \/ (final = [] /\
         fst (Stage.goto_steps Stage.countdown (5 # 2) true (Stage.at_rest 3))
           = Raise TimeoutError /\
         List.length outs = 600%nat)).
Proof.
  split; [reflexivity|].
  apply (goto_steps_waits_by_polling Stage.countdown (5 # 2) (Stage.at_rest 3)).
  reflexivity.
Defined.

(** A stage that stops after two polls, and one that never stops. *)
Example countdown_from_two :
  Stage.goto_steps Stage.countdown (5 # 2) true (Stage.at_rest 2) =
    (Ok tt,
     {| Stage.dev := 0%nat;
        Stage.trace :=
          [Stage.Vendor (Stage.command_move 2 128) 0;
           Stage.Vendor (Stage.get_status {| Stage.MvCmdSts := 129; Stage.status_rest := [] |}) 0;
           Stage.Sleep 1;
           Stage.Vendor (Stage.get_status {| Stage.MvCmdSts := 129; Stage.status_rest := [] |}) 0;
           Stage.Sleep 1;
           Stage.Vendor (Stage.get_status {| Stage.MvCmdSts := 0; Stage.status_rest := [] |}) 0];
        Stage.log := [] |}).
Proof. vm_compute. reflexivity. Qed.

Example countdown_too_long :
  let run := Stage.goto_steps Stage.countdown (5 # 2) true (Stage.at_rest 1000) in
  fst run = Raise TimeoutError /\
  Stage.count_moves (Stage.trace (snd run)) = 1%nat /\
  List.length (Stage.trace (snd run)) = 1201%nat.
Proof. vm_compute. repeat split. Qed.

(** ** The laser source as a context manager *)

Section LaserSourceFacts.

Import LaserSource.

Variables W Handle Args : Type.
Variable initialize : object Handle -> Args -> W -> result Handle * object Handle * W.
Variable close : object Handle -> W -> result unit * object Handle * W.

(** C5: in [with LaserSource(config_id, ...) as laser: body], with an
    [initialize] and a [close] that return, the body starts with the
    connection opened and the handle stored; when it ends, by
    returning or by raising, [close] is called once, the handle is set
    to [None], and the body's value or exception is passed on. *)
Theorem with_laser_source_closes A (cid : string) (args : Args)
        (body : M (state W Handle) A) s h o1 w1 o3 w3 :
  initialize {| config_id := cid; laser := laser (self s) |} args (world s)
    = (Ok h, o1, w1) ->
  let s1 := {| world := w1;
               self := {| config_id := config_id o1; laser := Some h |};
               stdout := stdout s ++ ["Opened connection to laser source " ++ cid]%string;
               trace := trace s ++ [Initialize] |} in
  let s2 := snd (body s1) in
  close (self s2) (world s2) = (Ok tt, o3, w3) ->
  with_laser_source initialize close cid args body s =
    (fst (body s1),
     {| world := w3;
        self := {| config_id := config_id o3; laser := None |};
        stdout := stdout s2
                  ++ ["Safely closed connection to laser source " ++ config_id o3]%string;
        trace := trace s2 ++ [Close] |}).
Proof.
  intros Hinit s1 s2 Hclose.
  unfold with_laser_source, with_, __init__, __enter__.
  unfold bind at 1. unfold bind at 1. unfold set_config_id, modify.
  unfold bind at 1. unfold call_initialize. cbn [self world stdout trace].
  rewrite Hinit.
  unfold bind at 1. unfold set_laser, modify. cbn [self world stdout trace].
  unfold print, modify. cbn [self world stdout trace].
  unfold bind at 1. unfold ret at 1.
  fold s1.
  assert (Hexit : __exit__ close tt s2 =
            (Ok tt,
             {| world := w3;
                self := {| config_id := config_id o3; laser := None |};
                stdout := stdout s2
                  ++ ["Safely closed connection to laser source " ++ config_id o3]%string;
                trace := trace s2 ++ [Close] |})).
  { unfold __exit__, bind, call_close. rewrite Hclose. reflexivity. }
  subst s2.
  destruct (body s1) as [[a|e] s2']; cbn [fst snd] in *; rewrite Hexit; reflexivity.
Qed.

End LaserSourceFacts.

(** A body that raises, around a laser that counts its connections: the
    exception comes out, one connection was opened and one closed. *)
Lemma with_laser_source_closes_witness :
  LaserSource.with_laser_source LaserSource.counting_initialize LaserSource.counting_close
      "mcls1" tt LaserSource.failing_body LaserSource.fresh
  = (Raise (RuntimeError "body failed"),
     {| LaserSource.world := (1%nat, 1%nat);
        LaserSource.self := {| LaserSource.config_id := "mcls1"; LaserSource.laser := None |};
        LaserSource.stdout := ["Opened connection to laser source mcls1";
                               "Safely closed connection to laser source mcls1"]%string;
        LaserSource.trace := [LaserSource.Initialize; LaserSource.Close] |}).
Proof.
  apply (@with_laser_source_closes (nat * nat) nat unit
           LaserSource.counting_initialize LaserSource.counting_close
           unit "mcls1" tt LaserSource.failing_body LaserSource.fresh
           0%nat {| LaserSource.config_id := "mcls1"; LaserSource.laser := None |}
           (1%nat, 0%nat)
           {| LaserSource.config_id := "mcls1"; LaserSource.laser := Some 0%nat |}
           (1%nat, 1%nat)); reflexivity.
Defined.

(** ** Taking exposures *)

Section GeneralFacts.

Import Testbed General.

Variables W Image : Type.
Variable tb : testbed W Image.

(** C6: what [take_exposures] does to the testbed, in order: (the data
    path is created if none was given, logging is set up,) the laser is
    opened and its current set to [coron_current] or [direct_current]
    by [coronograph], the DM controller is opened and both shapes are
    applied, the images are taken and saved to the path, and only then
    the DM controller and the laser are closed. *)
Theorem take_exposures_order
        dm1 dm2 exposure n camera (coronograph pipeline : bool)
        (p : option path) name set_name suffix cen kw (s : state W) :
  exists before where_ args image,
    let current :=
      getint tb "thorlabs_source_mcls1"
             (if coronograph then "coron_current" else "direct_current") in
    fst (take_exposures tb dm1 dm2 exposure n camera coronograph pipeline
                        p name set_name suffix cen kw s) = Ok image /\
    trace (snd (take_exposures tb dm1 dm2 exposure n camera coronograph pipeline
                               p name set_name suffix cen kw s)) =
      trace s ++ before
              ++ [LaserOpen; LaserSetCurrent current; DmOpen; DmApplyShapeToBoth dm1 dm2]
              ++ [RunHicatImaging args]
              ++ [DmClose; LaserClose] /\
    (before = [SetupHicatLogging where_ "take_exposures_data"] /\ p = Some where_
     \/ exists sfx, before = [CreateDataPath sfx where_;
                              SetupHicatLogging where_ "take_exposures_data"] /\ p = None) /\
    img_path args = where_ /\
    img_fpm_position args = (if coronograph then coron else direct) /\
    laser_is_open false
      (before ++ [LaserOpen; LaserSetCurrent current; DmOpen; DmApplyShapeToBoth dm1 dm2])
      = true /\
    dm_is_open false
      (before ++ [LaserOpen; LaserSetCurrent current; DmOpen; DmApplyShapeToBoth dm1 dm2])
      = true.
Proof.
  destruct (take_exposures tb dm1 dm2 exposure n camera coronograph pipeline
                           p name set_name suffix cen kw s) as [r s'] eqn:E.
  cbn [fst snd].
  unfold take_exposures, with_laser_source, with_dm_controller, with_, imaging_call,
    apply_shape_to_both, set_current, called_, called, bind, ret in E.
  destruct p as [where_|].
  - destruct coronograph; cbn [world trace] in E;
      match type of E with
      | context [run_hicat_imaging tb ?w ?a] =>
          destruct (run_hicat_imaging tb w a) as [image w'];
          exists [SetupHicatLogging where_ "take_exposures_data"], where_, a, image
      end; injection E as <- <-; cbn [trace]; rewrite <- ?app_assoc;
      repeat split; auto.
  - destruct (create_data_path tb (world s) _) as [where_ w0] eqn:Ep.
    destruct coronograph; cbn [world trace] in E;
      match type of E with
      | context [run_hicat_imaging tb ?w ?a] =>
          destruct (run_hicat_imaging tb w a) as [image w'];
          match type of Ep with
          | create_data_path tb _ ?sfx = _ =>
              exists [CreateDataPath sfx where_;
                      SetupHicatLogging where_ "take_exposures_data"], where_, a, image
          end
      end; injection E as <- <-; cbn [trace]; rewrite <- ?app_assoc;
      (repeat split; auto); right; eexists; eauto.
Qed.

End GeneralFacts.

(** ** Speckle nulling *)

(** [repeated] finds nothing exactly when no key of [kw] is among
    [names]. *)
Lemma repeated_none names kw :
  Testbed.repeated names kw = None
  <-> forall item, In item kw -> ~ In (fst item) names.
Proof.
  unfold Testbed.repeated.
  destruct (find (fun item => existsb (String.eqb (fst item)) names) kw)
    as [found|] eqn:E; split.
  - discriminate.
  - intros H. apply find_some in E. destruct E as [Hin Hex].
    apply existsb_exists in Hex. destruct Hex as (k & Hk & Heq).
    apply String.eqb_eq in Heq. exfalso. apply (H found Hin). rewrite Heq. exact Hk.
  - intros _ item Hin Hk.
    pose proof (find_none _ _ E item Hin) as Hf. cbv beta in Hf.
    assert (existsb (String.eqb (fst item)) names = true) as Ht.
    { apply existsb_exists. exists (fst item). split; [exact Hk|apply String.eqb_refl]. }
    congruence.
  - reflexivity.
Qed.

Lemma repeated_fewer names names' kw :
  (forall k, In k names' -> In k names) ->
  Testbed.repeated names kw = None -> Testbed.repeated names' kw = None.
Proof.
  intros Hsub H. apply repeated_none. intros item Hin Hk.
  apply (proj1 (repeated_none names kw) H item Hin). apply Hsub. exact Hk.
Qed.

(** Only which names are listed matters, not their order. *)
Lemma repeated_same_names names names' kw :
  (forall k, In k names <-> In k names') ->
  Testbed.repeated names kw = Testbed.repeated names' kw.
Proof.
  intros Hsame. unfold Testbed.repeated.
  assert (Hex : forall key, existsb (String.eqb key) names
                            = existsb (String.eqb key) names').
  { intros key. apply Bool.eq_iff_eq_true. rewrite !existsb_exists.
    split; intros (x & Hx & Heq); exists x; (split; [apply Hsame; exact Hx|exact Heq]). }
  induction kw as [|item kw IH]; [reflexivity|].
  cbn [find]. rewrite Hex.
  destruct (existsb (String.eqb (fst item)) names'); [reflexivity|exact IH].
Qed.

(** A key of [kw] among [names] is found. *)
Lemma repeated_some names kw item :
  In item kw -> In (fst item) names -> exists k, Testbed.repeated names kw = Some k.
Proof.
  intros Hin Hk. destruct (Testbed.repeated names kw) as [k|] eqn:E; [eauto|].
  exfalso. exact (proj1 (repeated_none names kw) E item Hin Hk).
Qed.

Ltac names_among :=
  let k := fresh "k" in
  let H := fresh "H" in
  intros k H; unfold SpeckleNulling.imaging_keywords; cbn [In] in *; tauto.

Section SpeckleNullingFacts.

Import Testbed SpeckleNulling.

Variables W Image : Type.
Variable tb : testbed W Image.
Variable self : attrs.

(** With no keyword passed twice, the imaging call goes through. *)
Lemma imaging_call_fits names a s :
  (forall k, In k names -> In k imaging_keywords) ->
  repeated imaging_keywords (img_kwargs a) = None ->
  imaging_call_with tb names a s = imaging_call tb a s.
Proof.
  intros Hsub Hfit. unfold imaging_call_with.
  rewrite (@repeated_fewer imaging_keywords names (img_kwargs a) Hsub Hfit). reflexivity.
Qed.

(** A loop whose body always returns and leaves the events [ev x]. *)
Lemma for_each_events A (l : list A) (body : A -> M (state W) unit)
      (ev : A -> list event) :
  (forall x s, exists w, body x s = (Ok tt, {| world := w; trace := trace s ++ ev x |})) ->
  forall s, exists w,
    for_each l body s = (Ok tt, {| world := w; trace := trace s ++ List.flat_map ev l |}).
Proof.
  intros Hbody. induction l as [|x l IH]; intros s.
  - exists (world s). cbn. rewrite app_nil_r. destruct s; reflexivity.
  - destruct (Hbody x s) as [w1 H1].
    cbn [for_each]. rewrite (bind_ok _ _ _ H1).
    destruct (IH {| world := w1; trace := trace s ++ ev x |}) as [w2 H2].
    exists w2. rewrite H2. cbn [trace List.flat_map]. rewrite app_assoc. reflexivity.
Qed.

Lemma phase_list_values :
  phase_list = [0; 30; 60; 90; 120; 150; 180; 210; 240; 270; 300; 330]%Z.
Proof. reflexivity. Qed.

Lemma amplitude_coeff_list_values :
  amplitude_coeff_list = [1 # 10; 2 # 5; 7 # 10; 1; 13 # 10; 8 # 5; 19 # 10].
Proof. vm_compute. reflexivity. Qed.

Section OneIteration.

Variable base : Testbed.path.
Variables file_name exp_set_name : string.
Variable i : Z.

Lemma sweep_step_run names current exposure spec tag s :
  (forall k, In k names -> In k imaging_keywords) ->
  repeated imaging_keywords (kwargs self) = None ->
  exists w,
    (' (new_command, name) <-
       build_sin tb (One spec) (Some (bias self)) (Some (flat_map self))
                 (Some (data current)) ;;
     apply_shape tb new_command 1 ;;
     _ <- imaging_call_with tb names
            (imaging_args self exposure (path_join (iteration_path base i) tag)
                          exp_set_name (itr_name i name) (Some false)) ;;
     ret tt) s
    = (Ok tt, {| world := w;
                 trace := trace s ++ sweep_events tb self base exp_set_name i
                                                  current exposure spec tag |}).
Proof.
  intros Hsub Hfit.
  unfold sweep_events, build_sin, apply_shape, note, called_, called, bind, ret.
  cbn [world trace].
  destruct (sin_command tb (One spec) _ _ _) as [new_command name].
  cbn [fst snd world trace].
  rewrite imaging_call_fits; [|exact Hsub|exact Hfit].
  unfold imaging_call, called. cbn [world trace].
  match goal with
  | |- context [run_hicat_imaging tb ?w ?a] =>
      destruct (run_hicat_imaging tb w a) as [image w']
  end.
  exists w'. cbn [trace]. rewrite <- !app_assoc. reflexivity.
Qed.

Lemma phase_sweep_run current exposure nc ang ptv s :
  repeated imaging_keywords (kwargs self) = None ->
  exists w,
    phase_sweep tb self base exp_set_name i current exposure nc ang ptv s =
      (Ok tt,
       {| world := w;
          trace := trace s ++
            List.flat_map (fun phi =>
              sweep_events tb self base exp_set_name i current exposure
                {| angle := ang; ncycles := nc; peak_to_valley := ptv;
                   phase := inject_Z phi |}
                [Lit "phase"; Num (inject_Z phi)]) phase_list |}).
Proof.
  intros Hfit. unfold phase_sweep. apply for_each_events.
  intros phi s0. apply sweep_step_run; [names_among|exact Hfit].
Qed.

Lemma amplitude_sweep_run current exposure nc ang ptv new_phase s :
  repeated imaging_keywords (kwargs self) = None ->
  exists w,
    amplitude_sweep tb self base exp_set_name i current exposure nc ang ptv new_phase s =
      (Ok tt,
       {| world := w;
          trace := trace s ++
            List.flat_map (fun c =>
              sweep_events tb self base exp_set_name i current exposure
                {| angle := ang; ncycles := nc; peak_to_valley := scale ptv c;
                   phase := new_phase |}
                [Lit "amplitude"; Num c]) amplitude_coeff_list |}).
Proof.
  intros Hfit. unfold amplitude_sweep. apply for_each_events.
  intros c s0. apply sweep_step_run; [names_among|exact Hfit].
Qed.

(** One pass through the loop body, in full. *)
Lemma iteration_run l s :
  repeated imaging_keywords (kwargs self) = None ->
  let current := current_command_object l in
  let exposure :=
    fst (test_dark_zone_intensity tb (dm_apply_shape tb (world s) current 1)
           (auto_exposure_time l) 2 (fpm_position self) (lyot_stop_position self)
           (centering self)) in
  exists nc ang ptv new_phase new_amp w,
    let spec := {| angle := ang; ncycles := nc;
                   peak_to_valley := Quantity new_amp nanometer;
                   phase := new_phase |} in
    let correction := fst (sin_command tb (One spec) None None None) in
    iteration tb self base file_name exp_set_name i l s =
      (match np_iadd (data current) (data correction) with
       | Ok sum => Ok {| current_command_object := set_data current sum;
                         auto_exposure_time := exposure |}
       | Raise e => Raise e
       end,
       {| world := w;
          trace := trace s ++
            [DmApplyShape current 1;
             TestDarkZoneIntensity (auto_exposure_time l) 2 exposure;
             RunHicatImaging (imaging_args self exposure (iteration_path base i)
                                           exp_set_name (itr_name i file_name) None);
             SpeckleSensing (path_join (iteration_path base i) [Lit exp_set_name])
                            nc ang ptv]
            ++ List.flat_map (fun phi =>
                 sweep_events tb self base exp_set_name i current exposure
                   {| angle := ang; ncycles := nc; peak_to_valley := ptv;
                      phase := inject_Z phi |}
                   [Lit "phase"; Num (inject_Z phi)]) phase_list
            ++ [SpeckleControlPhase (iteration_path base i) exp_set_name new_phase]
            ++ List.flat_map (fun c =>
                 sweep_events tb self base exp_set_name i current exposure
                   {| angle := ang; ncycles := nc; peak_to_valley := scale ptv c;
                      phase := new_phase |}
                   [Lit "amplitude"; Num c]) amplitude_coeff_list
            ++ [SpeckleControlAmplitude (iteration_path base i) exp_set_name new_amp;
                SinCommand (One spec) None None None;
                AddToCommand correction] |}).
Proof.
  intros Hfit current exposure. subst exposure.
  unfold iteration. fold current.
  unfold apply_shape, build_sin, note, called_, called, ret, bind.
  cbv beta. cbn [world trace].
  destruct (test_dark_zone_intensity tb _ _ _ _ _ _) as [exposure w1].
  cbn [fst world trace].
  rewrite imaging_call_fits; [|names_among|exact Hfit].
  unfold imaging_call, called. cbn [world trace].
  destruct (run_hicat_imaging tb w1 _) as [image w2].
  cbn [world trace].
  destruct (speckle_sensing tb w2 _) as [[[nc ang] ptv] w3]. cbn [fst snd].
  match goal with
  | |- context [phase_sweep tb self base exp_set_name i current exposure nc ang ptv ?s0] =>
      destruct (phase_sweep_run current exposure nc ang ptv s0 Hfit) as [w4 H4];
      rewrite H4
  end.
  cbn [world trace].
  destruct (speckle_control_phase tb w4 _ _) as [new_phase w5].
  match goal with
  | |- context [amplitude_sweep tb self base exp_set_name i current exposure nc ang ptv
                                new_phase ?s0] =>
      destruct (amplitude_sweep_run current exposure nc ang ptv new_phase s0 Hfit)
        as [w6 H6];
      rewrite H6
  end.
  cbn [world trace].
  destruct (speckle_control_amplitude tb w6 _ _) as [new_amp w7].
  exists nc, ang, ptv, new_phase, new_amp, w7. cbv zeta.
  destruct (sin_command tb _ None None None) as [correction nm].
  cbv beta iota. cbn [fst snd world trace].
  destruct (np_iadd (data current) (data correction)) as [sum|e];
    rewrite <- !app_assoc; reflexivity.
Qed.

Lemma sweep_kinds A (f : A -> SinSpecification) (tag : A -> text)
      current exposure (l : list A) :
  map kind (List.flat_map (fun x => sweep_events tb self base exp_set_name i
                                      current exposure (f x) (tag x)) l)
  = List.concat (repeat [sine_built; shape_applied; images_taken] (List.length l)).
Proof.
  induction l as [|x l IH]; [reflexivity|].
  cbn [List.flat_map List.length repeat List.concat].
  rewrite map_app, IH. reflexivity.
Qed.

(** C1: the trace of one pass through the loop body, when [self.kwargs]
    names none of the keywords the imaging calls pass by name.  Between
    sensing and phase control lie exactly twelve sweep steps, for the
    phases 0, 30, ..., 330; between phase control and amplitude control
    exactly seven, for the peak-to-valley of the sensed speckle with its
    magnitude multiplied by 0.1, 0.4, ..., 1.9.  A sweep step builds a
    sine command on the current data, applies it and takes images once,
    with the exposure time the dark zone test of this pass returned. *)
Theorem iteration_sweeps l s :
  repeated imaging_keywords (kwargs self) = None ->
  exists nc ang ptv new_phase new_amp,
    let current := current_command_object l in
    let exposure :=
      fst (test_dark_zone_intensity tb (dm_apply_shape tb (world s) current 1)
             (auto_exposure_time l) 2 (fpm_position self) (lyot_stop_position self)
             (centering self)) in
    let spec := {| angle := ang; ncycles := nc;
                   peak_to_valley := Quantity new_amp nanometer;
                   phase := new_phase |} in
    let phase_step phi :=
      sweep_events tb self base exp_set_name i current exposure
        {| angle := ang; ncycles := nc; peak_to_valley := ptv;
           phase := inject_Z phi |}
        [Lit "phase"; Num (inject_Z phi)] in
    let amplitude_step c :=
      sweep_events tb self base exp_set_name i current exposure
        {| angle := ang; ncycles := nc;
           peak_to_valley := Quantity (Qred (magnitude ptv * c)) (unit_of ptv);
           phase := new_phase |}
        [Lit "amplitude"; Num c] in
    trace (snd (iteration tb self base file_name exp_set_name i l s)) =
      trace s ++
        [DmApplyShape current 1;
         TestDarkZoneIntensity (auto_exposure_time l) 2 exposure;
         RunHicatImaging (imaging_args self exposure (iteration_path base i)
                                       exp_set_name (itr_name i file_name) None);
         SpeckleSensing (path_join (iteration_path base i) [Lit exp_set_name])
                        nc ang ptv]
        ++ List.flat_map phase_step
             [0; 30; 60; 90; 120; 150; 180; 210; 240; 270; 300; 330]%Z
        ++ [SpeckleControlPhase (iteration_path base i) exp_set_name new_phase]
        ++ List.flat_map amplitude_step
             [1 # 10; 2 # 5; 7 # 10; 1; 13 # 10; 8 # 5; 19 # 10]
        ++ [SpeckleControlAmplitude (iteration_path base i) exp_set_name new_amp;
            SinCommand (One spec) None None None;
            AddToCommand (fst (sin_command tb (One spec) None None None))]
    /\ (forall phi, map kind (phase_step phi) = [sine_built; shape_applied; images_taken])
    /\ (forall c, map kind (amplitude_step c) = [sine_built; shape_applied; images_taken]).
Proof.
  intros Hfit.
  destruct (iteration_run l s Hfit) as (nc & ang & ptv & new_phase & new_amp & w & H).
  exists nc, ang, ptv, new_phase, new_amp.
  cbv zeta in *. rewrite H. cbn [snd trace].
  rewrite phase_list_values, amplitude_coeff_list_values.
  split; [reflexivity|]. split; intros; reflexivity.
Qed.

Lemma nth_of_sums (a b : list Q) k :
  List.length a = List.length b ->
  (k < List.length a)%nat ->
  nth k (map (fun p => (fst p + snd p)%Q) (combine a b)) 0
  = (nth k a 0 + nth k b 0)%Q.
Proof.
  intros Hlen Hk.
  change (0 : Q) with ((fun p : Q * Q => (fst p + snd p)%Q) (0, 0)) at 1.
  rewrite map_nth, combine_nth by exact Hlen. reflexivity.
Qed.

(** C2: with commands of one shape and no keyword passed twice, a pass
    through the loop body returns, and the command it hands on has the
    attributes of the current command and as data the element-wise sum
    of the current data and the data of one sine command, built from the
    angle and cycle count that sensing returned, the amplitude that
    amplitude control returned, in nanometres, and the phase that phase
    control returned; the exposure time it hands on is the one the dark
    zone test of this pass returned; the next pass starts from these. *)
Theorem correction_is_accumulated (later : list Z) l s :
  repeated imaging_keywords (kwargs self) = None ->
  (forall arg, List.length (data (fst (sin_command tb arg None None None)))
               = List.length (data (current_command_object l))) ->
  exists nc ang ptv new_phase new_amp between between' l' s',
    let current := current_command_object l in
    let exposure :=
      fst (test_dark_zone_intensity tb (dm_apply_shape tb (world s) current 1)
             (auto_exposure_time l) 2 (fpm_position self) (lyot_stop_position self)
             (centering self)) in
    let spec := {| angle := ang; ncycles := nc;
                   peak_to_valley := Quantity new_amp nanometer;
                   phase := new_phase |} in
    let correction := fst (sin_command tb (One spec) None None None) in
    iteration tb self base file_name exp_set_name i l s = (Ok l', s') /\
    data (current_command_object l') =
      map (fun p => (fst p + snd p)%Q) (combine (data current) (data correction)) /\
    List.length (data (current_command_object l')) = List.length (data current) /\
    (forall k, (k < List.length (data current))%nat ->
               nth k (data (current_command_object l')) 0
               = (nth k (data current) 0 + nth k (data correction) 0)%Q) /\
    attributes (current_command_object l') = attributes current /\
    auto_exposure_time l' = exposure /\
    trace s' =
      trace s
        ++ [DmApplyShape current 1;
            TestDarkZoneIntensity (auto_exposure_time l) 2 exposure;
            RunHicatImaging (imaging_args self exposure (iteration_path base i)
                                          exp_set_name (itr_name i file_name) None)]
        ++ [SpeckleSensing (path_join (iteration_path base i) [Lit exp_set_name])
                           nc ang ptv]
        ++ between
        ++ [SpeckleControlPhase (iteration_path base i) exp_set_name new_phase]
        ++ between'
        ++ [SpeckleControlAmplitude (iteration_path base i) exp_set_name new_amp;
            SinCommand (One spec) None None None;
            AddToCommand correction] /\
    for_fold (i :: later) (iteration tb self base file_name exp_set_name) l s =
      for_fold later (iteration tb self base file_name exp_set_name) l' s'.
Proof.
  intros Hfit Hshape.
  destruct (iteration_run l s Hfit) as (nc & ang & ptv & new_phase & new_amp & w & H).
  cbv zeta in H. unfold np_iadd in H. rewrite Hshape, Nat.eqb_refl in H.
  exists nc, ang, ptv, new_phase, new_amp.
  exists (List.flat_map (fun phi =>
            sweep_events tb self base exp_set_name i (current_command_object l)
              (fst (test_dark_zone_intensity tb
                      (dm_apply_shape tb (world s) (current_command_object l) 1)
                      (auto_exposure_time l) 2 (fpm_position self)
                      (lyot_stop_position self) (centering self)))
              {| angle := ang; ncycles := nc; peak_to_valley := ptv;
                 phase := inject_Z phi |}
              [Lit "phase"; Num (inject_Z phi)]) phase_list).
  exists (List.flat_map (fun c =>
            sweep_events tb self base exp_set_name i (current_command_object l)
              (fst (test_dark_zone_intensity tb
                      (dm_apply_shape tb (world s) (current_command_object l) 1)
                      (auto_exposure_time l) 2 (fpm_position self)
                      (lyot_stop_position self) (centering self)))
              {| angle := ang; ncycles := nc; peak_to_valley := scale ptv c;
                 phase := new_phase |}
              [Lit "amplitude"; Num c]) amplitude_coeff_list).
  eexists _, _. cbv zeta.
  split; [exact H|].
  cbn [current_command_object auto_exposure_time].
  split; [reflexivity|]. split.
  { cbn [set_data data]. rewrite length_map, length_combine, Hshape. apply Nat.min_id. }
  split.
  { intros k Hk. cbn [set_data data]. apply nth_of_sums; [|exact Hk].
    symmetry. apply Hshape. }
  split; [reflexivity|]. split; [reflexivity|]. split.
  - reflexivity.
  - cbn [for_fold]. apply bind_ok. exact H.
Qed.

Lemma sensed_at_app a b : sensed_at (a ++ b) = sensed_at a ++ sensed_at b.
Proof.
  induction a as [|e a IH]; [reflexivity|].
  destruct e; cbn [app sensed_at]; rewrite IH; reflexivity.
Qed.

Lemma sweep_not_sensing A (f : A -> SinSpecification) (tag : A -> text)
      current exposure (l : list A) :
  sensed_at (List.flat_map (fun x => sweep_events tb self base exp_set_name i
                                       current exposure (f x) (tag x)) l) = [].
Proof. induction l as [|x l IH]; [reflexivity|exact IH]. Qed.

(** One pass, for the loop: it returns when the shapes agree. *)
Lemma iteration_pass n l s :
  repeated imaging_keywords (kwargs self) = None ->
  dm_shaped tb n ->
  List.length (data (current_command_object l)) = n ->
  exists l' w evs,
    iteration tb self base file_name exp_set_name i l s
      = (Ok l', {| world := w; trace := trace s ++ evs |}) /\
    pass_from base exp_set_name l i evs l' /\
    List.length (data (current_command_object l')) = n.
Proof.
  intros Hfit (_ & Hsin & _) Hl.
  destruct (iteration_run l s Hfit) as (nc & ang & ptv & new_phase & new_amp & w & H).
  cbv zeta in H. unfold np_iadd in H. rewrite Hsin, Hl, Nat.eqb_refl in H.
  eexists _, w, _. split; [exact H|]. split.
  - unfold pass_from. cbn [current_command_object auto_exposure_time].
    eexists _, _, _, _.
    split; [cbn [app]; reflexivity|].
    split; [reflexivity|]. split; [reflexivity|]. split.
    { cbn [app sensed_at]. rewrite !sensed_at_app, !sweep_not_sensing. reflexivity. }
    split.
    { rewrite !map_app, !sweep_kinds.
      rewrite phase_list_values, amplitude_coeff_list_values. reflexivity. }
    split.
    { match goal with
      | |- ?a ++ ?b ++ ?c ++ ?d ++ [?x; ?y; ?z] = _ =>
          transitivity ((a ++ b ++ c ++ d ++ [x; y]) ++ [z]);
          [repeat rewrite <- app_assoc; reflexivity|reflexivity]
      end. }
    split; reflexivity.
  - cbn [current_command_object set_data data].
    rewrite length_map, length_combine, Hsin, Hl. apply Nat.min_id.
Qed.

End OneIteration.

Lemma range_values n : range n = map Z.of_nat (seq 0 (Z.to_nat n)).
Proof.
  unfold range, range3. rewrite Z.div_1_r.
  replace (n - 0 + 1 - 1)%Z with n by lia.
  apply map_ext. intros k. lia.
Qed.

(** The main loop: every index of the list gets its pass, in order,
    each pass starting with what the one before handed on. *)
Lemma loop_run n base file_name exp_set_name :
  repeated imaging_keywords (kwargs self) = None ->
  dm_shaped tb n ->
  forall (indices : list Z) l s,
    List.length (data (current_command_object l)) = n ->
    exists l' w blocks,
      for_fold indices (iteration tb self base file_name exp_set_name) l s
        = (Ok l', {| world := w; trace := trace s ++ List.concat blocks |}) /\
      passes_from base exp_set_name l indices blocks l'.
Proof.
  intros Hfit Hshape. induction indices as [|i indices IH]; intros l s Hl.
  - exists l, (world s), []. cbn [List.concat]. rewrite app_nil_r.
    split; [destruct s; reflexivity|constructor].
  - destruct (iteration_pass base file_name exp_set_name i l s Hfit Hshape Hl)
      as (l1 & w1 & evs1 & H1 & Hp1 & Hl1).
    destruct (IH l1 {| world := w1; trace := trace s ++ evs1 |} Hl1)
      as (l2 & w2 & blocks & H2 & Hp2).
    exists l2, w2, (evs1 :: blocks).
    cbn [for_fold]. rewrite (bind_ok _ _ _ H1), H2. cbn [trace List.concat].
    rewrite app_assoc. split; [reflexivity|].
    econstructor; eassumption.
Qed.

(** Reading passes in a row. *)
Lemma passes_steps base esn l indices blocks l' :
  passes_from base esn l indices blocks l' ->
  map kind (List.concat blocks)
  = List.concat (repeat iteration_steps (List.length indices)) /\
  sensed_at (List.concat blocks)
  = map (fun i => path_join (iteration_path base i) [Lit esn]) indices /\
  List.length blocks = List.length indices.
Proof.
  induction 1 as [l|l i evs l1 indices blocks l2 Hpass _ (IHk & IHs & IHl)].
  - repeat split.
  - destruct Hpass as (images & rest & front & correction & _ & _ & _ & Hs & Hk & _).
    cbn [List.concat List.length repeat map].
    rewrite map_app, sensed_at_app, Hk, Hs, IHk, IHs, IHl. repeat split.
Qed.

(** The loop, by its steps. *)
Lemma loop_steps n base file_name exp_set_name :
  repeated imaging_keywords (kwargs self) = None ->
  dm_shaped tb n ->
  forall (indices : list Z) l s,
    List.length (data (current_command_object l)) = n ->
    exists l' w evs,
      for_fold indices (iteration tb self base file_name exp_set_name) l s
        = (Ok l', {| world := w; trace := trace s ++ evs |}) /\
      map kind evs = List.concat (repeat iteration_steps (List.length indices)) /\
      sensed_at evs
        = map (fun i => path_join (iteration_path base i) [Lit exp_set_name]) indices.
Proof.
  intros Hfit Hshape indices l s Hl.
  destruct (loop_run base file_name exp_set_name Hfit Hshape indices l s Hl)
    as (l' & w & blocks & H & Hp).
  destruct (passes_steps Hp) as (Hk & Hs & _).
  exists l', w, (List.concat blocks). auto.
Qed.

Lemma initial_command_run s :
  let b := bias self in
  let f := SpeckleNulling.flat_map self in
  initial_command tb self s =
    (if truthy_str (dm_command_path self) then
       let file := match dm_command_path self with
                   | Some x => x
                   | None => EmptyString
                   end in
       (Ok (fst (load_dm_command tb (world s) file b f),
            if f then "flat_map"%string else "bias"%string),
        {| world := snd (load_dm_command tb (world s) file b f);
           trace := trace s ++ LoadDmCommand file b f
                      :: (if truthy_speckles (initial_speckles self)
                          then [PrintLine "Ignoring initial speckles and loading dm_command from disk."]
                          else []) |})
     else if truthy_speckles (initial_speckles self) then
       let arg := match initial_speckles self with
                  | Some a => a
                  | None => Many []
                  end in
       (Ok (sin_command tb arg (Some b) (Some f) None),
        {| world := world s; trace := trace s ++ [SinCommand arg (Some b) (Some f) None] |})
     else
       (Ok (flat_command tb b f),
        {| world := world s; trace := trace s ++ [FlatCommand b f] |})).
Proof.
  intros b f.
  unfold initial_command, build_sin, build_flat, note, called_, called, bind, ret.
  fold b f.
  destruct (truthy_str (dm_command_path self)).
  - cbv zeta.
    destruct (load_dm_command tb (world s) _ b f) as [cmd w].
    destruct (truthy_speckles (initial_speckles self));
      cbn [fst snd world trace]; rewrite <- ?app_assoc; reflexivity.
  - destruct (truthy_speckles (initial_speckles self)); reflexivity.
Qed.

(** C8: the command the loop starts from.  A non-empty
    [dm_command_path] wins: the command is loaded from disk, and
    speckles that were passed are only mentioned in a printed line.
    Otherwise speckles that were passed give a sine command, and
    without them a flat command is made.  One command is produced,
    whichever way. *)
Theorem initial_command_precedence s :
  let b := bias self in
  let f := SpeckleNulling.flat_map self in
  initial_command tb self s =
    (if truthy_str (dm_command_path self) then
       let file := match dm_command_path self with
                   | Some x => x
                   | None => EmptyString
                   end in
       (Ok (fst (load_dm_command tb (world s) file b f),
            if f then "flat_map"%string else "bias"%string),
        {| world := snd (load_dm_command tb (world s) file b f);
           trace := trace s ++ LoadDmCommand file b f
                      :: (if truthy_speckles (initial_speckles self)
                          then [PrintLine "Ignoring initial speckles and loading dm_command from disk."]
                          else []) |})
     else if truthy_speckles (initial_speckles self) then
       let arg := match initial_speckles self with
                  | Some a => a
                  | None => Many []
                  end in
       (Ok (sin_command tb arg (Some b) (Some f) None),
        {| world := world s; trace := trace s ++ [SinCommand arg (Some b) (Some f) None] |})
     else
       (Ok (flat_command tb b f),
        {| world := world s; trace := trace s ++ [FlatCommand b f] |}))
  /\ (truthy_str (dm_command_path self) = true
      <-> exists file, dm_command_path self = Some file /\ file <> EmptyString)
  /\ (truthy_speckles (initial_speckles self) = true
      <-> exists arg, initial_speckles self = Some arg /\ arg <> Many [])
  /\ exists evs,
       trace (snd (initial_command tb self s)) = trace s ++ evs /\
       List.length (filter makes_command evs) = 1%nat.
Proof.
  intros b f.
  pose proof (initial_command_run s) as Hrun. cbv zeta in Hrun. fold b f in Hrun.
  split; [exact Hrun|]. split; [|split].
  - destruct (dm_command_path self) as [[|c x]|]; cbn [truthy_str];
      (split; [intros H|intros (file & Hf & Hne)]);
      first [ discriminate
            | reflexivity
            | injection Hf as <-; congruence
            | eexists; split; [reflexivity|discriminate] ].
  - destruct (initial_speckles self) as [[spec|[|x l]]|]; cbn [truthy_speckles];
      (split; [intros H|intros (arg & Ha & Hne)]);
      first [ discriminate
            | reflexivity
            | injection Ha as <-; congruence
            | eexists; split; [reflexivity|discriminate] ].
  - rewrite Hrun.
    destruct (truthy_str (dm_command_path self)).
    + cbv zeta. cbn [snd trace]. eexists; split; [reflexivity|].
      destruct (truthy_speckles (initial_speckles self)); reflexivity.
    + destruct (truthy_speckles (initial_speckles self));
        cbn [snd trace]; eexists; split; reflexivity.
Qed.

Lemma initial_command_steps n s :
  dm_shaped tb n ->
  exists cmd name w evs,
    initial_command tb self s = (Ok (cmd, name), {| world := w; trace := trace s ++ evs |}) /\
    map kind evs =
      (if truthy_str (dm_command_path self)
       then command_loaded
              :: (if truthy_speckles (initial_speckles self) then [printed] else [])
       else if truthy_speckles (initial_speckles self) then [sine_built]
            else [flat_built]) /\
    sensed_at evs = [] /\
    List.length (data cmd) = n.
Proof.
  intros (Hload & Hsin & Hflat).
  rewrite initial_command_run.
  destruct (truthy_str (dm_command_path self)); cbv zeta.
  - specialize (Hload (world s)
                      match dm_command_path self with Some x => x | None => EmptyString end
                      (bias self) (SpeckleNulling.flat_map self)).
    destruct (load_dm_command tb (world s) _ _ _) as [cmd w]. cbn [fst snd] in *.
    eexists cmd, _, w, _. split; [reflexivity|].
    destruct (truthy_speckles (initial_speckles self)); auto.
  - destruct (truthy_speckles (initial_speckles self)).
    + match goal with
      | |- context [sin_command tb ?a ?x ?y ?z] =>
          specialize (Hsin a x y z); destruct (sin_command tb a x y z) as [cmd name]
      end.
      cbn [fst] in Hsin. eexists cmd, name, (world s), _. split; [reflexivity|]. auto.
    + specialize (Hflat (bias self) (SpeckleNulling.flat_map self)).
      destruct (flat_command tb _ _) as [cmd name].
      cbn [fst] in Hflat. eexists cmd, name, (world s), _. split; [reflexivity|]. auto.
Qed.


(** The experiment around its loop: given what the starting command
    satisfies and what the loop leaves, the whole run. *)
Lemma experiment_around_loop (Q : DmCommand -> Prop)
      (P : Testbed.path -> string -> DmCommand -> list event -> Prop) s :
  repeated ["centering"; "lyot_stop_position"; "path"; "exposure_set_name";
            "filename"; "simulator"]%string (kwargs self) = None ->
  (forall s0, exists cmd name w evs,
      initial_command tb self s0 = (Ok (cmd, name), {| world := w; trace := trace s0 ++ evs |}) /\
      map kind evs =
        (if truthy_str (dm_command_path self)
         then command_loaded
                :: (if truthy_speckles (initial_speckles self) then [printed] else [])
         else if truthy_speckles (initial_speckles self) then [sine_built]
              else [flat_built]) /\
      sensed_at evs = [] /\
      Q cmd) ->
  (forall base name esn cmd s0,
      Q cmd ->
      exists l' w evs,
        for_fold (range (num_iterations self)) (iteration tb self base name esn)
                 {| current_command_object := cmd;
                    auto_exposure_time := exposure_time self |} s0
        = (Ok l', {| world := w; trace := trace s0 ++ evs |}) /\ P base esn cmd evs) ->
  exists base start w pro passes,
    experiment tb self s =
      (Ok tt,
       {| world := w;
          trace := trace s ++ pro
            ++ [LaserOpen;
                LaserSetCurrent
                  (getint tb "thorlabs_source_mcls1"
                          (if fpm_value_eqb (fpm_position self) coron
                           then "coron_current" else "direct_current"));
                DmOpen]
            ++ passes
            ++ [RunHicatImaging
                  {| img_exposure_time := exposure_time self;
                     img_num_exposures := num_exposures self;
                     img_fpm_position := fpm_position self;
                     img_lyot_stop_position := Some (lyot_stop_position self);
                     img_centering := Some (centering self);
                     img_path := base;
                     img_auto_exposure_time := None;
                     img_exposure_set_name := Some "final"%string;
                     img_filename := [Lit "final_dark_zone.fits"];
                     img_simulator := Some false;
                     img_camera_type := None;
                     img_pipeline := None;
                     img_kwargs := kwargs self |};
                DmClose; LaserClose] |}) /\
    map kind pro = prologue_steps self /\
    sensed_at pro = [] /\
    (exists s0 name, fst (initial_command tb self s0) = Ok (start, name)) /\
    Q start /\
    P base (if fpm_value_eqb (fpm_position self) coron then "coron" else "direct")%string
      start passes.
Proof.
  intros Hfinal Hinit Hloop. unfold experiment, prologue_steps.
  assert (Hbase : exists base w0 evs0,
             match path self with
             | Some p => ret p
             | None =>
                 called (fun w => create_data_path tb w
                                    match suffix self with
                                    | Some x => ("speckle_nulling" ++ "_" ++ x)%string
                                    | None => "speckle_nulling"%string
                                    end)
                        (CreateDataPath
                           match suffix self with
                           | Some x => ("speckle_nulling" ++ "_" ++ x)%string
                           | None => "speckle_nulling"%string
                           end)
             end s = (Ok base, {| world := w0; trace := trace s ++ evs0 |}) /\
             map kind evs0 = match path self with
                             | None => [data_path_created]
                             | Some _ => []
                             end /\
             sensed_at evs0 = []).
  { destruct (path self) as [p|].
    - exists p, (world s), []. rewrite app_nil_r. destruct s; auto.
    - unfold called. destruct (create_data_path tb (world s) _) as [p w0].
      eexists p, w0, [_]. auto. }
  destruct Hbase as (base & w0 & evs0 & H0 & Hk0 & Hs0).
  rewrite (bind_ok _ _ _ H0).
  destruct (Hinit {| world := w0; trace := trace s ++ evs0 |})
    as (cmd & name & w1 & evs1 & H1 & Hk1 & Hs1 & HQ).
  rewrite (bind_ok _ _ _ H1).
  exists base, cmd.
  destruct (fpm_value_eqb (fpm_position self) coron);
    unfold with_laser_source, with_dm_controller, with_, set_current,
      imaging_call_with, called_, called, ret, bind;
    cbn [world trace img_kwargs]; rewrite Hfinal;
    unfold imaging_call, called;
    match goal with
    | |- context [for_fold ?ix (iteration tb self _ _ ?esn) ?l ?s0] =>
        destruct (Hloop base name esn cmd s0 HQ)
          as (l2 & w2 & evs2 & H2 & HP);
        rewrite H2
    end;
    cbn [world trace];
    match goal with
    | |- context [run_hicat_imaging tb ?w ?a] =>
        destruct (run_hicat_imaging tb w a) as [image w3];
        exists (laser_close tb (dm_close tb w3)), (evs0 ++ evs1), evs2
    end.
  all: cbn [world trace].
  all: split; [repeat rewrite <- app_assoc; reflexivity|].
  all: split; [rewrite map_app, Hk0, Hk1; reflexivity|].
  all: split; [rewrite sensed_at_app, Hs0, Hs1; reflexivity|].
  all: split; [eexists _, name; rewrite H1; reflexivity|].
  all: split; [exact HQ|exact HP].
Qed.

(** C3: with commands of one shape and no keyword passed twice, the
    experiment returns, and what it did is: the prologue, opening the
    laser and setting its current, opening the DM controller, then one
    pass per index of [range(0, num_iterations)], then the final images
    and the two closings.  Each pass is the current command applied, the
    dark zone tested, images taken, speckles sensed, the phase sweep,
    phase control, the amplitude sweep, amplitude control and the
    correction added.  The first pass starts with the command
    [initial_command] returned and with [exposure_time]; every later one
    with the command of the pass before plus its correction and with the
    exposure time the dark zone test of the pass before returned.
    Sensing ran on the folders of iterations 0, 1, ...,
    [num_iterations - 1], in this order. *)
Theorem experiment_passes n s :
  dm_shaped tb n ->
  repeated imaging_keywords (kwargs self) = None ->
  exists base start w evs pro passes last final,
    experiment tb self s = (Ok tt, {| world := w; trace := trace s ++ evs |}) /\
    map kind evs =
      prologue_steps self
        ++ [laser_opened; current_set; dm_opened]
        ++ List.concat (repeat iteration_steps (Z.to_nat (num_iterations self)))
        ++ [images_taken; dm_closed; laser_closed] /\
    sensed_at evs =
      map (fun i => path_join (iteration_path base i)
                              [Lit (if fpm_value_eqb (fpm_position self) coron
                                    then "coron" else "direct")%string])
          (map Z.of_nat (seq 0 (Z.to_nat (num_iterations self)))) /\
    evs = pro
            ++ [LaserOpen;
                LaserSetCurrent
                  (getint tb "thorlabs_source_mcls1"
                          (if fpm_value_eqb (fpm_position self) coron
                           then "coron_current" else "direct_current"));
                DmOpen]
            ++ List.concat passes
            ++ [RunHicatImaging final; DmClose; LaserClose] /\
    map kind pro = prologue_steps self /\
    (exists s0 name, fst (initial_command tb self s0) = Ok (start, name)) /\
    List.length passes = Z.to_nat (num_iterations self) /\
    passes_from base
      (if fpm_value_eqb (fpm_position self) coron then "coron" else "direct")%string
      {| current_command_object := start; auto_exposure_time := exposure_time self |}
      (map Z.of_nat (seq 0 (Z.to_nat (num_iterations self))))
      passes last.
Proof.
  intros Hshape Hfit.
  destruct (@experiment_around_loop
              (fun cmd => List.length (data cmd) = n)
              (fun base esn cmd evs =>
                 exists blocks last,
                   evs = List.concat blocks /\
                   passes_from base esn
                     {| current_command_object := cmd;
                        auto_exposure_time := exposure_time self |}
                     (map Z.of_nat (seq 0 (Z.to_nat (num_iterations self))))
                     blocks last) s)
    as (base & start & w & pro & evs2 & Hrun & Hkpro & Hspro & Hstart & _ & HP).
  { apply (@repeated_fewer imaging_keywords); [names_among|exact Hfit]. }
  { intros s0. destruct (initial_command_steps s0 Hshape)
      as (cmd & name & w & evs & H & Hk & Hs & Hl).
    exists cmd, name, w, evs. auto. }
  { intros base name esn cmd s0 Hl.
    destruct (loop_run base name esn Hfit Hshape (range (num_iterations self))
                {| current_command_object := cmd;
                   auto_exposure_time := exposure_time self |} s0 Hl)
      as (l' & w & blocks & H & Hp).
    exists l', w, (List.concat blocks). split; [exact H|].
    exists blocks, l'. rewrite <- range_values. auto. }
  destruct HP as (passes & last & -> & Hpasses).
  destruct (passes_steps Hpasses) as (Hk & Hs & Hlen).
  rewrite length_map, length_seq in Hk, Hlen.
  eexists base, start, w, _, pro, passes, last, _.
  split; [exact Hrun|].
  split.
  { rewrite !map_app, Hkpro, Hk. reflexivity. }
  split.
  { rewrite !sensed_at_app, Hspro, Hs. cbn [sensed_at app].
    rewrite app_nil_r. reflexivity. }
  split; [reflexivity|].
  split; [exact Hkpro|].
  split; [exact Hstart|].
  split; [exact Hlen|exact Hpasses].
Qed.

End SpeckleNullingFacts.

(** The paper testbed hands out commands with two actuator values. *)
Lemma paper_shaped : Testbed.dm_shaped Testbed.paper 2.
Proof.
  repeat split; intros; try reflexivity.
  destruct arg; reflexivity.
Defined.

(** The default experiment passes no keyword of its own. *)
Lemma defaults_fit :
  Testbed.repeated SpeckleNulling.imaging_keywords
                   (SpeckleNulling.kwargs SpeckleNulling.defaults) = None.
Proof. reflexivity. Defined.

(** The first pass on paper: 4 + 12 * 3 + 1 + 7 * 3 + 3 events. *)
Lemma iteration_sweeps_witness :
  Testbed.repeated SpeckleNulling.imaging_keywords
                   (SpeckleNulling.kwargs SpeckleNulling.defaults) = None
  /\ List.length
       (Testbed.trace
          (snd (SpeckleNulling.iteration Testbed.paper SpeckleNulling.defaults
                  [[Lit "data"]] "sin" "coron" 0 SpeckleNulling.on_paper
                  (Testbed.start 0)))) = 65%nat.
Proof.
  split; [exact defaults_fit|].
  destruct (@iteration_sweeps nat unit Testbed.paper SpeckleNulling.defaults
              [[Lit "data"]] "sin" "coron" 0 SpeckleNulling.on_paper (Testbed.start 0)
              defaults_fit)
    as (nc & ang & ptv & new_phase & new_amp & H & _).
  cbv zeta in H. rewrite H. reflexivity.
Defined.

(** The first pass on paper, from a command with the data [1, 2]: the
    shapes agree, so the pass hands on the accumulated command, here
    with the correction [5, 90] added. *)
Lemma correction_is_accumulated_witness :
  Testbed.repeated SpeckleNulling.imaging_keywords
                   (SpeckleNulling.kwargs SpeckleNulling.defaults) = None
  /\ (forall arg : Testbed.sin_argument,
      List.length (Testbed.data (fst (Testbed.sin_command Testbed.paper arg None None None)))
      = List.length (Testbed.data
                       (SpeckleNulling.current_command_object SpeckleNulling.on_paper)))
  /\ exists l' s',
      SpeckleNulling.iteration Testbed.paper SpeckleNulling.defaults
        [[Lit "data"]] "sin" "coron" 0 SpeckleNulling.on_paper (Testbed.start 0)
      = (Ok l', s') /\
      Testbed.data (SpeckleNulling.current_command_object l') = [6; 92] /\
      Testbed.attributes (SpeckleNulling.current_command_object l') = [] /\
      SpeckleNulling.auto_exposure_time l' = Testbed.Quantity 100 Testbed.millisecond /\
      for_fold [0%Z]
               (SpeckleNulling.iteration Testbed.paper SpeckleNulling.defaults
                  [[Lit "data"]] "sin" "coron")
               SpeckleNulling.on_paper (Testbed.start 0)
      = for_fold []
                 (SpeckleNulling.iteration Testbed.paper SpeckleNulling.defaults
                    [[Lit "data"]] "sin" "coron")
                 l' s'.
Proof.
  assert (H : forall arg : Testbed.sin_argument,
             List.length (Testbed.data
                            (fst (Testbed.sin_command Testbed.paper arg None None None)))
             = List.length (Testbed.data
                              (SpeckleNulling.current_command_object
                                 SpeckleNulling.on_paper))).
  { intros arg; destruct arg; reflexivity. }
  split; [exact defaults_fit|]. split; [exact H|].
  destruct (@correction_is_accumulated nat unit Testbed.paper SpeckleNulling.defaults
              [[Lit "data"]] "sin" "coron" 0 [] SpeckleNulling.on_paper (Testbed.start 0)
              defaults_fit H)
    as (nc & ang & ptv & new_phase & new_amp & between & between' & l' & s'
        & Hrun & _ & _ & _ & _ & _ & _ & Hnext).
  exists l', s'. split; [exact Hrun|].
  assert (Hl : fst (SpeckleNulling.iteration Testbed.paper SpeckleNulling.defaults
                      [[Lit "data"]] "sin" "coron" 0 SpeckleNulling.on_paper
                      (Testbed.start 0)) = Ok l') by (rewrite Hrun; reflexivity).
  vm_compute in Hl. injection Hl as <-.
  split; [reflexivity|]. split; [reflexivity|]. split; [reflexivity|exact Hnext].
Defined.

(** The default experiment on paper: ten passes in a row. *)
Lemma experiment_passes_witness :
  Testbed.dm_shaped Testbed.paper 2
  /\ Testbed.repeated SpeckleNulling.imaging_keywords
                      (SpeckleNulling.kwargs SpeckleNulling.defaults) = None
  /\ exists base start w evs passes last,
      SpeckleNulling.experiment Testbed.paper SpeckleNulling.defaults (Testbed.start 0)
      = (Ok tt, {| Testbed.world := w;
                   Testbed.trace := Testbed.trace (Testbed.start 0) ++ evs |}) /\
      map Testbed.kind evs =
        SpeckleNulling.prologue_steps SpeckleNulling.defaults
          ++ [Testbed.laser_opened; Testbed.current_set; Testbed.dm_opened]
          ++ List.concat (repeat SpeckleNulling.iteration_steps 10)
          ++ [Testbed.images_taken; Testbed.dm_closed; Testbed.laser_closed] /\
      List.length passes = 10%nat /\
      SpeckleNulling.passes_from base "coron"
        {| SpeckleNulling.current_command_object := start;
           SpeckleNulling.auto_exposure_time := Testbed.Quantity 100 Testbed.millisecond |}
        [0; 1; 2; 3; 4; 5; 6; 7; 8; 9]%Z passes last.
Proof.
  split; [exact paper_shaped|]. split; [exact defaults_fit|].
  destruct (@experiment_passes nat unit Testbed.paper SpeckleNulling.defaults 2
              (Testbed.start 0) paper_shaped defaults_fit)
    as (base & start & w & evs & pro & passes & last & final
        & Hrun & Hk & _ & _ & _ & _ & Hlen & Hpasses).
  exists base, start, w, evs, passes, last.
  split; [exact Hrun|]. split; [exact Hk|]. split; [exact Hlen|exact Hpasses].
Defined.

(** The default experiment on paper in numbers: ten passes of 65 steps
    between five steps before the loop and three after it, and a pass from
    the data [1, 2] that adds the correction [5, 90]. *)
Example experiment_on_paper :
  let run := SpeckleNulling.experiment Testbed.paper SpeckleNulling.defaults (Testbed.start 0) in
  fst run = Ok tt /\
  List.length (Testbed.trace (snd run)) = (5 + 10 * 65 + 3)%nat /\
  List.length (Testbed.sensed_at (Testbed.trace (snd run))) = 10%nat.
Proof. vm_compute. repeat split. Qed.

Example pass_on_paper :
  fst (SpeckleNulling.iteration Testbed.paper SpeckleNulling.defaults
         [[Lit "data"]] "sin" "coron" 0 SpeckleNulling.on_paper (Testbed.start 0))
  = Ok {| SpeckleNulling.current_command_object :=
            {| Testbed.data := [Qred (1 + 5); Qred (2 + 90)]; Testbed.attributes := [] |};
          SpeckleNulling.auto_exposure_time := Testbed.Quantity 100 Testbed.millisecond |}.
Proof. vm_compute. reflexivity. Qed.

(** ** PASTIS mode amplitudes *)

Section PastisFacts.

Import PastisModeAmplitudes.

Variable W : Type.
Variable tb : bench W.
Variable self : attrs.

Lemma note_run e (s : state W) :
  note e s = (Ok tt, {| world := world s; trace := trace s ++ [e];
                        measured_contrast := measured_contrast s;
                        coronagraph_floor := coronagraph_floor s;
                        direct_max := direct_max s |}).
Proof. reflexivity. Qed.

Lemma measure_run (s : state W) :
  call_measure_coronagraph_floor tb s =
    (Ok tt,
     {| world := snd (measure_coronagraph_floor tb (world s));
        trace := trace s ++ [MeasureCoronagraphFloor
                               (fst (fst (measure_coronagraph_floor tb (world s))))
                               (snd (fst (measure_coronagraph_floor tb (world s))))];
        measured_contrast := measured_contrast s;
        coronagraph_floor := Some (fst (fst (measure_coronagraph_floor tb (world s))));
        direct_max := Some (snd (fst (measure_coronagraph_floor tb (world s)))) |}).
Proof.
  unfold call_measure_coronagraph_floor.
  destruct (measure_coronagraph_floor tb (world s)) as [[floor dmax] w]. reflexivity.
Qed.

(** C10: when the target contrast is not above the floor that was just
    measured, [experiment] raises [ValueError].  By then it has written
    the readme, logged, run the flux normalization and measured the
    floor, and nothing else: no shape was applied to the IrisAO, no
    exposure was taken for an amplitude, and [measured_contrast] is as
    it was (empty on a new instance). *)
Theorem floor_above_target_aborts (s : state W) :
  let w1 := run_flux_normalization tb (world s) in
  let floor := fst (fst (measure_coronagraph_floor tb w1)) in
  let dmax := snd (fst (measure_coronagraph_floor tb w1)) in
  (c_target self <= floor)%Q ->
  experiment tb self s =
    (Raise (ValueError [Lit "Coronagraph floor ("; Num floor;
                        Lit ") cannot be above target contrast (";
                        Num (c_target self); Lit ")."]),
     {| world := snd (measure_coronagraph_floor tb w1);
        trace := trace s ++
          [WriteReadme (output_path self ++ [[Lit "_README.txt"]]);
           LogInfo [Lit "Will be scaling mode number "; Num (inject_Z (mode_number self))];
           LogInfo [Lit "Target contrast: "; Num (c_target self)];
           LogInfo (Lit "WFE amplitudes used for scaling: "
                      :: map Num (wfe_amplitudes self) ++ [Lit " nm"]);
           LogInfo (Lit "PASTIS modes and mode weights read from "
                      :: pastis_results_path self);
           LogInfo [Lit "Starting flux normalization"];
           RunFluxNormalization;
           LogInfo [Lit "Measuring reference PSF (direct) and coronagraph floor"];
           MeasureCoronagraphFloor floor dmax];
        measured_contrast := measured_contrast s;
        coronagraph_floor := Some floor;
        direct_max := Some dmax |}).
Proof.
  intros w1 floor dmax Hle.
  unfold experiment.
  do 6 (erewrite bind_ok; [|apply note_run]; cbn [world trace measured_contrast
                                                 coronagraph_floor direct_max]).
  erewrite bind_ok; [|reflexivity]. unfold emit at 1.
  cbn [world trace measured_contrast coronagraph_floor direct_max]. fold w1.
  erewrite bind_ok; [|apply note_run].
  cbn [world trace measured_contrast coronagraph_floor direct_max].
  erewrite bind_ok; [|apply measure_run].
  cbn [world trace measured_contrast coronagraph_floor direct_max]. fold floor dmax.
  erewrite bind_ok; [|reflexivity].
  cbn [coronagraph_floor].
  apply Qle_bool_iff in Hle. rewrite Hle.
  unfold raise. repeat rewrite <- app_assoc. reflexivity.
Qed.

End PastisFacts.

(** On the paper bench the target of 1e-7 lies below the floor of 1e-6. *)
Lemma too_ambitious_below_floor :
  (PastisModeAmplitudes.c_target PastisModeAmplitudes.too_ambitious <= 1 # 1000000)%Q.
Proof. vm_compute; discriminate. Defined.

(** A new instance on the paper bench, asked for a contrast of 1e-7 over a
    floor of 1e-6. *)
Lemma floor_above_target_aborts_witness :
  (PastisModeAmplitudes.c_target PastisModeAmplitudes.too_ambitious <= 1 # 1000000)%Q
  /\ fst (PastisModeAmplitudes.experiment PastisModeAmplitudes.paper
            PastisModeAmplitudes.too_ambitious (PastisModeAmplitudes.__init__ 0%nat))
     = Raise (ValueError [Lit "Coronagraph floor ("; Num (1 # 1000000);
                          Lit ") cannot be above target contrast (";
                          Num (1 # 10000000); Lit ")."])
  /\ PastisModeAmplitudes.measured_contrast
       (snd (PastisModeAmplitudes.experiment PastisModeAmplitudes.paper
               PastisModeAmplitudes.too_ambitious (PastisModeAmplitudes.__init__ 0%nat)))
     = [].
Proof.
  pose proof (@floor_above_target_aborts nat PastisModeAmplitudes.paper
                PastisModeAmplitudes.too_ambitious (PastisModeAmplitudes.__init__ 0%nat)
                too_ambitious_below_floor)
    as E.
  split; [exact too_ambitious_below_floor|]. split.
  - exact (f_equal fst E).
  - exact (f_equal (fun x => PastisModeAmplitudes.measured_contrast (snd x)) E).
Defined.

(** * Further properties *)

From Stdlib Require Import Lqa.

(** ** Whole and fractional parts *)

Lemma int_floor x : 0 <= x -> int x = Qfloor x.
Proof.
  destruct x as [n d]. unfold Qle, int, Qfloor. cbn [Qnum Qden]. intros H.
  apply Z.quot_div_nonneg; lia.
Qed.

Lemma int_ceiling x : x <= 0 -> int x = Qceiling x.
Proof.
  destruct x as [n d]. unfold Qle, int, Qceiling, Qfloor, Qopp. cbn [Qnum Qden]. intros H.
  rewrite <- (Z.opp_involutive n) at 1. rewrite Z.quot_opp_l by lia.
  f_equal. apply Z.quot_div_nonneg; lia.
Qed.

Lemma int_of_whole x (k : Z) : x == inject_Z k -> int x = k.
Proof.
  intros H. destruct (Qlt_le_dec x 0) as [Hneg|Hpos].
  - rewrite int_ceiling by lra. rewrite H. apply Qceiling_Z.
  - rewrite int_floor by lra. rewrite H. apply Qfloor_Z.
Qed.

(** [int] rounds towards zero, by less than one. *)
Lemma int_towards_zero x :
  (0 <= x -> inject_Z (int x) <= x /\ x < inject_Z (int x) + 1 /\ (0 <= int x)%Z) /\
  (x <= 0 -> x <= inject_Z (int x) /\ inject_Z (int x) - 1 < x /\ (int x <= 0)%Z).
Proof.
  split; intros H.
  - rewrite int_floor by assumption.
    pose proof (Qfloor_le x) as Hle. pose proof (Qlt_floor x) as Hlt.
    rewrite inject_Z_plus in Hlt. change (inject_Z 1) with 1 in Hlt.
    split; [exact Hle|]. split; [exact Hlt|].
    change 0%Z with (Qfloor 0). apply Qfloor_resp_le. exact H.
  - rewrite int_ceiling by assumption.
    pose proof (Qle_ceiling x) as Hle. pose proof (Qceiling_lt x) as Hlt.
    unfold Z.sub in Hlt. rewrite inject_Z_plus, inject_Z_opp in Hlt.
    change (inject_Z 1) with 1 in Hlt.
    split; [exact Hle|]. split; [lra|].
    change 0%Z with (Qceiling 0). apply Qceiling_resp_le. exact H.
Qed.

(** [math.modf]: the two parts add up, and the fractional part is below
    one in size and has the sign of the number. *)
Lemma modf_parts x :
  fst (math_modf x) + snd (math_modf x) == x /\
  snd (math_modf x) = inject_Z (int x) /\
  (0 <= x -> 0 <= fst (math_modf x) /\ fst (math_modf x) < 1) /\
  (x <= 0 -> fst (math_modf x) <= 0 /\ -1 < fst (math_modf x)).
Proof.
  unfold math_modf. cbv zeta. cbn [fst snd]. rewrite Qred_correct.
  destruct (int_towards_zero x) as [Hp Hn].
  split; [ring|]. split; [reflexivity|]. split; intros H.
  - destruct (Hp H) as (? & ? & _). split; lra.
  - destruct (Hn H) as (? & ? & _). split; lra.
Qed.

(** What [goto_steps] and [set_speed] make of a number: whole steps and
    256ths, rounded towards zero. *)
Lemma split_into_256ths x :
  let whole := int (snd (math_modf x)) in
  let part := int (fst (math_modf x) * 256) in
  whole = int x
  /\ (-256 < part < 256)%Z
  /\ (0 <= x ->
      (0 <= whole)%Z /\ (0 <= part)%Z /\
      inject_Z whole + inject_Z part / 256 <= x /\
      x < inject_Z whole + inject_Z part / 256 + 1 / 256)
  /\ (x <= 0 ->
      (whole <= 0)%Z /\ (part <= 0)%Z /\
      x <= inject_Z whole + inject_Z part / 256 /\
      inject_Z whole + inject_Z part / 256 - 1 / 256 < x)
  /\ (forall k : Z, x == inject_Z k / 256 ->
      inject_Z whole + inject_Z part / 256 == x).
Proof.
  intros whole part.
  destruct (modf_parts x) as (Hsum & Hsnd & Hpos & Hneg).
  assert (Hwhole : whole = int x).
  { unfold whole. rewrite Hsnd. apply int_of_whole. reflexivity. }
  assert (Hi : snd (math_modf x) == inject_Z whole).
  { rewrite Hwhole, Hsnd. reflexivity. }
  set (u := fst (math_modf x)) in *.
  assert (Hp : 0 <= x ->
               (0 <= whole)%Z /\ (0 <= part)%Z /\ (part < 256)%Z /\
               inject_Z part <= u * 256 /\ u * 256 < inject_Z part + 1).
  { intros H. destruct (Hpos H) as [Hu0 Hu1].
    destruct (int_towards_zero (u * 256)) as [Hp' _].
    destruct Hp' as (Ha & Hb & Hc); [lra|]. fold part in Ha, Hb, Hc.
    destruct (int_towards_zero x) as [Hx _]. destruct (Hx H) as (_ & _ & Hw).
    rewrite <- Hwhole in Hw.
    repeat split; try assumption.
    rewrite Zlt_Qlt. change (inject_Z 256) with 256. lra. }
  assert (Hn : x <= 0 ->
               (whole <= 0)%Z /\ (part <= 0)%Z /\ (-256 < part)%Z /\
               u * 256 <= inject_Z part /\ inject_Z part - 1 < u * 256).
  { intros H. destruct (Hneg H) as [Hu0 Hu1].
    destruct (int_towards_zero (u * 256)) as [_ Hn'].
    destruct Hn' as (Ha & Hb & Hc); [lra|]. fold part in Ha, Hb, Hc.
    destruct (int_towards_zero x) as [_ Hx]. destruct (Hx H) as (_ & _ & Hw).
    rewrite <- Hwhole in Hw.
    repeat split; try assumption.
    rewrite Zlt_Qlt. change (inject_Z (-256)) with (-256). lra. }
  split; [exact Hwhole|].
  unfold Qdiv. change (/ 256) with (1 # 256).
  split; [|split; [|split]].
  - destruct (Qlt_le_dec x 0) as [Hlt|Hge].
    + destruct Hn as (_ & ? & ? & _); [lra|]. lia.
    + destruct Hp as (_ & ? & ? & _); [lra|]. lia.
  - intros H. destruct (Hp H) as (? & ? & _ & ? & ?).
    repeat split; try assumption; lra.
  - intros H. destruct (Hn H) as (? & ? & _ & ? & ?).
    repeat split; try assumption; lra.
  - intros k Hk.
    assert (Hpart : part = (k - 256 * whole)%Z).
    { unfold part. apply int_of_whole. fold u.
      unfold Z.sub. rewrite inject_Z_plus, inject_Z_opp, inject_Z_mult.
      change (inject_Z 256) with 256. lra. }
    rewrite Hpart. unfold Z.sub. rewrite inject_Z_plus, inject_Z_opp, inject_Z_mult.
    change (inject_Z 256) with 256. lra.
Qed.

(** ** More on the stage driver *)

Section StageMore.

Import Stage.

Variable D : Type.
Variable lib : ximc D.

(** X1: the move command of [goto_steps] carries the position rounded
    towards zero to a 256th of a step: whole steps and microsteps have
    the sign of the position, the microsteps stay within 255 in size, the
    commanded position is off by less than 1/256 and never beyond the
    one asked for, and a position that is a whole number of 256ths is
    commanded exactly. *)
Theorem goto_steps_splits_position position wait (s : state D) :
  let pos := int (snd (math_modf position)) in
  let u_pos := int (fst (math_modf position) * 256) in
  (exists code rest,
      trace (snd (goto_steps lib position wait s))
      = trace s ++ Vendor (command_move pos u_pos) code :: rest)
  /\ (-256 < u_pos < 256)%Z
  /\ (0 <= position ->
      (0 <= pos)%Z /\ (0 <= u_pos)%Z /\
      inject_Z pos + inject_Z u_pos / 256 <= position /\
      position < inject_Z pos + inject_Z u_pos / 256 + 1 / 256)
  /\ (position <= 0 ->
      (pos <= 0)%Z /\ (u_pos <= 0)%Z /\
      position <= inject_Z pos + inject_Z u_pos / 256 /\
      inject_Z pos + inject_Z u_pos / 256 - 1 / 256 < position)
  /\ (forall k : Z, position == inject_Z k / 256 ->
      inject_Z pos + inject_Z u_pos / 256 == position).
Proof.
  intros pos u_pos.
  split; [|apply (split_into_256ths position)].
  pose proof (goto_steps_run lib position wait s) as H.
  cbv zeta in H. fold pos u_pos in H.
  destruct (lib_command_move lib (dev s) pos u_pos) as [code d].
  rewrite H; clear H. exists code.
  destruct (is_ok lib code); [destruct wait|].
  - destruct (bind (await_stop lib None None) (fun _ => ret tt) _) as [r s2] eqn:E.
    apply await_after_move in E. destruct E as (outs & final & _ & Htr & _).
    exists (polling (Stage.Result_Ok lib) 1 outs ++ final).
    cbn [snd]. rewrite Htr. cbn [trace record]. rewrite <- app_assoc. reflexivity.
  - exists []. reflexivity.
  - exists []. reflexivity.
Qed.

(** X2: [home] writes the home offset back without its fraction.  For a
    stage set up by [initialize] with [homeOffset], once the home
    settings were read, the settings written have [HomeDelta] equal to
    the offset rounded towards zero and [uHomeDelta] equal to zero, and
    are as read otherwise. *)
Theorem home_sends_whole_offset name stops home_offset factor u (s : state D) :
  fst (fst (lib_get_home_settings lib (dev s) new_home_settings_t)) = Stage.Result_Ok lib ->
  let read := snd (fst (lib_get_home_settings lib (dev s) new_home_settings_t)) in
  exists code rest,
    trace (snd (home lib (initialize name stops home_offset factor u) s)) =
      trace s
        ++ [Vendor (get_home_settings_call read) (Stage.Result_Ok lib);
            Vendor (set_home_settings_call
                      {| FastHome := FastHome read; uFastHome := uFastHome read;
                         SlowHome := SlowHome read; uSlowHome := uSlowHome read;
                         HomeDelta := int home_offset; uHomeDelta := 0;
                         HomeFlags := HomeFlags read |}) code]
        ++ rest.
Proof.
  intros Hok read.
  assert (Hwhole : int (homeOffset (initialize name stops home_offset factor u))
                   = int home_offset).
  { unfold initialize, math_modf. cbv zeta. cbn [homeOffset].
    apply int_of_whole. reflexivity. }
  assert (Hpart : int (u_homeOffset (initialize name stops home_offset factor u)) = 0%Z).
  { change (u_homeOffset (initialize name stops home_offset factor u))
      with (fst (math_modf home_offset)).
    destruct (modf_parts home_offset) as (_ & _ & Hp & Hn).
    destruct (Qlt_le_dec home_offset 0) as [Hlt|Hge].
    - destruct Hn as [H0 H1]; [lra|].
      destruct (int_towards_zero (fst (math_modf home_offset))) as [_ Hi].
      destruct (Hi H0) as (Ha & Hb & Hc).
      assert (-1 < int (fst (math_modf home_offset)))%Z; [|lia].
      rewrite Zlt_Qlt. change (inject_Z (-1)) with (-1). lra.
    - destruct Hp as [H0 H1]; [lra|].
      destruct (int_towards_zero (fst (math_modf home_offset))) as [Hi _].
      destruct (Hi H0) as (Ha & Hb & Hc).
      assert (int (fst (math_modf home_offset)) < 1)%Z; [|lia].
      rewrite Zlt_Qlt. change (inject_Z 1) with 1. lra. }
  unfold home. rewrite Hwhole, Hpart.
  unfold get_home_settings, set_home_settings, bind, call_ref, call0.
  subst read.
  destruct (lib_get_home_settings lib (dev s) new_home_settings_t) as [[c1 h] d1].
  cbn [fst snd] in *. subst c1.
  unfold is_ok. rewrite Z.eqb_refl. cbn [negb].
  cbv beta iota zeta delta [ret raise dev record].
  match goal with
  | |- context [lib_set_home_settings lib d1 ?x] =>
      destruct (lib_set_home_settings lib d1 x) as [c2 d2]
  end.
  exists c2.
  destruct (negb (c2 =? Stage.Result_Ok lib)%Z).
  - exists []. cbn [snd trace]. rewrite <- app_assoc. reflexivity.
  - cbv beta iota zeta delta [ret raise dev record].
    destruct (lib_command_homezero lib d2) as [c3 d3].
    exists [Vendor command_homezero c3].
    destruct (negb (c3 =? Stage.Result_Ok lib)%Z);
      cbn [snd trace]; rewrite <- !app_assoc; reflexivity.
Qed.

(** X3: a relative move starts from the encoder position.  When the
    position cannot be read, [offset_steps] and [offset_real] raise and no
    move command is issued; when it reads [EncPosition], they go to
    [EncPosition + distance], the real one after dividing the distance by
    the conversion factor. *)
Theorem relative_moves_start_from_encoder self distance wait (s : state D) :
  let code := fst (fst (lib_get_position lib (dev s) new_get_position_t)) in
  let read := snd (fst (lib_get_position lib (dev s) new_get_position_t)) in
  let s1 := record (Vendor (get_position_call read) code)
                   (snd (lib_get_position lib (dev s) new_get_position_t)) s in
  let goes_to target (run : result unit * state D) :=
    if is_ok lib code
    then run = goto_steps lib (inject_Z (EncPosition read) + target) wait s1
    else run = (Raise (RuntimeError "get_position() failed"), s1) /\
         count_moves (trace (snd run)) = count_moves (trace s) in
  goes_to distance (offset_steps lib distance wait s)
  /\ (Qeq_bool (conversionFactor self) 0 = false ->
      goes_to (Qred (distance / conversionFactor self))
              (offset_real lib self distance wait s)).
Proof.
  intros code read s1 goes_to.
  assert (H : forall target, goes_to target (offset_steps lib target wait s)).
  { intros target. unfold goes_to, offset_steps, get_enc_position, bind, call_ref.
    subst code read s1.
    destruct (lib_get_position lib (dev s) new_get_position_t) as [[c out] d].
    cbn [fst snd]. destruct (is_ok lib c); cbn [negb]; [reflexivity|].
    unfold raise. split; [reflexivity|]. cbn [snd trace record].
    rewrite count_moves_app. cbn. lia. }
  split; [apply H|].
  intros Hcf. unfold offset_real, truediv, lift_result. rewrite Hcf.
  unfold bind at 1. apply H.
Qed.

(** X4: [set_speed] then [get_speed] on a stage that keeps its move
    settings: the speed comes back as whole steps and 256ths of the
    speed that was set, exactly so when that speed is a whole number of
    256ths, and the other move settings written are the ones read. *)
Theorem set_speed_then_get_speed speed (s : state D) :
  Registers.keeps_move_settings lib ->
  fst (set_speed lib speed s) = Ok tt ->
  let whole := int (snd (math_modf speed)) in
  let part := int (fst (math_modf speed) * 256) in
  fst (get_speed lib (snd (set_speed lib speed s))) = Ok (whole, part)
  /\ (forall k : Z, speed == inject_Z k / 256 ->
      inject_Z whole + inject_Z part / 256 == speed)
  /\ exists read code,
      trace (snd (set_speed lib speed s)) =
        trace s ++ [Vendor (get_move_settings read) (Stage.Result_Ok lib);
                    Vendor (set_move_settings
                              {| Speed := whole; uSpeed := part;
                                 move_rest := move_rest read |}) code].
Proof.
  intros Hkeeps Hset whole part.
  split; [|split; [apply (split_into_256ths speed)|]].
  - revert Hset.
    unfold set_speed, math_modf, bind, call_ref, call0. cbv zeta. cbn [fst snd].
    destruct (lib_get_move_settings lib (dev s) new_move_settings_t) as [[c1 m1] d1].
    destruct (is_ok lib c1); cbn [negb]; [|discriminate].
    cbv beta iota zeta delta [ret raise dev record].
    match goal with
    | |- context [lib_set_move_settings lib d1 ?x] =>
        set (mvst := x); pose proof (Hkeeps d1 mvst) as Hk;
        destruct (lib_set_move_settings lib d1 mvst) as [c2 d2]
    end.
    cbn [fst snd] in Hk.
    destruct (is_ok lib c2) eqn:Hc2; cbn [negb]; [|discriminate].
    intros _. apply is_ok_true in Hc2.
    unfold get_speed, bind, call_ref. cbn [snd dev].
    rewrite (Hk Hc2 new_move_settings_t).
    unfold is_ok. rewrite Z.eqb_refl. reflexivity.
  - revert Hset.
    unfold set_speed, math_modf, bind, call_ref, call0. cbv zeta. cbn [fst snd].
    destruct (lib_get_move_settings lib (dev s) new_move_settings_t) as [[c1 m1] d1].
    destruct (is_ok lib c1) eqn:Hc1; cbn [negb]; [|discriminate].
    apply is_ok_true in Hc1. subst c1.
    cbv beta iota zeta delta [ret raise dev record].
    match goal with
    | |- context [lib_set_move_settings lib d1 ?x] =>
        destruct (lib_set_move_settings lib d1 x) as [c2 d2]
    end.
    intros _. exists m1, c2.
    destruct (negb (is_ok lib c2)); cbn [snd trace]; rewrite <- app_assoc; reflexivity.
Qed.

(** X5: [goto_steps] without waiting, then [get_step_position], on a
    stage that reports the position it was sent to: the position read
    is the one asked for rounded towards zero to a 256th of a step, and
    the very position asked for when that is a whole number of 256ths. *)
Theorem goto_steps_then_get_step_position position (s : state D) :
  Registers.reports_commanded_position lib ->
  fst (goto_steps lib position false s) = Ok tt ->
  let pos := int (snd (math_modf position)) in
  let u_pos := int (fst (math_modf position) * 256) in
  fst (get_step_position lib (snd (goto_steps lib position false s)))
    = Ok (inject_Z pos + inject_Z u_pos / 256)
  /\ (forall k : Z, position == inject_Z k / 256 ->
      inject_Z pos + inject_Z u_pos / 256 == position).
Proof.
  intros Hreports Hmove pos u_pos.
  split; [|apply (split_into_256ths position)].
  pose proof (goto_steps_run lib position false s) as H.
  cbv zeta in H. fold pos u_pos in H.
  pose proof (Hreports (dev s) pos u_pos) as Hr.
  destruct (lib_command_move lib (dev s) pos u_pos) as [code d].
  rewrite H in *; clear H. cbn [fst snd] in Hr.
  destruct (is_ok lib code) eqn:Hc; [|discriminate Hmove].
  apply is_ok_true in Hc.
  destruct (Hr Hc new_get_position_t) as [enc Hget].
  unfold get_step_position, bind, call_ref. cbn [snd dev record].
  rewrite Hget. unfold is_ok. rewrite Z.eqb_refl. reflexivity.
Qed.

End StageMore.

(** ** Finding the device *)

Section DevicesFacts.

Import Devices.

Variable Name : Type.
Variable lib : enumeration Name.

Lemma append_loop A B (keep : A -> bool) (f : A -> B) (l : list A) : forall acc,
  fold_left (fun acc x => if keep x then acc ++ [f x] else acc) l acc
  = acc ++ map f (filter keep l).
Proof.
  induction l as [|x l IH]; intros acc; cbn [fold_left filter map].
  - rewrite app_nil_r. reflexivity.
  - rewrite IH. destruct (keep x); [|reflexivity].
    cbn [map]. rewrite <- app_assoc. reflexivity.
Qed.

Lemma scan_for_devices_values :
  scan_for_devices lib
  = map (get_device_name lib)
        (filter (answers lib) (map Z.of_nat (seq 0 (Z.to_nat (get_device_count lib))))).
Proof.
  unfold scan_for_devices. cbv zeta. rewrite range_values.
  apply (append_loop (answers lib) (get_device_name lib)).
Qed.

Lemma in_indices i n : In i (map Z.of_nat (seq 0 (Z.to_nat n))) <-> (0 <= i < n)%Z.
Proof.
  rewrite in_map_iff. split.
  - intros (k & <- & Hk). apply in_seq in Hk. lia.
  - intros H. exists (Z.to_nat i). split; [lia|]. apply in_seq. lia.
Qed.

Lemma scan_membership name :
  In name (scan_for_devices lib)
  <-> exists i, listed lib i /\ name = get_device_name lib i.
Proof.
  rewrite scan_for_devices_values, in_map_iff. split.
  - intros (i & <- & Hi). apply filter_In in Hi. destruct Hi as [Hin Hok].
    exists i. split; [|reflexivity]. split; [apply in_indices; exact Hin|].
    apply Z.eqb_eq. exact Hok.
  - intros (i & (Hrange & Hok) & ->). exists i. split; [reflexivity|].
    apply filter_In. split; [apply in_indices; exact Hrange|].
    apply Z.eqb_eq. exact Hok.
Qed.

(** X6: [scan_for_devices] returns, in the order of the bus, the names
    of the devices whose controller name could be read: a name is in the
    list exactly when it is the name at an index below the device count
    that answered [Result.Ok]; no more names than devices are returned,
    and none when the count is zero or negative. *)
Theorem scan_lists_answering_devices :
  scan_for_devices lib
  = map (get_device_name lib)
        (filter (fun i => (get_enumerate_device_controller_name lib i
                           =? Devices.Result_Ok lib)%Z)
                (map Z.of_nat (seq 0 (Z.to_nat (get_device_count lib)))))
  /\ (forall name, In name (scan_for_devices lib)
                   <-> exists i, listed lib i /\ name = get_device_name lib i)
  /\ (List.length (scan_for_devices lib) <= Z.to_nat (get_device_count lib))%nat
  /\ ((get_device_count lib <= 0)%Z -> scan_for_devices lib = []).
Proof.
  split; [exact scan_for_devices_values|]. split; [|split].
  - exact scan_membership.
  - rewrite scan_for_devices_values, length_map.
    etransitivity; [apply filter_length_le|].
    rewrite length_map, length_seq. reflexivity.
  - intros Hle. rewrite scan_for_devices_values.
    replace (Z.to_nat (get_device_count lib)) with 0%nat by lia. reflexivity.
Qed.

Section FirstMatch.

Variable id_str : string.

Lemma first_with_find (l : list Z) :
  first_with lib id_str (map (get_device_name lib) (filter (answers lib) l))
  = option_map (get_device_name lib) (find (fun i => answers lib i && fits lib id_str i) l).
Proof.
  induction l as [|i l IH]; [reflexivity|].
  cbn [filter find]. destruct (answers lib i); cbn [andb map first_with]; [|exact IH].
  fold (fits lib id_str i). destruct (fits lib id_str i); [reflexivity|exact IH].
Qed.

(** [find] on indices that count up returns the least one. *)
Lemma find_counting_up (p : Z -> bool) n : forall a,
  match find p (map Z.of_nat (seq a n)) with
  | Some i => (Z.of_nat a <= i < Z.of_nat (a + n))%Z /\ p i = true /\
              forall j, (Z.of_nat a <= j < i)%Z -> p j = false
  | None => forall j, (Z.of_nat a <= j < Z.of_nat (a + n))%Z -> p j = false
  end.
Proof.
  induction n as [|n IH]; intros a; cbn [seq map find].
  - intros j Hj. lia.
  - destruct (p (Z.of_nat a)) eqn:Hp.
    + split; [lia|]. split; [exact Hp|]. intros j Hj. lia.
    + specialize (IH (S a)). destruct (find p (map Z.of_nat (seq (S a) n))) as [i|].
      * destruct IH as (Hr & Hi & Hleast). split; [lia|]. split; [exact Hi|].
        intros j Hj. destruct (Z.eq_dec j (Z.of_nat a)) as [->|Hne]; [exact Hp|].
        apply Hleast. lia.
      * intros j Hj. destruct (Z.eq_dec j (Z.of_nat a)) as [->|Hne]; [exact Hp|].
        apply IH. lia.
Qed.

Lemma matches_fits i :
  matches lib id_str i <->
  (0 <= i < get_device_count lib)%Z /\ (answers lib i && fits lib id_str i) = true.
Proof.
  unfold matches, listed, answers, fits. rewrite andb_true_iff, Z.eqb_eq. tauto.
Qed.

(** X7: [get_device_id] returns the first device on the bus that
    answered and whose [repr] contains [id_str]: it returns a name exactly
    when that is the name at the least such index; it raises "No devices
    found." exactly when no device answered; and when devices answered
    but none fits, it raises the error that lists them. *)
Theorem get_device_id_finds_first :
  (forall item,
      get_device_id lib id_str = Ok item
      <-> exists i, matches lib id_str i /\ item = get_device_name lib i /\
                    forall j, matches lib id_str j -> (i <= j)%Z)
  /\ (get_device_id lib id_str = Raise (RuntimeError "No devices found.")
      <-> forall i, ~ listed lib i)
  /\ ((exists i, listed lib i) -> (forall i, ~ matches lib id_str i) ->
      get_device_id lib id_str
      = Raise (RuntimeError
                 ("'" ++ id_str ++ "' not present in device list: '"
                      ++ list_repr (map (repr_name lib) (scan_for_devices lib)) ++ "'."))).
Proof.
  assert (Hempty : scan_for_devices lib = [] <-> forall i, ~ listed lib i).
  { pose proof scan_membership as Hin. split.
    - intros He i Hi. assert (In (get_device_name lib i) (scan_for_devices lib)) as H.
      { apply Hin. exists i. auto. }
      rewrite He in H. exact H.
    - intros Hnone. destruct (scan_for_devices lib) as [|x l] eqn:E; [reflexivity|].
      exfalso. destruct (proj1 (Hin x)) as (i & Hi & _); [left; reflexivity|].
      exact (Hnone i Hi). }
  pose proof (find_counting_up (fun i => answers lib i && fits lib id_str i)
                               (Z.to_nat (get_device_count lib)) 0) as Hfind.
  assert (Hfirst : first_with lib id_str (scan_for_devices lib)
                   = option_map (get_device_name lib)
                       (find (fun i => answers lib i && fits lib id_str i)
                             (map Z.of_nat (seq 0 (Z.to_nat (get_device_count lib)))))).
  { rewrite scan_for_devices_values. apply first_with_find. }
  unfold get_device_id. cbv zeta. rewrite Hfirst.
  destruct (find _ _) as [i|]; cbn [option_map].
  - destruct Hfind as (Hr & Hi & Hleast).
    assert (Hm : matches lib id_str i) by (apply matches_fits; split; [lia|exact Hi]).
    destruct (scan_for_devices lib) as [|x l] eqn:E.
    { exfalso. exact (proj1 Hempty eq_refl i (proj1 Hm)). }
    split; [|split].
    + intros item. split.
      * intros [= <-]. exists i. split; [exact Hm|]. split; [reflexivity|].
        intros j Hj. apply matches_fits in Hj. destruct Hj as [Hjr Hjf].
        destruct (Z_lt_le_dec j i) as [Hlt|]; [|assumption].
        rewrite Hleast in Hjf by lia. discriminate.
      * intros (i' & Hm' & -> & Hleast'). f_equal.
        assert (i' = i); [|subst; reflexivity].
        apply Z.le_antisymm; [apply Hleast'; exact Hm|].
        apply matches_fits in Hm'. destruct Hm' as [Hr' Hf'].
        destruct (Z_lt_le_dec i' i) as [Hlt|]; [|assumption].
        rewrite Hleast in Hf' by lia. discriminate.
    + split; [discriminate|]. intros Hnone. exfalso. exact (Hnone i (proj1 Hm)).
    + intros _ Hnone. exfalso. exact (Hnone i Hm).
  - assert (Hnone : forall j, ~ matches lib id_str j).
    { intros j Hj. apply matches_fits in Hj. destruct Hj as [Hjr Hjf].
      rewrite Hfind in Hjf by lia. discriminate. }
    destruct (scan_for_devices lib) as [|x l] eqn:E.
    + split; [|split].
      * intros item. split; [discriminate|].
        intros (i & Hm & _). exfalso. exact (Hnone i Hm).
      * split; [intros _; exact (proj1 Hempty eq_refl)|reflexivity].
      * intros (i & Hi) _. exfalso. exact (proj1 Hempty eq_refl i Hi).
    + split; [|split].
      * intros item. split; [discriminate|].
        intros (i & Hm & _). exfalso. exact (Hnone i Hm).
      * split; [discriminate|].
        intros Hn. exfalso. pose proof (proj2 Hempty Hn) as He. discriminate He.
      * intros _ _. reflexivity.
Qed.

End FirstMatch.

End DevicesFacts.

(** On the bus of four: the scan leaves out the controller that does not
    answer, and asking for [ACM] gets the first one. *)
Example scan_on_the_bus_of_four :
  Devices.scan_for_devices Devices.four_on_the_bus
  = ["xi-com:///dev/ttyACM0"; "xi-com:///dev/ttyACM1"; "xi-com:///dev/ttyACM3"]%string
  /\ Devices.get_device_id Devices.four_on_the_bus "ACM" = Ok "xi-com:///dev/ttyACM0"%string
  /\ Devices.get_device_id Devices.four_on_the_bus "ACM3" = Ok "xi-com:///dev/ttyACM3"%string
  /\ Devices.get_device_id Devices.four_on_the_bus "ACM2"
     = Raise (RuntimeError
                "'ACM2' not present in device list: '[b'xi-com:///dev/ttyACM0', b'xi-com:///dev/ttyACM1', b'xi-com:///dev/ttyACM3']'.").
Proof. vm_compute. repeat split. Qed.

(** The stage on paper keeps what it is told. *)
Lemma stored_reports_commanded_position :
  Registers.reports_commanded_position Registers.stored.
Proof. intros d p u _ g. exists p. reflexivity. Defined.

Lemma stored_keeps_move_settings : Registers.keeps_move_settings Registers.stored.
Proof. intros d m _ m0. reflexivity. Defined.

(** Homing the stage on paper with a home offset of 2.5 steps. *)
Lemma home_sends_whole_offset_witness :
  fst (fst (Stage.lib_get_home_settings Registers.stored
              (Stage.dev Registers.switched_on) Stage.new_home_settings_t))
  = Stage.Result_Ok Registers.stored
  /\ exists code rest,
      Stage.trace (snd (Stage.home Registers.stored
                          (Stage.initialize "stage" (0, 100) (5 # 2) (1 # 2)
                                            (Stage.Member Stage.REAL))
                          Registers.switched_on)) =
        [] ++ [Stage.Vendor
                 (Stage.get_home_settings_call
                    (Registers.homing (Stage.dev Registers.switched_on))) 0;
               Stage.Vendor
                 (Stage.set_home_settings_call
                    {| Stage.FastHome := 100; Stage.uFastHome := 0;
                       Stage.SlowHome := 20; Stage.uSlowHome := 0;
                       Stage.HomeDelta := 2; Stage.uHomeDelta := 0;
                       Stage.HomeFlags := 370 |}) code]
           ++ rest.
Proof.
  split; [reflexivity|].
  exact (@home_sends_whole_offset Registers.registers Registers.stored
           "stage" (0, 100) (5 # 2) (1 # 2) (Stage.Member Stage.REAL)
           Registers.switched_on eq_refl).
Defined.

(** Setting the speed of the stage on paper to 12.75 steps a second. *)
Lemma set_speed_then_get_speed_witness :
  Registers.keeps_move_settings Registers.stored
  /\ fst (Stage.set_speed Registers.stored (51 # 4) Registers.switched_on) = Ok tt
  /\ fst (Stage.get_speed Registers.stored
            (snd (Stage.set_speed Registers.stored (51 # 4) Registers.switched_on)))
     = Ok (12%Z, 192%Z).
Proof.
  split; [exact stored_keeps_move_settings|]. split; [reflexivity|].
  exact (proj1 (@set_speed_then_get_speed Registers.registers Registers.stored
                  (51 # 4) Registers.switched_on
                  stored_keeps_move_settings eq_refl)).
Defined.

(** Sending the stage on paper to -2.5 steps and reading where it is. *)
Lemma goto_steps_then_get_step_position_witness :
  Registers.reports_commanded_position Registers.stored
  /\ fst (Stage.goto_steps Registers.stored (- 5 # 2) false Registers.switched_on) = Ok tt
  /\ fst (Stage.get_step_position Registers.stored
            (snd (Stage.goto_steps Registers.stored (- 5 # 2) false
                                   Registers.switched_on)))
     = Ok (inject_Z (-2) + inject_Z (-128) / 256).
Proof.
  split; [exact stored_reports_commanded_position|]. split; [reflexivity|].
  exact (proj1 (@goto_steps_then_get_step_position Registers.registers Registers.stored
                  (- 5 # 2) Registers.switched_on
                  stored_reports_commanded_position eq_refl)).
Defined.

(** A relative move on a stage whose position cannot be read. *)
Example relative_move_without_position :
  Stage.relative_move Registers.unreadable
                      (Stage.initialize "stage" (0, 100) 0 (1 # 2) (Stage.Member Stage.REAL))
                      10 true (Stage.Member Stage.STEPS) (Stage.at_rest 0)
  = (Raise (RuntimeError "get_position() failed"),
     {| Stage.dev := 0%nat;
        Stage.trace := [Stage.Vendor (Stage.get_position_call Stage.new_get_position_t) (-1)];
        Stage.log := [] |}).
Proof. reflexivity. Qed.

(** ** The laser source when opening or closing fails *)

Section LaserSourceErrors.

Import LaserSource.

Variables W Handle Args : Type.
Variable initialize : object Handle -> Args -> W -> result Handle * object Handle * W.
Variable close : object Handle -> W -> result unit * object Handle * W.

(** X8: when [initialize] raises, [with LaserSource(...) as laser: body]
    raises the same exception: the body does not run, [close] is not
    called and nothing is printed; the object stays as [initialize] left
    it, having been handed over with [config_id] set and the handle not
    yet assigned. *)
Theorem failed_initialize_skips_body A (cid : string) (args : Args)
        (body : M (state W Handle) A) s e o1 w1 :
  initialize {| config_id := cid; laser := laser (self s) |} args (world s)
    = (Raise e, o1, w1) ->
  with_laser_source initialize close cid args body s =
    (Raise e,
     {| world := w1; self := o1; stdout := stdout s;
        trace := trace s ++ [Initialize] |}).
Proof.
  intros Hinit.
  unfold with_laser_source, with_, __init__.
  unfold bind at 1. unfold bind at 1. unfold bind at 1.
  unfold set_config_id, modify, call_initialize. cbn [self world stdout trace].
  rewrite Hinit. reflexivity.
Qed.

(** X9: when [close] raises on the way out, its exception is the one
    that leaves the [with] statement, whether the body returned or
    raised; the handle is not set to [None] and the closing line is not
    printed. *)
Theorem failed_close_keeps_handle A (cid : string) (args : Args)
        (body : M (state W Handle) A) s h o1 w1 e o3 w3 :
  initialize {| config_id := cid; laser := laser (self s) |} args (world s)
    = (Ok h, o1, w1) ->
  let s1 := {| world := w1;
               self := {| config_id := config_id o1; laser := Some h |};
               stdout := stdout s ++ ["Opened connection to laser source " ++ cid]%string;
               trace := trace s ++ [Initialize] |} in
  let s2 := snd (body s1) in
  close (self s2) (world s2) = (Raise e, o3, w3) ->
  with_laser_source initialize close cid args body s =
    (Raise e,
     {| world := w3; self := o3; stdout := stdout s2; trace := trace s2 ++ [Close] |}).
Proof.
  intros Hinit s1 s2 Hclose.
  unfold with_laser_source, with_, __init__, __enter__.
  unfold bind at 1. unfold bind at 1. unfold set_config_id, modify.
  unfold bind at 1. unfold call_initialize. cbn [self world stdout trace].
  rewrite Hinit.
  unfold bind at 1. unfold set_laser, modify. cbn [self world stdout trace].
  unfold print, modify. cbn [self world stdout trace].
  unfold bind at 1. unfold ret at 1.
  fold s1.
  assert (Hexit : __exit__ close tt s2 =
            (Raise e,
             {| world := w3; self := o3; stdout := stdout s2;
                trace := trace s2 ++ [Close] |})).
  { unfold __exit__, bind, call_close. rewrite Hclose. reflexivity. }
  subst s2.
  destruct (body s1) as [[a|e0] s2']; cbn [fst snd] in *; rewrite Hexit; reflexivity.
Qed.

End LaserSourceErrors.

(** A laser that cannot be reached: the body is not run. *)
Lemma failed_initialize_skips_body_witness :
  LaserSource.with_laser_source BrokenLasers.unreachable LaserSource.counting_close
      "mcls1" tt BrokenLasers.quiet_body LaserSource.fresh
  = (Raise (RuntimeError "no laser"),
     {| LaserSource.world := (0%nat, 0%nat);
        LaserSource.self := {| LaserSource.config_id := "mcls1"; LaserSource.laser := None |};
        LaserSource.stdout := [];
        LaserSource.trace := [LaserSource.Initialize] |}).
Proof.
  apply (@failed_initialize_skips_body (nat * nat) nat unit
           BrokenLasers.unreachable LaserSource.counting_close
           Z "mcls1" tt BrokenLasers.quiet_body LaserSource.fresh
           (RuntimeError "no laser")
           {| LaserSource.config_id := "mcls1"; LaserSource.laser := None |}
           (0%nat, 0%nat)); reflexivity.
Defined.

(** A laser that does not let go, around a body that returns: the
    handle stays. *)
Lemma failed_close_keeps_handle_witness :
  LaserSource.with_laser_source LaserSource.counting_initialize BrokenLasers.stuck_close
      "mcls1" tt BrokenLasers.quiet_body LaserSource.fresh
  = (Raise (RuntimeError "still on"),
     {| LaserSource.world := (1%nat, 0%nat);
        LaserSource.self := {| LaserSource.config_id := "mcls1";
                               LaserSource.laser := Some 0%nat |};
        LaserSource.stdout := ["Opened connection to laser source mcls1"]%string;
        LaserSource.trace := [LaserSource.Initialize; LaserSource.Close] |}).
Proof.
  apply (@failed_close_keeps_handle (nat * nat) nat unit
           LaserSource.counting_initialize BrokenLasers.stuck_close
           Z "mcls1" tt BrokenLasers.quiet_body LaserSource.fresh
           0%nat {| LaserSource.config_id := "mcls1"; LaserSource.laser := None |}
           (1%nat, 0%nat) (RuntimeError "still on")
           {| LaserSource.config_id := "mcls1"; LaserSource.laser := Some 0%nat |}
           (1%nat, 0%nat)); reflexivity.
Defined.

(** ** The PASTIS scan *)

Lemma index_in_range A (l : list A) (j : Z) d :
  (0 <= j < Z.of_nat (List.length l))%Z -> index l j = Ok (nth (Z.to_nat j) l d).
Proof.
  intros H. unfold index. cbv zeta.
  destruct (Z.ltb_spec j 0) as [Hneg|_]; [lia|].
  destruct (Z.leb_spec 0 j) as [_|Hneg]; [|lia].
  destruct (Z.ltb_spec j (Z.of_nat (List.length l))) as [_|Hbig]; [|lia].
  cbn [andb].
  destruct (nth_error l (Z.to_nat j)) as [a|] eqn:E.
  - f_equal. symmetry. apply nth_error_nth. exact E.
  - apply nth_error_None in E. lia.
Qed.

Lemma index_out_of_range A (l : list A) (j : Z) :
  (j < - Z.of_nat (List.length l) \/ Z.of_nat (List.length l) <= j)%Z ->
  index l j = Raise IndexError.
Proof.
  intros H. unfold index. cbv zeta.
  destruct (Z.ltb_spec j 0) as [Hneg|Hpos].
  - destruct (Z.leb_spec 0 (Z.of_nat (List.length l) + j)) as [Hge|_]; [lia|]. reflexivity.
  - destruct (Z.ltb_spec j (Z.of_nat (List.length l))) as [Hlt|_]; [lia|].
    rewrite andb_false_r. reflexivity.
Qed.

Lemma index_raises_only_index_error A (l : list A) (j : Z) e :
  index l j = Raise e -> e = IndexError.
Proof.
  unfold index. cbv zeta.
  destruct (_ && _); [|intros [= <-]; reflexivity].
  destruct (nth_error l _); [discriminate|intros [= <-]; reflexivity].
Qed.

Lemma comprehension_all_ok A B (f : A -> result B) (g : A -> B) (l : list A) :
  Forall (fun x => f x = Ok (g x)) l ->
  PastisModeAmplitudes.comprehension f l = Ok (map g l).
Proof.
  induction 1 as [|x l Hx _ IH]; [reflexivity|].
  cbn [PastisModeAmplitudes.comprehension map]. rewrite Hx, IH. reflexivity.
Qed.

Lemma comprehension_raises A B (f : A -> result B) (l : list A) e :
  PastisModeAmplitudes.comprehension f l = Raise e -> exists x, In x l /\ f x = Raise e.
Proof.
  induction l as [|x l IH]; [discriminate|].
  cbn [PastisModeAmplitudes.comprehension].
  destruct (f x) as [b|e'] eqn:Hx.
  - destruct (PastisModeAmplitudes.comprehension f l) as [bs|e''] eqn:Hl; [discriminate|].
    intros [= <-]. destruct (IH eq_refl) as (y & Hy & Hfy). exists y. split; [right|]; assumption.
  - intros [= <-]. exists x. split; [left; reflexivity|exact Hx].
Qed.

Lemma nth_of_the_first A (l : list A) d n :
  (n <= List.length l)%nat ->
  map (fun i => nth (Z.to_nat i) l d) (map Z.of_nat (seq 0 n)) = firstn n l.
Proof.
  revert l. induction n as [|n IH]; intros l Hn; [reflexivity|].
  destruct l as [|x l]; [cbn in Hn; lia|].
  cbn [seq map firstn]. f_equal.
  rewrite <- seq_shift, !map_map. rewrite <- (IH l) by (cbn in Hn; lia).
  rewrite map_map. apply map_ext. intros i.
  rewrite !Nat2Z.id. reflexivity.
Qed.

Section PastisScanFacts.

Import PastisModeAmplitudes PastisScan.

Variable W : Type.
Variable tb : bench W.
Variable self : attrs.

(** [experiment] up to the comparison of the floor with the target. *)
Lemma experiment_start (s : state W) :
  let w1 := run_flux_normalization tb (world s) in
  let floor := fst (fst (measure_coronagraph_floor tb w1)) in
  let dmax := snd (fst (measure_coronagraph_floor tb w1)) in
  let s9 := {| world := snd (measure_coronagraph_floor tb w1);
               trace := trace s ++ preparation self floor dmax;
               measured_contrast := measured_contrast s;
               coronagraph_floor := Some floor;
               direct_max := Some dmax |} in
  experiment tb self s =
    if Qle_bool (c_target self) floor
    then (Raise (ValueError [Lit "Coronagraph floor ("; Num floor;
                             Lit ") cannot be above target contrast (";
                             Num (c_target self); Lit ")."]), s9)
    else (for_each (wfe_amplitudes self) (scan_amplitude tb self) ;;
          contrasts <- gets (fun s => measured_contrast s) ;;
          note (SaveTxt [Lit "scaled_mode_contrasts_"; Num (c_target self); Lit ".txt"]
                        contrasts) ;;
          note (SaveTxt [Lit "wfe_amplitudes_"; Num (c_target self); Lit ".txt"]
                        (wfe_amplitudes self))) s9.
Proof.
  intros w1 floor dmax s9.
  unfold experiment.
  do 6 (erewrite bind_ok; [|apply note_run]; cbn [world trace measured_contrast
                                                 coronagraph_floor direct_max]).
  erewrite bind_ok; [|reflexivity]. unfold emit at 1.
  cbn [world trace measured_contrast coronagraph_floor direct_max]. fold w1.
  erewrite bind_ok; [|apply note_run].
  cbn [world trace measured_contrast coronagraph_floor direct_max].
  erewrite bind_ok; [|apply measure_run].
  cbn [world trace measured_contrast coronagraph_floor direct_max]. fold floor dmax.
  erewrite bind_ok; [|reflexivity].
  cbn [coronagraph_floor].
  assert (Ht : ((((((((trace s ++ [WriteReadme (output_path self ++ [[Lit "_README.txt"]])])
                  ++ [LogInfo [Lit "Will be scaling mode number "; Num (inject_Z (mode_number self))]])
                  ++ [LogInfo [Lit "Target contrast: "; Num (c_target self)]])
                  ++ [LogInfo (Lit "WFE amplitudes used for scaling: "
                                 :: map Num (wfe_amplitudes self) ++ [Lit " nm"])])
                  ++ [LogInfo (Lit "PASTIS modes and mode weights read from "
                                 :: pastis_results_path self)])
                  ++ [LogInfo [Lit "Starting flux normalization"]])
                  ++ [RunFluxNormalization])
                  ++ [LogInfo [Lit "Measuring reference PSF (direct) and coronagraph floor"]])
                  ++ [MeasureCoronagraphFloor floor dmax]
               = trace s ++ preparation self floor dmax).
  { unfold preparation. repeat rewrite <- app_assoc. reflexivity. }
  rewrite Ht. fold s9.
  destruct (Qle_bool (c_target self) floor); reflexivity.
Qed.

Lemma lift_ok A B (a : A) (k : A -> M (state W) B) s :
  bind (lift (Ok a)) k s = k a s.
Proof. reflexivity. Qed.

Lemma iris_command_built wfe :
  well_indexed self ->
  comprehension
    (fun seg =>
       match index (map (fun m => (m * nth (Z.to_nat (mode_number self)) (mode_weights self) 0
                                   * wfe)%Q)
                        (map (fun row => nth (Z.to_nat (mode_number self)) row 0)
                             (pastis_modes self))) seg with
       | Ok v => Ok (Qred (v / 1000), 0%Q, 0%Q)
       | Raise e => Raise e
       end)
    (range (nb_seg self))
  = Ok (iris_command self wfe).
Proof.
  intros (_ & _ & Hseg).
  rewrite map_map. fold (scaled_mode self wfe).
  assert (Hlen : List.length (scaled_mode self wfe) = List.length (pastis_modes self)).
  { unfold scaled_mode. cbv zeta. apply length_map. }
  rewrite (@comprehension_all_ok _ _ _
             (fun seg => (Qred (nth (Z.to_nat seg) (scaled_mode self wfe) 0 / 1000), 0, 0))).
  - f_equal. unfold iris_command. rewrite range_values.
    rewrite <- (@nth_of_the_first _ (scaled_mode self wfe) 0) by lia.
    rewrite !map_map. reflexivity.
  - rewrite range_values. apply Forall_forall. intros seg Hin.
    apply in_indices in Hin.
    rewrite (@index_in_range _ _ _ 0) by lia. reflexivity.
Qed.

(** One amplitude of the scan, with valid indices. *)
Lemma scan_amplitude_run wfe (s : state W) :
  well_indexed self ->
  exists c w,
    scan_amplitude tb self wfe s =
      (Ok tt,
       {| world := w;
          trace := trace s ++
            [LogInfo [Lit "Applying scaling of "; Num wfe; Lit "nm rms"];
             IrisApplyShape (iris_command self wfe);
             TakeExposure "coron" (output_path self ++ [[Lit "wfe_"; Num wfe; Lit "nm"]])];
          measured_contrast := measured_contrast s ++ [c];
          coronagraph_floor := coronagraph_floor s;
          direct_max := direct_max s |}).
Proof.
  intros Hwell. pose proof Hwell as (Hweight & Hrows & _).
  unfold scan_amplitude.
  erewrite bind_ok; [|apply note_run].
  cbn [world trace measured_contrast coronagraph_floor direct_max].
  rewrite (@comprehension_all_ok _ _ _ (fun row => nth (Z.to_nat (mode_number self)) row 0)).
  2:{ apply Forall_forall. intros row Hin.
      rewrite Forall_forall in Hrows. specialize (Hrows row Hin).
      apply index_in_range. lia. }
  rewrite lift_ok.
  rewrite (@index_in_range _ _ _ 0 Hweight). rewrite lift_ok. cbv zeta.
  rewrite (iris_command_built wfe Hwell). rewrite lift_ok.
  erewrite bind_ok; [|reflexivity]. unfold emit at 1.
  cbn [world trace measured_contrast coronagraph_floor direct_max].
  unfold bind at 1, call_take_exposure.
  cbn [world trace measured_contrast coronagraph_floor direct_max].
  match goal with
  | |- context [take_exposure tb ?w ?k ?p] => destruct (take_exposure tb w k p) as [img w2]
  end.
  unfold emit. cbn [world trace measured_contrast coronagraph_floor direct_max].
  unfold bind, gets, append_measured_contrast, modify.
  cbn [world trace measured_contrast coronagraph_floor direct_max].
  eexists _, w2. rewrite <- !app_assoc. reflexivity.
Qed.

(** The loop over the amplitudes, with valid indices. *)
Lemma scan_run (amplitudes : list Q) : forall (s : state W),
  well_indexed self ->
  exists contrasts w,
    for_each amplitudes (scan_amplitude tb self) s =
      (Ok tt,
       {| world := w;
          trace := trace s ++
            List.flat_map (fun wfe =>
              [LogInfo [Lit "Applying scaling of "; Num wfe; Lit "nm rms"];
               IrisApplyShape (iris_command self wfe);
               TakeExposure "coron" (output_path self ++ [[Lit "wfe_"; Num wfe; Lit "nm"]])])
              amplitudes;
          measured_contrast := measured_contrast s ++ contrasts;
          coronagraph_floor := coronagraph_floor s;
          direct_max := direct_max s |}) /\
    List.length contrasts = List.length amplitudes.
Proof.
  induction amplitudes as [|wfe amplitudes IH]; intros s Hwell.
  - exists [], (world s). cbn. rewrite !app_nil_r. destruct s; auto.
  - destruct (scan_amplitude_run wfe s Hwell) as (c & w1 & H1).
    cbn [for_each]. rewrite (bind_ok _ _ _ H1).
    match goal with
    | |- context [for_each amplitudes _ ?s1] =>
        destruct (IH s1 Hwell) as (cs & w2 & H2 & Hlen)
    end.
    exists (c :: cs), w2. rewrite H2.
    cbn [world trace measured_contrast coronagraph_floor direct_max List.flat_map].
    split; [|cbn; lia].
    rewrite <- !app_assoc. reflexivity.
Qed.

(** X10: with valid indices and a target above the floor, [experiment]
    returns.  For every amplitude, in order, it logs, applies to the
    IrisAO the piston-only command of the scaled mode (nanometres to
    micrometres, the first [nb_seg] segments) and takes one coronagraphic
    exposure; it appends one contrast per amplitude to
    [measured_contrast], which it does not empty first, and saves that
    whole list and the amplitudes. *)
Theorem scan_measures_every_amplitude (s : state W) :
  let w1 := run_flux_normalization tb (world s) in
  let floor := fst (fst (measure_coronagraph_floor tb w1)) in
  let dmax := snd (fst (measure_coronagraph_floor tb w1)) in
  well_indexed self ->
  (floor < c_target self)%Q ->
  exists contrasts w,
    experiment tb self s =
      (Ok tt,
       {| world := w;
          trace := trace s ++ preparation self floor dmax
            ++ List.flat_map (fun wfe =>
                 [LogInfo [Lit "Applying scaling of "; Num wfe; Lit "nm rms"];
                  IrisApplyShape (iris_command self wfe);
                  TakeExposure "coron"
                               (output_path self ++ [[Lit "wfe_"; Num wfe; Lit "nm"]])])
                 (wfe_amplitudes self)
            ++ [SaveTxt [Lit "scaled_mode_contrasts_"; Num (c_target self); Lit ".txt"]
                        (measured_contrast s ++ contrasts);
                SaveTxt [Lit "wfe_amplitudes_"; Num (c_target self); Lit ".txt"]
                        (wfe_amplitudes self)];
          measured_contrast := measured_contrast s ++ contrasts;
          coronagraph_floor := Some floor;
          direct_max := Some dmax |}) /\
    List.length contrasts = List.length (wfe_amplitudes self).
Proof.
  intros w1 floor dmax Hwell Hlt.
  pose proof (experiment_start s) as H. cbv zeta in H. fold w1 floor dmax in H.
  rewrite H; clear H.
  assert (Hb : Qle_bool (c_target self) floor = false).
  { destruct (Qle_bool (c_target self) floor) eqn:E; [|reflexivity].
    apply Qle_bool_iff in E. lra. }
  rewrite Hb.
  match goal with
  | |- context [for_each _ _ ;; _] => idtac
  end.
  match goal with
  | |- exists contrasts w, bind (for_each ?l ?f) ?k ?s0 = _ /\ _ =>
      destruct (scan_run l s0 Hwell) as (cs & w & Hrun & Hlen);
      exists cs, w; rewrite (bind_ok _ _ _ Hrun)
  end.
  split; [|exact Hlen].
  unfold bind, gets, note, modify, emit.
  cbn [world trace measured_contrast coronagraph_floor direct_max].
  rewrite <- !app_assoc. reflexivity.
Qed.

(** X11: with a mode number outside [mode_weights], a target above the
    floor and at least one amplitude, [experiment] raises [IndexError] at
    the first amplitude: it has logged that amplitude, and has applied
    nothing to the IrisAO, taken no exposure, measured no contrast and
    saved nothing. *)
Theorem missing_mode_stops_the_scan (s : state W) first others :
  let w1 := run_flux_normalization tb (world s) in
  let floor := fst (fst (measure_coronagraph_floor tb w1)) in
  let dmax := snd (fst (measure_coronagraph_floor tb w1)) in
  (mode_number self < - Z.of_nat (List.length (mode_weights self))
   \/ Z.of_nat (List.length (mode_weights self)) <= mode_number self)%Z ->
  (floor < c_target self)%Q ->
  wfe_amplitudes self = first :: others ->
  experiment tb self s =
    (Raise IndexError,
     {| world := snd (measure_coronagraph_floor tb w1);
        trace := trace s ++ preparation self floor dmax
                   ++ [LogInfo [Lit "Applying scaling of "; Num first; Lit "nm rms"]];
        measured_contrast := measured_contrast s;
        coronagraph_floor := Some floor;
        direct_max := Some dmax |}).
Proof.
  intros w1 floor dmax Hout Hlt Hamp.
  pose proof (experiment_start s) as H. cbv zeta in H. fold w1 floor dmax in H.
  rewrite H; clear H.
  assert (Hb : Qle_bool (c_target self) floor = false).
  { destruct (Qle_bool (c_target self) floor) eqn:E; [|reflexivity].
    apply Qle_bool_iff in E. lra. }
  rewrite Hb, Hamp. cbn [for_each].
  apply bind_raise. apply bind_raise.
  unfold scan_amplitude.
  erewrite bind_ok; [|apply note_run].
  cbn [world trace measured_contrast coronagraph_floor direct_max].
  rewrite <- app_assoc.
  destruct (comprehension (fun row => index row (mode_number self)) (pastis_modes self))
    as [column|e] eqn:Ecol.
  - rewrite lift_ok. rewrite (@index_out_of_range _ _ _ Hout). reflexivity.
  - apply comprehension_raises in Ecol. destruct Ecol as (row & _ & Hrow).
    apply index_raises_only_index_error in Hrow. subst e. reflexivity.
Qed.

End PastisScanFacts.

(** ** More on speckle nulling *)

Lemma images_app a b : Traces.images (a ++ b) = Traces.images a ++ Traces.images b.
Proof.
  induction a as [|e a IH]; [reflexivity|].
  destruct e; cbn [app Traces.images]; rewrite IH; reflexivity.
Qed.

Lemma currents_app a b : Traces.currents (a ++ b) = Traces.currents a ++ Traces.currents b.
Proof.
  induction a as [|e a IH]; [reflexivity|].
  destruct e; cbn [app Traces.currents]; rewrite IH; reflexivity.
Qed.

Lemma shapes_app a b : Traces.shapes (a ++ b) = Traces.shapes a ++ Traces.shapes b.
Proof.
  induction a as [|e a IH]; [reflexivity|].
  destruct e; cbn [app Traces.shapes]; rewrite IH; reflexivity.
Qed.

Lemma scopes_app a : forall laser dm b,
  Traces.scopes laser dm (a ++ b) =
    match Traces.scopes laser dm a with
    | Some (laser', dm') => Traces.scopes laser' dm' b
    | None => None
    end.
Proof.
  induction a as [|e a IH]; intros laser dm b; [reflexivity|].
  destruct e; cbn [app Traces.scopes];
    repeat match goal with
           | |- context [if ?c then _ else _] => destruct c
           end; try reflexivity; apply IH.
Qed.

Lemma scopes_repeat block n :
  Traces.scopes true true block = Some (true, true) ->
  Traces.scopes true true (List.concat (repeat block n)) = Some (true, true).
Proof.
  intros Hblock. induction n as [|n IH]; [reflexivity|].
  cbn [repeat List.concat]. rewrite scopes_app, Hblock. exact IH.
Qed.

Section SpeckleNullingMore.

Import Testbed SpeckleNulling Traces.

Variables W Image : Type.
Variable tb : testbed W Image.
Variable self : attrs.

Lemma currents_without_setting evs :
  ~ In current_set (map kind evs) -> currents evs = [].
Proof.
  induction evs as [|e evs IH]; [reflexivity|].
  intros Hnot. destruct e; cbn [currents];
    try (apply IH; intros Hin; apply Hnot; right; exact Hin).
  exfalso. apply Hnot. left. reflexivity.
Qed.

Lemma shapes_without_applying evs :
  ~ In shape_applied (map kind evs) -> shapes evs = [].
Proof.
  induction evs as [|e evs IH]; [reflexivity|].
  intros Hnot. destruct e; cbn [shapes];
    try (apply IH; intros Hin; apply Hnot; right; exact Hin).
  exfalso. apply Hnot. left. reflexivity.
Qed.

Lemma prologue_is_quiet :
  scopes false false (prologue_steps self) = Some (false, false) /\
  ~ In current_set (prologue_steps self) /\
  ~ In shape_applied (prologue_steps self).
Proof.
  unfold prologue_steps.
  destruct (path self), (truthy_str (dm_command_path self)),
    (truthy_speckles (initial_speckles self));
    cbn; (split; [reflexivity|]); split; intuition discriminate.
Qed.

Lemma passes_are_scoped k :
  scopes true true (List.concat (repeat iteration_steps k)) = Some (true, true) /\
  ~ In current_set (List.concat (repeat iteration_steps k)).
Proof.
  split; [apply scopes_repeat; reflexivity|].
  intros Hin. apply in_concat in Hin. destruct Hin as (block & Hblock & Hin).
  apply repeat_spec in Hblock. subst block.
  cbn in Hin. intuition discriminate.
Qed.

(** X12: with commands of one shape and no keyword passed twice, over
    the whole experiment the scopes are respected: the laser current is set once, to
    [coron_current] when the FPM is in coronagraphic position and to
    [direct_current] otherwise, with the laser open; shapes are applied
    only while the DM controller is open and images are taken only
    while both are open; the DM controller is closed before the laser,
    and both are closed when the experiment returns. *)
Theorem experiment_keeps_its_scopes n s :
  dm_shaped tb n ->
  repeated imaging_keywords (kwargs self) = None ->
  exists w evs,
    experiment tb self s = (Ok tt, {| world := w; trace := trace s ++ evs |}) /\
    scopes false false (map kind evs) = Some (false, false) /\
    currents evs =
      [getint tb "thorlabs_source_mcls1"
              (if fpm_value_eqb (fpm_position self) coron
               then "coron_current" else "direct_current")].
Proof.
  intros Hshape Hfit.
  destruct (@experiment_around_loop W Image tb self
              (fun cmd => List.length (data cmd) = n)
              (fun _ _ _ evs => map kind evs
                                = List.concat (repeat iteration_steps
                                                      (Z.to_nat (num_iterations self)))) s)
    as (base & start & w & pro & passes & Hrun & Hpro & _ & _ & _ & Hpasses).
  { apply (@repeated_fewer imaging_keywords); [names_among|exact Hfit]. }
  { intros s0. destruct (initial_command_steps self s0 Hshape)
      as (cmd & name & w & evs & H & Hk & Hs & Hl).
    exists cmd, name, w, evs. auto. }
  { intros base name esn cmd s0 Hl.
    destruct (loop_steps self base name esn Hfit Hshape (range (num_iterations self))
                {| current_command_object := cmd;
                   auto_exposure_time := exposure_time self |} s0 Hl)
      as (l' & w & evs & H & Hk & _).
    exists l', w, evs. split; [exact H|].
    rewrite Hk, range_values, length_map, length_seq. reflexivity. }
  destruct prologue_is_quiet as (Hq1 & Hq2 & _).
  destruct (passes_are_scoped (Z.to_nat (num_iterations self))) as (Hs1 & Hs2).
  eexists w, _. split; [exact Hrun|]. split.
  - rewrite !map_app, Hpro, Hpasses.
    rewrite scopes_app, Hq1. cbn [map kind app scopes andb negb].
    rewrite scopes_app, Hs1. reflexivity.
  - rewrite !currents_app.
    rewrite (currents_without_setting pro) by (rewrite Hpro; exact Hq2).
    rewrite (currents_without_setting passes) by (rewrite Hpasses; exact Hs2).
    reflexivity.
Qed.

(** X13: with [num_iterations] zero or negative, and [self.kwargs]
    naming none of the keywords the final imaging call passes by name,
    the experiment returns whatever the commands look like: after the
    prologue it opens the
    laser, sets the current, opens the DM controller, takes the final
    images and closes both.  The starting command is built but no shape
    is applied to the DM. *)
Theorem experiment_without_passes s :
  (num_iterations self <= 0)%Z ->
  repeated ["centering"; "lyot_stop_position"; "path"; "exposure_set_name";
            "filename"; "simulator"]%string (kwargs self) = None ->
  exists w evs,
    experiment tb self s = (Ok tt, {| world := w; trace := trace s ++ evs |}) /\
    map kind evs =
      prologue_steps self
        ++ [laser_opened; current_set; dm_opened; images_taken; dm_closed; laser_closed] /\
    shapes evs = [].
Proof.
  intros Hzero Hfinal.
  destruct (@experiment_around_loop W Image tb self (fun _ => True)
              (fun _ _ _ evs => evs = []) s)
    as (base & start & w & pro & passes & Hrun & Hpro & _ & _ & _ & Hpasses).
  { exact Hfinal. }
  { intros s0. pose proof (initial_command_run tb self s0) as H. cbv zeta in H.
    rewrite H. clear H.
    destruct (truthy_str (dm_command_path self)).
    - destruct (load_dm_command tb (world s0) _ _ _) as [cmd w]. cbn [fst snd].
      eexists cmd, _, w, _. split; [reflexivity|].
      destruct (truthy_speckles (initial_speckles self)); auto.
    - destruct (truthy_speckles (initial_speckles self)).
      + destruct (sin_command tb _ _ _ _) as [cmd name].
        eexists cmd, name, (world s0), _. split; [reflexivity|]. auto.
      + destruct (flat_command tb _ _) as [cmd name].
        eexists cmd, name, (world s0), _. split; [reflexivity|]. auto. }
  { intros base name esn cmd s0 _.
    rewrite range_values. replace (Z.to_nat (num_iterations self)) with 0%nat by lia.
    eexists _, (world s0), []. split; [|reflexivity].
    cbn [seq map for_fold]. unfold ret. rewrite app_nil_r. destruct s0; reflexivity. }
  subst passes. destruct prologue_is_quiet as (_ & _ & Hq3).
  eexists w, _. split; [exact Hrun|]. split.
  - rewrite map_app, Hpro. reflexivity.
  - rewrite !shapes_app.
    rewrite (shapes_without_applying pro) by (rewrite Hpro; exact Hq3).
    reflexivity.
Qed.

Section OnePass.

Variable base : Testbed.path.
Variables file_name exp_set_name : string.
Variable i : Z.

Lemma images_of_a_sweep A (f : A -> SinSpecification) (tag : A -> text)
      current exposure (l : list A) :
  images (List.flat_map (fun x => sweep_events tb self base exp_set_name i
                                    current exposure (f x) (tag x)) l)
  = map (fun x =>
           imaging_args self exposure (path_join (iteration_path base i) (tag x))
             exp_set_name
             (itr_name i (snd (sin_command tb (One (f x)) (Some (bias self))
                                           (Some (SpeckleNulling.flat_map self))
                                           (Some (data current)))))
             (Some false)) l.
Proof.
  induction l as [|x l IH]; [reflexivity|].
  cbn [List.flat_map map]. rewrite images_app, IH. reflexivity.
Qed.

(** The folders of the sweeps, below the folder of the iteration. *)
Lemma sweep_folders_differ :
  NoDup (map (fun phi => [Lit "phase"; Num (inject_Z phi)]) phase_list
           ++ map (fun c => [Lit "amplitude"; Num c]) amplitude_coeff_list).
Proof.
  rewrite phase_list_values, amplitude_coeff_list_values. cbn [map app].
  repeat (constructor; [cbn [In]; intuition discriminate|]).
  constructor.
Qed.

(** X14: the images of one pass through the loop body, when
    [self.kwargs] names none of the keywords the imaging calls pass by
    name.  Twenty image sets are taken, into twenty different folders: the folder of the
    iteration, and below it one folder per phase and one per amplitude.
    All are taken with the exposure time the dark zone test of this pass
    returned, with automatic exposure switched off and under the set name
    of the experiment.  Folders of different iterations differ. *)
Theorem pass_fills_its_own_folders l s :
  repeated imaging_keywords (kwargs self) = None ->
  exists exposure evs,
    trace (snd (iteration tb self base file_name exp_set_name i l s)) = trace s ++ evs /\
    In (TestDarkZoneIntensity (auto_exposure_time l) 2 exposure) evs /\
    map img_path (images evs) =
      iteration_path base i
        :: map (fun phi => path_join (iteration_path base i)
                                     [Lit "phase"; Num (inject_Z phi)]) phase_list
        ++ map (fun c => path_join (iteration_path base i)
                                   [Lit "amplitude"; Num c]) amplitude_coeff_list /\
    List.length (images evs) = 20%nat /\
    NoDup (map img_path (images evs)) /\
    Forall (fun a => img_exposure_time a = exposure /\
                     img_auto_exposure_time a = Some false /\
                     img_exposure_set_name a = Some exp_set_name /\
                     firstn (List.length base + 1) (img_path a) = iteration_path base i)
           (images evs) /\
    (forall j, iteration_path base i = iteration_path base j -> i = j).
Proof.
  intros Hfit.
  destruct (iteration_run tb self base file_name exp_set_name i l s Hfit)
    as (nc & ang & ptv & new_phase & new_amp & w & H).
  cbv zeta in H.
  set (exposure :=
         fst (test_dark_zone_intensity tb
                (dm_apply_shape tb (world s) (current_command_object l) 1)
                (auto_exposure_time l) 2 (fpm_position self) (lyot_stop_position self)
                (centering self))) in H.
  rewrite H. cbn [snd trace].
  eexists exposure, _. split; [reflexivity|].
  split; [right; left; reflexivity|].
  match goal with
  | |- context [images ?e] =>
      assert (Himg : images e =
        imaging_args self exposure (iteration_path base i) exp_set_name
                     (itr_name i file_name) None
        :: map (fun phi =>
             imaging_args self exposure
               (path_join (iteration_path base i) [Lit "phase"; Num (inject_Z phi)])
               exp_set_name
               (itr_name i (snd (sin_command tb
                  (One {| angle := ang; ncycles := nc; peak_to_valley := ptv;
                          phase := inject_Z phi |})
                  (Some (bias self)) (Some (SpeckleNulling.flat_map self))
                  (Some (data (current_command_object l))))))
               (Some false)) phase_list
        ++ map (fun c =>
             imaging_args self exposure
               (path_join (iteration_path base i) [Lit "amplitude"; Num c])
               exp_set_name
               (itr_name i (snd (sin_command tb
                  (One {| angle := ang; ncycles := nc; peak_to_valley := scale ptv c;
                          phase := new_phase |})
                  (Some (bias self)) (Some (SpeckleNulling.flat_map self))
                  (Some (data (current_command_object l))))))
               (Some false)) amplitude_coeff_list)
  end.
  { rewrite !images_app, !images_of_a_sweep. cbn [images app].
    rewrite app_nil_r. reflexivity. }
  rewrite Himg. clear Himg H.
  assert (Hlen : List.length (iteration_path base i) = (List.length base + 1)%nat).
  { unfold iteration_path, path_join. rewrite length_app. reflexivity. }
  assert (Hpaths : forall A (f : A -> text) (g : A -> text) (xs : list A),
             map img_path
               (map (fun x => imaging_args self exposure
                                (path_join (iteration_path base i) (f x))
                                exp_set_name (g x) (Some false)) xs)
             = map (fun x => path_join (iteration_path base i) (f x)) xs).
  { intros. rewrite map_map. reflexivity. }
  cbn [map]. rewrite map_app, !Hpaths.
  change (img_path (imaging_args self exposure (iteration_path base i) exp_set_name
                                 (itr_name i file_name) None))
    with (iteration_path base i).
  split; [reflexivity|].
  split.
  { cbn [List.length]. rewrite length_app, !length_map.
    rewrite phase_list_values, amplitude_coeff_list_values. reflexivity. }
  split.
  { constructor.
    - intros Hin. apply in_app_or in Hin.
      destruct Hin as [Hin|Hin]; apply in_map_iff in Hin; destruct Hin as (x & Hx & _);
        apply (f_equal (@List.length _)) in Hx; unfold path_join in Hx;
        rewrite length_app in Hx; cbn in Hx; lia.
    - rewrite <- (map_map (fun phi => [Lit "phase"; Num (inject_Z phi)])
                          (fun t => path_join (iteration_path base i) t)).
      rewrite <- (map_map (fun c => [Lit "amplitude"; Num c])
                          (fun t => path_join (iteration_path base i) t)).
      rewrite <- map_app. apply NoDup_map_NoDup_ForallPairs; [|exact sweep_folders_differ].
      intros t t' _ _ Heq. unfold path_join in Heq.
      apply app_inv_head in Heq. congruence. }
  split.
  { constructor.
    - cbn. repeat split. rewrite <- Hlen. apply firstn_all.
    - apply Forall_app. split; apply Forall_forall; intros a Hin;
        apply in_map_iff in Hin; destruct Hin as (x & <- & _); cbn;
        (repeat split); unfold path_join; rewrite <- Hlen;
        rewrite firstn_app, firstn_all, Nat.sub_diag; cbn [firstn];
        apply app_nil_r. }
  intros j Hj. unfold iteration_path, path_join in Hj.
  apply app_inv_head in Hj. injection Hj as Hj. exact Hj.
Qed.

(** X21: a key of [self.kwargs] that an imaging call of the loop also
    passes by name stops the pass with a [TypeError].  When the key is
    one the first call passes ([lyot_stop_position], [centering],
    [path], [auto_exposure_time], [exposure_set_name], [filename]) the
    pass stops there: the command was applied and the dark zone tested,
    no image was taken.  Otherwise the key is [simulator], and the pass
    stops at the first image of the phase sweep: the images of the
    iteration were taken, speckles sensed, and the sine command for
    phase 0 built and applied. *)
Theorem keyword_passed_twice_stops_the_pass l s k :
  repeated imaging_keywords (kwargs self) = Some k ->
  let first_call :=
    repeated ["lyot_stop_position"; "centering"; "path"; "auto_exposure_time";
              "exposure_set_name"; "filename"]%string (kwargs self) in
  exists w evs,
    iteration tb self base file_name exp_set_name i l s
    = (Raise (TypeError match first_call with Some k' => k' | None => k end),
       {| world := w; trace := trace s ++ evs |}) /\
    map kind evs =
      match first_call with
      | Some _ => [shape_applied; dark_zone_tested]
      | None => [shape_applied; dark_zone_tested; images_taken; speckles_sensed;
                 sine_built; shape_applied]
      end /\
    (first_call = None -> k = "simulator"%string).
Proof.
  intros Hk first_call.
  assert (Hsim : first_call = None -> k = "simulator"%string).
  { intros Hnone. unfold repeated in Hk.
    destruct (find _ (kwargs self)) as [item|] eqn:E; [|discriminate].
    injection Hk as <-. apply find_some in E. destruct E as [Hin Hex].
    apply existsb_exists in Hex. destruct Hex as (name & Hname & Heq).
    apply String.eqb_eq in Heq. rewrite Heq.
    pose proof (proj1 (repeated_none _ _) Hnone item Hin) as Hnot. rewrite Heq in Hnot.
    unfold imaging_keywords in Hname. cbn [In] in Hname, Hnot.
    intuition congruence. }
  unfold iteration.
  unfold apply_shape, build_sin, note, called_, called, ret, bind.
  cbv beta. cbn [world trace].
  destruct (test_dark_zone_intensity tb _ _ _ _ _ _) as [exposure w1].
  cbn [fst world trace].
  unfold imaging_call_with at 1. cbn [imaging_args img_kwargs]. fold first_call.
  destruct first_call as [k'|] eqn:Efirst.
  - unfold raise. eexists w1, _. split; [rewrite <- app_assoc; reflexivity|].
    split; [reflexivity|]. exact Hsim.
  - unfold imaging_call, called. cbn [world trace].
    destruct (run_hicat_imaging tb w1 _) as [image w2].
    cbn [world trace].
    destruct (speckle_sensing tb w2 _) as [[[nc ang] ptv] w3]. cbn [fst snd].
    unfold phase_sweep. rewrite phase_list_values. cbn [for_each].
    unfold build_sin, apply_shape, note, called_, called, ret, bind.
    cbn [world trace].
    destruct (sin_command tb _ _ _ _) as [new_command name].
    cbn [fst snd world trace].
    unfold imaging_call_with. cbn [imaging_args img_kwargs].
    assert (Hphase : repeated ["lyot_stop_position"; "path"; "auto_exposure_time";
                               "centering"; "exposure_set_name"; "filename";
                               "simulator"]%string (kwargs self) = Some k).
    { rewrite <- Hk. apply repeated_same_names.
      intros key. unfold imaging_keywords. cbn [In]. tauto. }
    rewrite Hphase. unfold raise.
    eexists _, _. split.
    + rewrite <- !app_assoc. reflexivity.
    + split; [reflexivity|exact Hsim].
Qed.

End OnePass.

(** X22: with [num_iterations] zero or negative and a key of
    [self.kwargs] that the final imaging call also passes by name
    ([centering], [lyot_stop_position], [path], [exposure_set_name],
    [filename], [simulator]), the experiment raises a [TypeError] for
    the first such key.  It has run the prologue, opened the laser, set
    the current and opened the DM controller; it takes no image, and
    closes the DM controller and the laser before the exception leaves. *)
Theorem keyword_passed_twice_stops_the_final_image s k :
  (num_iterations self <= 0)%Z ->
  repeated ["centering"; "lyot_stop_position"; "path"; "exposure_set_name";
            "filename"; "simulator"]%string (kwargs self) = Some k ->
  exists w evs,
    experiment tb self s = (Raise (TypeError k), {| world := w; trace := trace s ++ evs |}) /\
    map kind evs =
      prologue_steps self
        ++ [laser_opened; current_set; dm_opened; dm_closed; laser_closed] /\
    images evs = [] /\
    scopes false false (map kind evs) = Some (false, false).
Proof.
  intros Hzero Hk. unfold experiment.
  assert (Hbase : exists base w0 evs0,
             match path self with
             | Some p => ret p
             | None =>
                 called (fun w => create_data_path tb w
                                    match suffix self with
                                    | Some x => ("speckle_nulling" ++ "_" ++ x)%string
                                    | None => "speckle_nulling"%string
                                    end)
                        (CreateDataPath
                           match suffix self with
                           | Some x => ("speckle_nulling" ++ "_" ++ x)%string
                           | None => "speckle_nulling"%string
                           end)
             end s = (Ok base, {| world := w0; trace := trace s ++ evs0 |}) /\
             map kind evs0 = match path self with
                             | None => [data_path_created]
                             | Some _ => []
                             end /\
             images evs0 = []).
  { destruct (path self) as [p|].
    - exists p, (world s), []. rewrite app_nil_r. destruct s; auto.
    - unfold called. destruct (create_data_path tb (world s) _) as [p w0].
      eexists p, w0, [_]. auto. }
  destruct Hbase as (base & w0 & evs0 & H0 & Hk0 & Hi0).
  rewrite (bind_ok _ _ _ H0).
  assert (Hinit : exists cmd name w1 evs1,
             initial_command tb self {| world := w0; trace := trace s ++ evs0 |}
             = (Ok (cmd, name), {| world := w1; trace := (trace s ++ evs0) ++ evs1 |}) /\
             map kind evs1 =
               (if truthy_str (dm_command_path self)
                then command_loaded
                       :: (if truthy_speckles (initial_speckles self) then [printed] else [])
                else if truthy_speckles (initial_speckles self) then [sine_built]
                     else [flat_built]) /\
             images evs1 = []).
  { pose proof (initial_command_run tb self {| world := w0; trace := trace s ++ evs0 |}) as H.
    cbv zeta in H. rewrite H. clear H. cbn [world trace].
    destruct (truthy_str (dm_command_path self)).
    - destruct (load_dm_command tb w0 _ _ _) as [cmd w]. cbn [fst snd].
      eexists cmd, _, w, _. split; [reflexivity|].
      destruct (truthy_speckles (initial_speckles self)); auto.
    - destruct (truthy_speckles (initial_speckles self)).
      + destruct (sin_command tb _ _ _ _) as [cmd name].
        eexists cmd, name, w0, _. split; [reflexivity|]. auto.
      + destruct (flat_command tb _ _) as [cmd name].
        eexists cmd, name, w0, _. split; [reflexivity|]. auto. }
  destruct Hinit as (cmd & name & w1 & evs1 & H1 & Hk1 & Hi1).
  rewrite (bind_ok _ _ _ H1).
  rewrite range_values. replace (Z.to_nat (num_iterations self)) with 0%nat by lia.
  cbn [seq map for_fold].
  destruct (fpm_value_eqb (fpm_position self) coron);
    unfold with_laser_source, with_dm_controller, with_, set_current,
      imaging_call_with, called_, called, ret, raise, bind;
    cbn [world trace img_kwargs]; rewrite Hk;
    eexists _, (evs0 ++ evs1 ++ [LaserOpen; LaserSetCurrent _; DmOpen; DmClose; LaserClose]).
  all: cbn [world trace].
  all: split; [repeat rewrite <- app_assoc; reflexivity|].
  all: unfold prologue_steps.
  all: rewrite !map_app, !images_app, Hk0, Hk1, Hi0, Hi1.
  all: split; [repeat rewrite <- app_assoc; reflexivity|].
  all: split; [reflexivity|].
  all: destruct (path self), (truthy_str (dm_command_path self)),
         (truthy_speckles (initial_speckles self)); reflexivity.
Qed.

End SpeckleNullingMore.

(** ** On the paper benches *)

Lemma modest_well_indexed : PastisScan.well_indexed PastisScan.modest.
Proof.
  unfold PastisScan.well_indexed. cbn. split; [lia|]. split; [|lia].
  repeat constructor.
Defined.

(** Three amplitudes of mode 0 on the paper bench: three contrasts. *)
Lemma scan_measures_every_amplitude_witness :
  PastisScan.well_indexed PastisScan.modest
  /\ (1 # 1000000 < PastisModeAmplitudes.c_target PastisScan.modest)%Q
  /\ exists contrasts,
      fst (PastisModeAmplitudes.experiment PastisModeAmplitudes.paper PastisScan.modest
             (PastisModeAmplitudes.__init__ 0%nat)) = Ok tt
      /\ PastisModeAmplitudes.measured_contrast
           (snd (PastisModeAmplitudes.experiment PastisModeAmplitudes.paper PastisScan.modest
                   (PastisModeAmplitudes.__init__ 0%nat))) = contrasts
      /\ List.length contrasts = 3%nat.
Proof.
  split; [exact modest_well_indexed|].
  split; [reflexivity|].
  destruct (@scan_measures_every_amplitude nat PastisModeAmplitudes.paper PastisScan.modest
              (PastisModeAmplitudes.__init__ 0%nat) modest_well_indexed eq_refl)
    as (contrasts & w & E & Hlen).
  exists contrasts. split; [exact (f_equal fst E)|]. split; [|exact Hlen].
  exact (f_equal (fun x => PastisModeAmplitudes.measured_contrast (snd x)) E).
Defined.

(** Mode 5 of a table with one mode. *)
Lemma missing_mode_stops_the_scan_witness :
  (Z.of_nat (List.length (PastisModeAmplitudes.mode_weights PastisScan.off_the_table))
   <= PastisModeAmplitudes.mode_number PastisScan.off_the_table)%Z
  /\ (1 # 1000000 < PastisModeAmplitudes.c_target PastisScan.off_the_table)%Q
  /\ fst (PastisModeAmplitudes.experiment PastisModeAmplitudes.paper PastisScan.off_the_table
            (PastisModeAmplitudes.__init__ 0%nat)) = Raise IndexError
  /\ PastisModeAmplitudes.measured_contrast
       (snd (PastisModeAmplitudes.experiment PastisModeAmplitudes.paper
               PastisScan.off_the_table (PastisModeAmplitudes.__init__ 0%nat))) = [].
Proof.
  assert (Hout : (Z.of_nat (List.length
                    (PastisModeAmplitudes.mode_weights PastisScan.off_the_table))
                  <= PastisModeAmplitudes.mode_number PastisScan.off_the_table)%Z)
    by (cbn; lia).
  split; [exact Hout|]. split; [reflexivity|].
  pose proof (@missing_mode_stops_the_scan nat PastisModeAmplitudes.paper
                PastisScan.off_the_table (PastisModeAmplitudes.__init__ 0%nat)
                1 [2; 3] (or_intror Hout) eq_refl eq_refl) as E.
  split.
  - exact (f_equal fst E).
  - exact (f_equal (fun x => PastisModeAmplitudes.measured_contrast (snd x)) E).
Defined.

(** The default experiment on the paper testbed. *)
Lemma experiment_keeps_its_scopes_witness :
  Testbed.dm_shaped Testbed.paper 2
  /\ Testbed.repeated SpeckleNulling.imaging_keywords
                      (SpeckleNulling.kwargs SpeckleNulling.defaults) = None
  /\ exists w evs,
      SpeckleNulling.experiment Testbed.paper SpeckleNulling.defaults (Testbed.start 0)
      = (Ok tt, {| Testbed.world := w;
                   Testbed.trace := Testbed.trace (Testbed.start 0) ++ evs |}) /\
      Traces.scopes false false (map Testbed.kind evs) = Some (false, false) /\
      Traces.currents evs =
        [Testbed.getint Testbed.paper "thorlabs_source_mcls1" "coron_current"].
Proof.
  split; [exact paper_shaped|]. split; [exact defaults_fit|].
  exact (@experiment_keeps_its_scopes nat unit Testbed.paper SpeckleNulling.defaults 2
           (Testbed.start 0) paper_shaped defaults_fit).
Defined.

Lemma without_loop_has_no_pass :
  (SpeckleNulling.num_iterations SpeckleRuns.without_loop <= 0)%Z.
Proof. cbn. lia. Defined.

(** No pass at all on the paper testbed. *)
Lemma experiment_without_passes_witness :
  (SpeckleNulling.num_iterations SpeckleRuns.without_loop <= 0)%Z
  /\ Testbed.repeated ["centering"; "lyot_stop_position"; "path"; "exposure_set_name";
                       "filename"; "simulator"]%string
                      (SpeckleNulling.kwargs SpeckleRuns.without_loop) = None
  /\ exists w evs,
      SpeckleNulling.experiment Testbed.paper SpeckleRuns.without_loop (Testbed.start 0)
      = (Ok tt, {| Testbed.world := w;
                   Testbed.trace := Testbed.trace (Testbed.start 0) ++ evs |}) /\
      map Testbed.kind evs =
        SpeckleNulling.prologue_steps SpeckleRuns.without_loop
          ++ [Testbed.laser_opened; Testbed.current_set; Testbed.dm_opened;
              Testbed.images_taken; Testbed.dm_closed; Testbed.laser_closed] /\
      Traces.shapes evs = [].
Proof.
  split; [exact without_loop_has_no_pass|]. split; [reflexivity|].
  exact (@experiment_without_passes nat unit Testbed.paper SpeckleRuns.without_loop
           (Testbed.start 0) without_loop_has_no_pass eq_refl).
Defined.

(** The first pass of the default experiment on paper: twenty image
    sets. *)
Lemma pass_fills_its_own_folders_witness :
  Testbed.repeated SpeckleNulling.imaging_keywords
                   (SpeckleNulling.kwargs SpeckleNulling.defaults) = None
  /\ exists evs,
      Testbed.trace
        (snd (SpeckleNulling.iteration Testbed.paper SpeckleNulling.defaults
                [[Lit "data"]] "sin" "coron" 0 SpeckleNulling.on_paper (Testbed.start 0)))
      = Testbed.trace (Testbed.start 0) ++ evs /\
      List.length (Traces.images evs) = 20%nat /\
      NoDup (map Testbed.img_path (Traces.images evs)).
Proof.
  split; [exact defaults_fit|].
  destruct (@pass_fills_its_own_folders nat unit Testbed.paper SpeckleNulling.defaults
              [[Lit "data"]] "sin" "coron" 0 SpeckleNulling.on_paper (Testbed.start 0)
              defaults_fit)
    as (exposure & evs & Hrun & _ & _ & Hlen & Hdup & _).
  exists evs. split; [exact Hrun|]. split; [exact Hlen|exact Hdup].
Defined.

(** ** The data sets of modules/general.py *)

Lemma pairs_app a b : Traces.pairs (a ++ b) = Traces.pairs a ++ Traces.pairs b.
Proof.
  induction a as [|e a IH]; [reflexivity|].
  destruct e; cbn [app Traces.pairs]; rewrite IH; reflexivity.
Qed.

(** Reading a trace made of blocks, block by block. *)
Lemma view_of_blocks E A B (view : list E -> list B) (g : A -> list B)
      (l : list A) (blocks : list (list E)) :
  (forall a b, view (a ++ b) = view a ++ view b) ->
  view [] = [] ->
  Forall2 (fun x evs => view evs = g x) l blocks ->
  view (List.concat blocks) = List.flat_map g l.
Proof.
  intros Happ Hnil H. induction H as [|x evs l blocks Hx _ IH]; [exact Hnil|].
  cbn [List.concat List.flat_map]. rewrite Happ, Hx, IH. reflexivity.
Qed.

Lemma scopes_of_blocks (blocks : list (list Testbed.event)) :
  Forall (fun evs => Traces.scopes false false (map Testbed.kind evs) = Some (false, false))
         blocks ->
  Traces.scopes false false (map Testbed.kind (List.concat blocks)) = Some (false, false).
Proof.
  induction 1 as [|evs blocks Hx _ IH]; [reflexivity|].
  cbn [List.concat]. rewrite map_app, scopes_app, Hx. exact IH.
Qed.

Lemma Forall2_in_r A B (P : A -> B -> Prop) (l : list A) (l' : list B) (y : B) :
  Forall2 P l l' -> In y l' -> exists x, In x l /\ P x y.
Proof.
  induction 1 as [|x y' l l' Hxy _ IH]; intros Hin; [destruct Hin|].
  destruct Hin as [<-|Hin].
  - exists x. split; [left; reflexivity|exact Hxy].
  - destruct (IH Hin) as (x' & Hx' & HP). exists x'. split; [right; exact Hx'|exact HP].
Qed.

Section DataSetsFacts.

Import Testbed General DataSets Traces.

Variables W Image : Type.
Variable tb : testbed W Image.
Variables basename dirname : string -> string.
Variable load_dm_command_as : W -> string -> bool -> bool -> Z -> bool -> DmCommand * W.

(** A loop whose body always returns leaves one block of events per
    item. *)
Lemma for_each_blocks A (l : list A) (body : A -> M (state W) unit)
      (P : A -> list event -> Prop) :
  (forall x s, exists w evs,
      body x s = (Ok tt, {| world := w; trace := trace s ++ evs |}) /\ P x evs) ->
  forall s, exists w blocks,
    for_each l body s = (Ok tt, {| world := w; trace := trace s ++ List.concat blocks |}) /\
    Forall2 P l blocks.
Proof.
  intros Hbody. induction l as [|x l IH]; intros s.
  - exists (world s), []. cbn. rewrite app_nil_r. destruct s; auto.
  - destruct (Hbody x s) as (w1 & evs1 & H1 & HP).
    destruct (IH {| world := w1; trace := trace s ++ evs1 |}) as (w2 & blocks & H2 & HF).
    exists w2, (evs1 :: blocks).
    cbn [for_each]. rewrite (bind_ok _ _ _ H1), H2. cbn [trace List.concat].
    rewrite app_assoc. auto.
Qed.

(** [take_exposures] into a given folder under a given set name. *)
Lemma take_exposures_into dm1 dm2 e n cam (cor pipe : bool) p name set_name suffix cen kw
      (s : state W) :
  exists image w,
    take_exposures tb dm1 dm2 e n cam cor pipe (Some p) name (Some set_name) suffix cen kw s
    = (Ok image,
       {| world := w;
          trace := trace s
                     ++ exposure_events tb dm1 dm2 e n cam cor pipe p name set_name cen kw |}).
Proof.
  unfold take_exposures, with_laser_source, with_dm_controller, with_, imaging_call,
    apply_shape_to_both, set_current, called_, called, bind, ret.
  destruct cor; cbn [world trace];
    match goal with
    | |- context [run_hicat_imaging tb ?w ?a] =>
        destruct (run_hicat_imaging tb w a) as [image w']
    end;
    cbn [world trace]; eexists image, _; unfold exposure_events;
    repeat rewrite <- app_assoc; reflexivity.
Qed.

Lemma exposure_events_steps dm1 dm2 e n cam cor pipe p name set_name cen kw :
  map kind (exposure_events tb dm1 dm2 e n cam cor pipe p name set_name cen kw)
  = exposure_steps.
Proof. reflexivity. Qed.

(** The direct set and the coron set of one pair of commands. *)
Lemma both_sets_run dm1 dm2 direct_t coron_t n cam pipe p name cen kw (s : state W) :
  exists w,
    (take_exposures tb dm1 dm2 direct_t n cam false pipe (Some p) name
                    (Some "direct"%string) None (Some psf) kw ;;
     take_exposures tb dm1 dm2 coron_t n cam true pipe (Some p) name
                    (Some "coron"%string) None (Some cen) kw ;;
     ret tt) s
    = (Ok tt,
       {| world := w;
          trace := trace s
            ++ exposure_events tb dm1 dm2 direct_t n cam false pipe p name "direct"
                               (Some psf) kw
            ++ exposure_events tb dm1 dm2 coron_t n cam true pipe p name "coron"
                               (Some cen) kw |}).
Proof.
  destruct (take_exposures_into dm1 dm2 direct_t n cam false pipe p name "direct" None
                                (Some psf) kw s) as (i1 & w1 & H1).
  rewrite (bind_ok _ _ _ H1).
  match goal with
  | |- context [bind _ _ ?s1] =>
      destruct (take_exposures_into dm1 dm2 coron_t n cam true pipe p name "coron" None
                                    (Some cen) kw s1) as (i2 & w2 & H2)
  end.
  rewrite (bind_ok _ _ _ H2). exists w2. unfold ret. cbn [trace].
  rewrite <- app_assoc. reflexivity.
Qed.

(** With no key of [kw] in the way, the call is the function. *)
Lemma call_take_exposures_fits dm1 dm2 e n cam (cor pipe : bool) p name set_name cen kw
      (s : state W) :
  repeated ("centering"%string :: take_exposures_parameters) kw = None ->
  call_take_exposures tb dm1 dm2 e n cam cor pipe p name set_name cen kw s
  = take_exposures tb dm1 dm2 e n cam cor pipe (Some p) name (Some set_name) None
                   (Some cen) kw s.
Proof.
  intros Hfit. unfold call_take_exposures.
  assert (H1 : repeated ["centering"%string] kw = None).
  { apply (@repeated_fewer ("centering"%string :: take_exposures_parameters));
      [|exact Hfit].
    intros k [<-|[]]. left. reflexivity. }
  assert (H2 : repeated take_exposures_parameters kw = None).
  { apply (@repeated_fewer ("centering"%string :: take_exposures_parameters));
      [|exact Hfit].
    intros k Hk. right. exact Hk. }
  rewrite H1, H2. reflexivity.
Qed.

(** The trace of [take_coffee_data_set]: a block per command file. *)
Lemma take_coffee_data_set_run
      dm2_command_list path exp_set_name coron_exp_time direct_exp_time
      num_exposures dm1_command_object camera_type centering pipeline kw (s : state W) :
  repeated ("centering"%string :: take_exposures_parameters) kw = None ->
  exists w blocks,
    take_coffee_data_set tb basename dirname load_dm_command_as dm2_command_list path
      exp_set_name coron_exp_time direct_exp_time num_exposures dm1_command_object
      camera_type centering pipeline kw s
    = (Ok tt, {| world := w; trace := trace s ++ List.concat blocks |}) /\
    Forall2
      (fun command evs =>
         exists w0,
           let dm2 := fst (load_dm_command_as w0 command false false 2 true) in
           let name := basename (dirname command) in
           let folder := path_join (path_join path [Lit exp_set_name]) [Lit name] in
           evs = LoadDmCommand command false false
                   :: exposure_events tb dm1_command_object dm2 direct_exp_time
                        num_exposures camera_type false pipeline folder [Lit name]
                        "direct" (Some psf) kw
                   ++ exposure_events tb dm1_command_object dm2 coron_exp_time
                        num_exposures camera_type true pipeline folder [Lit name]
                        "coron" (Some centering) kw)
      dm2_command_list blocks.
Proof.
  intros Hfit. unfold take_coffee_data_set.
  apply for_each_blocks.
  intros command s0. unfold load, called. cbv zeta.
  unfold bind at 1.
  destruct (load_dm_command_as (world s0) command false false 2 true) as [dm2 w1] eqn:El.
  match goal with
  | |- context [bind _ _ ?s1] =>
      destruct (both_sets_run dm1_command_object dm2 direct_exp_time coron_exp_time
                  num_exposures camera_type pipeline
                  (path_join (path_join path [Lit exp_set_name])
                             [Lit (basename (dirname command))])
                  [Lit (basename (dirname command))] centering kw s1) as (w2 & H2)
  end.
  eexists w2, _. split.
  - refine (eq_trans _ (eq_trans H2 _)).
    + unfold bind.
      rewrite call_take_exposures_fits by exact Hfit.
      destruct (take_exposures tb dm1_command_object dm2 direct_exp_time num_exposures
                  camera_type false pipeline _ _ _ _ _ kw _) as [[image|e] s2];
        [|reflexivity].
      rewrite call_take_exposures_fits by exact Hfit. reflexivity.
    + cbn [trace]. rewrite <- app_assoc. reflexivity.
  - exists (world s0). rewrite El. reflexivity.
Qed.

(** X15: when [kwargs] has no key [centering] and none that names a
    parameter [take_exposures] gets by position, [take_coffee_data_set]
    returns.  For each DM2 command file, in order, it loads the command (no bias, no flat map, DM 2, as volts)
    and takes two image sets with it and the one DM1 command: the direct
    set, with the FPM out, the direct exposure time and PSF centering
    whatever centering was asked for, then the coron set, with the FPM
    in, the coron exposure time and the centering asked for.  Both go
    into [path/exp_set_name/name] under the file name [name], the name
    of the folder the command file is in.  The laser and the DM
    controller are opened and closed around each set. *)
Theorem coffee_data_set_takes_both_sets
        dm2_command_list path exp_set_name coron_exp_time direct_exp_time
        num_exposures dm1_command_object camera_type centering pipeline kw (s : state W) :
  repeated ("centering"%string :: take_exposures_parameters) kw = None ->
  exists w blocks,
    take_coffee_data_set tb basename dirname load_dm_command_as dm2_command_list path
      exp_set_name coron_exp_time direct_exp_time num_exposures dm1_command_object
      camera_type centering pipeline kw s
    = (Ok tt, {| world := w; trace := trace s ++ List.concat blocks |}) /\
    Forall2
      (fun command evs =>
         exists w0,
           let dm2 := fst (load_dm_command_as w0 command false false 2 true) in
           let name := basename (dirname command) in
           let folder := path_join (path_join path [Lit exp_set_name]) [Lit name] in
           evs = LoadDmCommand command false false
                   :: exposure_events tb dm1_command_object dm2 direct_exp_time
                        num_exposures camera_type false pipeline folder [Lit name]
                        "direct" (Some psf) kw
                   ++ exposure_events tb dm1_command_object dm2 coron_exp_time
                        num_exposures camera_type true pipeline folder [Lit name]
                        "coron" (Some centering) kw)
      dm2_command_list blocks /\
    scopes false false (map kind (List.concat blocks)) = Some (false, false) /\
    List.length (images (List.concat blocks)) = (2 * List.length dm2_command_list)%nat.
Proof.
  intros Hfit.
  destruct (@take_coffee_data_set_run dm2_command_list path exp_set_name coron_exp_time
              direct_exp_time num_exposures dm1_command_object camera_type centering
              pipeline kw s Hfit) as (w & blocks & Hrun & Hblocks).
  exists w, blocks. split; [exact Hrun|]. split; [exact Hblocks|]. split.
  - apply scopes_of_blocks.
    clear Hrun. induction Hblocks as [|c evs l bl (w0 & Hc) _ IH]; constructor; auto.
    cbv zeta in Hc. subst evs. reflexivity.
  - rewrite <- (length_map (fun _ : imaging => tt) (images (List.concat blocks))).
    rewrite (@view_of_blocks _ _ _ (fun evs => map (fun _ : imaging => tt) (images evs))
               (fun _ => [tt; tt]) dm2_command_list blocks).
    + clear. induction dm2_command_list as [|c l IH]; [reflexivity|].
      cbn [List.flat_map app List.length]. rewrite IH. lia.
    + intros a b. rewrite images_app, map_app. reflexivity.
    + reflexivity.
    + clear Hrun. induction Hblocks as [|c evs l bl (w0 & Hc) _ IH]; constructor; auto.
      cbv zeta in Hc. subst evs. reflexivity.
Qed.

(** X23: a key of [kwargs] named [centering], or named after a
    parameter that [take_exposures] gets by position, makes
    [take_coffee_data_set] raise a [TypeError] at its first call of
    [take_exposures]: the first command file has been loaded, the laser
    was not opened and no image was taken.  With no command file there
    is no call, and the function returns whatever the keywords are. *)
Theorem keyword_bound_twice_stops_the_data_set
        first others path exp_set_name coron_exp_time direct_exp_time
        num_exposures dm1_command_object camera_type centering pipeline kw k
        (s : state W) :
  repeated ["centering"%string] kw = Some k \/
  (repeated ["centering"%string] kw = None /\
   repeated take_exposures_parameters kw = Some k) ->
  take_coffee_data_set tb basename dirname load_dm_command_as (first :: others) path
    exp_set_name coron_exp_time direct_exp_time num_exposures dm1_command_object
    camera_type centering pipeline kw s
  = (Raise (TypeError k),
     {| world := snd (load_dm_command_as (world s) first false false 2 true);
        trace := trace s ++ [LoadDmCommand first false false] |})
  /\ take_coffee_data_set tb basename dirname load_dm_command_as [] path
       exp_set_name coron_exp_time direct_exp_time num_exposures dm1_command_object
       camera_type centering pipeline kw s
     = (Ok tt, s).
Proof.
  intros Hk. split; [|reflexivity].
  unfold take_coffee_data_set. cbn [for_each].
  unfold load, called, bind. cbv zeta.
  destruct (load_dm_command_as (world s) first false false 2 true) as [dm2 w1].
  cbn [snd]. unfold call_take_exposures, raise.
  destruct Hk as [Hc|[Hc Hp]].
  - rewrite Hc. reflexivity.
  - rewrite Hc, Hp. reflexivity.
Qed.

(** Getting the command of an item. *)
Lemma item_run (b : bool) flat dm_num otherwise (c : command_item b) (s : state W) :
  exists w,
    (if b as b0 return command_item b0 -> M (state W) (DmCommand * string)
     then fun command =>
            object <- load load_dm_command_as command false flat dm_num true ;;
            ret (object, before_dot (basename command))
     else fun command => ret (command, otherwise)) c s
    = (Ok (item_object load_dm_command_as b flat dm_num (world s) c,
           item_name basename b otherwise c),
       {| world := w; trace := trace s ++ item_events b flat c |}).
Proof.
  destruct b; cbn [item_object item_name item_events].
  - unfold load, called, bind, ret.
    destruct (load_dm_command_as (world s) c false flat dm_num true) as [object w].
    exists w. reflexivity.
  - exists (world s). unfold ret. rewrite app_nil_r. destruct s; reflexivity.
Qed.

(** Getting a command takes no image, sets no current and touches no
    scope. *)
Lemma item_events_quiet (b : bool) flat (c : command_item b) :
  images (item_events b flat c) = [] /\
  currents (item_events b flat c) = [] /\
  scopes false false (map kind (item_events b flat c)) = Some (false, false).
Proof. destruct b; repeat split. Qed.

Lemma pair_events_shots (b2 b1 : bool) (c2 : command_item b2) (c1 : command_item b1)
      path esn coron_t direct_t f2 f1 n cam cen w1 w2 :
  map shot_of (images (pair_events tb basename load_dm_command_as b2 b1 c2 c1 path esn
                         coron_t direct_t f2 f1 n cam cen w1 w2))
  = (let name := pair_name (item_name basename b1 "flats" c1)
                           (item_name basename b2 "flat" c2) in
     let folder := path_join (path_join path [Lit esn]) name in
     [(folder, name, direct, direct_t, Some psf);
      (folder, name, coron, coron_t, Some cen)]).
Proof. unfold pair_events. destruct b2; reflexivity. Qed.

Lemma pair_events_currents (b2 b1 : bool) (c2 : command_item b2) (c1 : command_item b1)
      path esn coron_t direct_t f2 f1 n cam cen w1 w2 :
  currents (pair_events tb basename load_dm_command_as b2 b1 c2 c1 path esn
              coron_t direct_t f2 f1 n cam cen w1 w2)
  = [getint tb "thorlabs_source_mcls1" "direct_current";
     getint tb "thorlabs_source_mcls1" "coron_current"].
Proof. unfold pair_events. destruct b2; reflexivity. Qed.

Lemma pair_events_scoped (b2 b1 : bool) (c2 : command_item b2) (c1 : command_item b1)
      path esn coron_t direct_t f2 f1 n cam cen w1 w2 :
  scopes false false
         (map kind (pair_events tb basename load_dm_command_as b2 b1 c2 c1 path esn
                      coron_t direct_t f2 f1 n cam cen w1 w2))
  = Some (false, false).
Proof. unfold pair_events. destruct b2; reflexivity. Qed.

Section BothLists.

Variables dm2_list_of_paths dm1_list_of_paths : bool.
Variable dm2_command_list : list (command_item dm2_list_of_paths).
Variable dm1_command_list : list (command_item dm1_list_of_paths).
Variable path : Testbed.path.
Variable exp_set_name : string.
Variables coron_exp_time direct_exp_time : quantity.
Variables dm2_flat_map dm1_flat_map : bool.
Variable num_exposures : Z.
Variable camera_type : string.
Variable centering : ImageCentering.

(** The trace of [take_exposures_both_dm_commands]: a block per DM1
    item, made of getting its command and a block per DM2 item. *)
Lemma both_dm_commands_run (s : state W) :
  exists w blocks,
    take_exposures_both_dm_commands tb basename load_dm_command_as
      dm2_list_of_paths dm1_list_of_paths dm2_command_list dm1_command_list
      path exp_set_name coron_exp_time direct_exp_time dm2_flat_map dm1_flat_map
      num_exposures camera_type centering s
    = (Ok tt, {| world := w; trace := trace s ++ List.concat blocks |}) /\
    Forall2
      (fun command1 evs1 =>
         exists w1 inner,
           evs1 = item_events dm1_list_of_paths dm1_flat_map command1
                    ++ List.concat inner /\
           Forall2
             (fun command2 evs2 =>
                exists w2,
                  evs2 = pair_events tb basename load_dm_command_as
                           dm2_list_of_paths dm1_list_of_paths command2 command1
                           path exp_set_name coron_exp_time direct_exp_time
                           dm2_flat_map dm1_flat_map num_exposures camera_type
                           centering w1 w2)
             dm2_command_list inner)
      dm1_command_list blocks.
Proof.
  unfold take_exposures_both_dm_commands.
  apply for_each_blocks. intros command1 s0.
  destruct (item_run dm1_list_of_paths dm1_flat_map 1 "flats" command1 s0) as (w1 & H1).
  rewrite (bind_ok _ _ _ H1).
  match goal with
  | |- context [for_each _ ?body ?s1] =>
      destruct (@for_each_blocks _ dm2_command_list body
                  (fun command2 evs2 =>
                     exists w2,
                       evs2 = pair_events tb basename load_dm_command_as
                                dm2_list_of_paths dm1_list_of_paths command2 command1
                                path exp_set_name coron_exp_time direct_exp_time
                                dm2_flat_map dm1_flat_map num_exposures camera_type
                                centering (world s0) w2)) with (s := s1)
        as (w & inner & Hrun & Hinner)
  end.
  { intros command2 s2.
    destruct (item_run dm2_list_of_paths dm2_flat_map 2 "flat" command2 s2) as (w2 & H2).
    rewrite (bind_ok _ _ _ H2).
    match goal with
    | |- context [bind (take_exposures tb ?dm1 ?dm2 _ _ _ _ _ (Some ?p) ?name _ _ _ _) _ ?s3] =>
        destruct (both_sets_run dm1 dm2 direct_exp_time coron_exp_time num_exposures
                                camera_type true p name centering [] s3) as (w3 & H3)
    end.
    eexists w3, _. split.
    - rewrite H3. cbn [trace]. rewrite <- app_assoc. reflexivity.
    - exists (world s2). reflexivity. }
  cbn [trace] in Hrun. rewrite <- app_assoc in Hrun.
  eexists w, _. split; [exact Hrun|].
  exists (world s0), inner. auto.
Qed.

(** Reading such a trace, pair by pair. *)
Lemma view_of_pairs B (view : list event -> list B)
      (g : command_item dm1_list_of_paths -> command_item dm2_list_of_paths -> list B)
      blocks :
  (forall a b, view (a ++ b) = view a ++ view b) ->
  view [] = [] ->
  (forall command1 command2 w1 w2,
      view (pair_events tb basename load_dm_command_as
              dm2_list_of_paths dm1_list_of_paths command2 command1
              path exp_set_name coron_exp_time direct_exp_time
              dm2_flat_map dm1_flat_map num_exposures camera_type centering w1 w2)
      = g command1 command2) ->
  Forall2
    (fun command1 evs1 =>
       exists w1 inner,
         evs1 = item_events dm1_list_of_paths dm1_flat_map command1
                  ++ List.concat inner /\
         Forall2
           (fun command2 evs2 =>
              exists w2,
                evs2 = pair_events tb basename load_dm_command_as
                         dm2_list_of_paths dm1_list_of_paths command2 command1
                         path exp_set_name coron_exp_time direct_exp_time
                         dm2_flat_map dm1_flat_map num_exposures camera_type
                         centering w1 w2)
           dm2_command_list inner)
    dm1_command_list blocks ->
  view (List.concat blocks)
  = List.flat_map
      (fun command1 =>
         view (item_events dm1_list_of_paths dm1_flat_map command1)
           ++ List.flat_map (g command1) dm2_command_list)
      dm1_command_list.
Proof.
  intros Happ Hnil Hpair Hblocks.
  apply view_of_blocks; [exact Happ|exact Hnil|].
  induction Hblocks as [|command1 evs1 l1 blocks (w1 & inner & -> & Hinner) _ IH];
    constructor; [|exact IH].
  rewrite Happ. f_equal.
  apply view_of_blocks; [exact Happ|exact Hnil|].
  clear -Hinner Hpair.
  induction Hinner as [|command2 evs2 l2 inner (w2 & ->) _ IH]; constructor; auto.
Qed.

(** X16: [take_exposures_both_dm_commands] returns, and takes two image
    sets for every pair of a DM1 item and a DM2 item, DM1 in the outer
    loop: the direct set (FPM out, direct exposure time, PSF centering)
    and then the coron set (FPM in, coron exposure time, the centering
    asked for).  Both go into [path/exp_set_name/dm1_<n1>_dm2_<n2>] under
    the file name [dm1_<n1>_dm2_<n2>], where a name is the base name of
    the file up to its first dot, or [flats] (DM1) and [flat] (DM2) for
    command objects.  The laser current alternates between the direct
    and the coron current, and the laser and the DM controller are
    opened and closed around each set. *)
Theorem both_dm_commands_cover_all_pairs (s : state W) :
  exists w evs,
    take_exposures_both_dm_commands tb basename load_dm_command_as
      dm2_list_of_paths dm1_list_of_paths dm2_command_list dm1_command_list
      path exp_set_name coron_exp_time direct_exp_time dm2_flat_map dm1_flat_map
      num_exposures camera_type centering s
    = (Ok tt, {| world := w; trace := trace s ++ evs |}) /\
    map shot_of (images evs) =
      List.flat_map
        (fun command1 =>
           List.flat_map
             (fun command2 =>
                let name := pair_name (item_name basename dm1_list_of_paths "flats" command1)
                                      (item_name basename dm2_list_of_paths "flat" command2) in
                let folder := path_join (path_join path [Lit exp_set_name]) name in
                [(folder, name, direct, direct_exp_time, Some psf);
                 (folder, name, coron, coron_exp_time, Some centering)])
             dm2_command_list)
        dm1_command_list /\
    currents evs =
      List.flat_map
        (fun _ =>
           List.flat_map
             (fun _ => [getint tb "thorlabs_source_mcls1" "direct_current";
                        getint tb "thorlabs_source_mcls1" "coron_current"])
             dm2_command_list)
        dm1_command_list /\
    scopes false false (map kind evs) = Some (false, false).
Proof.
  destruct (both_dm_commands_run s) as (w & blocks & Hrun & Hblocks).
  exists w, (List.concat blocks). split; [exact Hrun|]. split; [|split].
  - rewrite (@view_of_pairs _ (fun evs => map shot_of (images evs)) _ blocks
               (fun a b => eq_trans (f_equal (map shot_of) (images_app a b))
                                    (map_app shot_of (images a) (images b)))
               eq_refl
               (fun command1 command2 w1 w2 =>
                  pair_events_shots dm2_list_of_paths dm1_list_of_paths command2 command1
                    path exp_set_name coron_exp_time
                    direct_exp_time dm2_flat_map dm1_flat_map num_exposures camera_type
                    centering w1 w2)
               Hblocks).
    apply flat_map_ext. intros command1.
    rewrite (proj1 (item_events_quiet dm1_list_of_paths dm1_flat_map command1)). reflexivity.
  - rewrite (@view_of_pairs _ currents _ blocks currents_app eq_refl
               (fun command1 command2 w1 w2 =>
                  pair_events_currents dm2_list_of_paths dm1_list_of_paths command2 command1
                    path exp_set_name coron_exp_time
                    direct_exp_time dm2_flat_map dm1_flat_map num_exposures camera_type
                    centering w1 w2)
               Hblocks).
    apply flat_map_ext. intros command1.
    rewrite (proj1 (proj2 (item_events_quiet dm1_list_of_paths dm1_flat_map command1))). reflexivity.
  - apply scopes_of_blocks. clear Hrun.
    induction Hblocks as [|command1 evs1 l1 blocks (w1 & inner & -> & Hinner) _ IH];
      constructor; [|exact IH].
    rewrite map_app, scopes_app.
    rewrite (proj2 (proj2 (item_events_quiet dm1_list_of_paths dm1_flat_map command1))).
    apply scopes_of_blocks. clear -Hinner.
    induction Hinner as [|command2 evs2 l2 inner (w2 & ->) _ IH]; constructor; auto.
    apply pair_events_scoped.
Qed.

End BothLists.

Lemma flat_map_length_constant A B (l : list A) (block : list B) :
  List.length (List.flat_map (fun _ => block) l)
  = (List.length l * List.length block)%nat.
Proof.
  induction l as [|x l IH]; [reflexivity|].
  cbn [List.flat_map List.length]. rewrite length_app, IH. lia.
Qed.

(** X17: with lists of command objects nothing is loaded, and every
    pair of a DM1 object and a DM2 object is applied to both DMs twice,
    for its direct and its coron set, DM1 in the outer loop.  All the
    image sets, two per pair, go into the one folder
    [path/exp_set_name/dm1_flats_dm2_flat] under the one file name
    [dm1_flats_dm2_flat]. *)
Theorem command_objects_share_one_folder
        (dm2_command_list dm1_command_list : list DmCommand)
        path exp_set_name coron_exp_time direct_exp_time dm2_flat_map dm1_flat_map
        num_exposures camera_type centering (s : state W) :
  exists w evs,
    take_exposures_both_dm_commands tb basename load_dm_command_as
      false false dm2_command_list dm1_command_list
      path exp_set_name coron_exp_time direct_exp_time dm2_flat_map dm1_flat_map
      num_exposures camera_type centering s
    = (Ok tt, {| world := w; trace := trace s ++ evs |}) /\
    filter makes_command evs = [] /\
    pairs evs =
      List.flat_map
        (fun command1 =>
           List.flat_map (fun command2 => [(command1, command2); (command1, command2)])
                         dm2_command_list)
        dm1_command_list /\
    List.length (images evs)
    = (List.length dm1_command_list * (List.length dm2_command_list * 2))%nat /\
    Forall (fun a =>
              img_path a = path_join (path_join path [Lit exp_set_name])
                                     [Lit "dm1_"; Lit "flats"; Lit "_dm2_"; Lit "flat"] /\
              img_filename a = [Lit "dm1_"; Lit "flats"; Lit "_dm2_"; Lit "flat"])
           (images evs).
Proof.
  destruct (@both_dm_commands_run false false dm2_command_list dm1_command_list
              path exp_set_name coron_exp_time direct_exp_time dm2_flat_map dm1_flat_map
              num_exposures camera_type centering s) as (w & blocks & Hrun & Hblocks).
  exists w, (List.concat blocks). split; [exact Hrun|].
  pose proof (@view_of_pairs false false dm2_command_list dm1_command_list
                path exp_set_name coron_exp_time direct_exp_time dm2_flat_map dm1_flat_map
                num_exposures camera_type centering) as Hview.
  split; [|split; [|split]].
  - rewrite (Hview _ (filter makes_command) (fun _ _ => []) blocks
               (@filter_app _ makes_command) eq_refl (fun _ _ _ _ => eq_refl) Hblocks).
    clear. induction dm1_command_list as [|c1 l1 IH1]; [reflexivity|].
    cbn [List.flat_map]. rewrite IH1.
    clear. induction dm2_command_list as [|c2 l2 IH2]; [reflexivity|exact IH2].
  - rewrite (Hview _ pairs (fun c1 c2 => [(c1, c2); (c1, c2)]) blocks
               pairs_app eq_refl (fun _ _ _ _ => eq_refl) Hblocks).
    reflexivity.
  - rewrite <- (length_map shot_of (images (List.concat blocks))).
    rewrite (Hview _ (fun evs => map shot_of (images evs))
               (fun _ _ =>
                  let name := [Lit "dm1_"; Lit "flats"; Lit "_dm2_"; Lit "flat"] in
                  let folder := path_join (path_join path [Lit exp_set_name]) name in
                  [(folder, name, direct, direct_exp_time, Some psf);
                   (folder, name, coron, coron_exp_time, Some centering)]) blocks
               (fun a b => eq_trans (f_equal (map shot_of) (images_app a b))
                                    (map_app shot_of (images a) (images b)))
               eq_refl (fun _ _ _ _ => eq_refl) Hblocks).
    cbn [images map app item_events]. rewrite flat_map_length_constant, flat_map_length_constant.
    reflexivity.
  - apply Forall_forall. intros a Ha.
    assert (Hin : In (shot_of a) (map shot_of (images (List.concat blocks))))
      by (apply in_map; exact Ha).
    rewrite (Hview _ (fun evs => map shot_of (images evs))
               (fun _ _ =>
                  let name := [Lit "dm1_"; Lit "flats"; Lit "_dm2_"; Lit "flat"] in
                  let folder := path_join (path_join path [Lit exp_set_name]) name in
                  [(folder, name, direct, direct_exp_time, Some psf);
                   (folder, name, coron, coron_exp_time, Some centering)]) blocks
               (fun a b => eq_trans (f_equal (map shot_of) (images_app a b))
                                    (map_app shot_of (images a) (images b)))
               eq_refl (fun _ _ _ _ => eq_refl) Hblocks) in Hin.
    apply in_flat_map in Hin. destruct Hin as (c1 & _ & Hin).
    cbn [images map app item_events] in Hin.
    apply in_flat_map in Hin. destruct Hin as (c2 & _ & Hin).
    unfold shot_of in Hin. cbv zeta in Hin.
    destruct Hin as [Hin|[Hin|[]]]; injection Hin as <- <- _ _ _; auto.
Qed.

Lemma flat_map_singletons A B (f : A -> B) (l : list A) :
  List.flat_map (fun x => [f x]) l = map f l.
Proof. induction l as [|x l IH]; [reflexivity|]. cbn. rewrite IH. reflexivity. Qed.

(** X18: with lists of command files, each DM1 file is loaded once, at
    the start of its pass of the outer loop, and after it every DM2 file
    is loaded again for that pass: bias off and the flat map flag of the
    DM each time.  Nothing else is loaded or built. *)
Theorem command_files_are_loaded_per_pair
        (dm2_command_list dm1_command_list : list string)
        path exp_set_name coron_exp_time direct_exp_time dm2_flat_map dm1_flat_map
        num_exposures camera_type centering (s : state W) :
  exists w evs,
    take_exposures_both_dm_commands tb basename load_dm_command_as
      true true dm2_command_list dm1_command_list
      path exp_set_name coron_exp_time direct_exp_time dm2_flat_map dm1_flat_map
      num_exposures camera_type centering s
    = (Ok tt, {| world := w; trace := trace s ++ evs |}) /\
    filter makes_command evs =
      List.flat_map
        (fun command1 =>
           LoadDmCommand command1 false dm1_flat_map
             :: map (fun command2 => LoadDmCommand command2 false dm2_flat_map)
                    dm2_command_list)
        dm1_command_list /\
    List.length (filter makes_command evs)
    = (List.length dm1_command_list * (1 + List.length dm2_command_list))%nat.
Proof.
  destruct (@both_dm_commands_run true true dm2_command_list dm1_command_list
              path exp_set_name coron_exp_time direct_exp_time dm2_flat_map dm1_flat_map
              num_exposures camera_type centering s) as (w & blocks & Hrun & Hblocks).
  exists w, (List.concat blocks). split; [exact Hrun|].
  assert (Hloads :
            filter makes_command (List.concat blocks) =
            List.flat_map
              (fun command1 =>
                 LoadDmCommand command1 false dm1_flat_map
                   :: map (fun command2 => LoadDmCommand command2 false dm2_flat_map)
                          dm2_command_list)
              dm1_command_list).
  { rewrite (@view_of_pairs true true dm2_command_list dm1_command_list
               path exp_set_name coron_exp_time direct_exp_time dm2_flat_map dm1_flat_map
               num_exposures camera_type centering _ (filter makes_command)
               (fun _ command2 => [LoadDmCommand command2 false dm2_flat_map]) blocks
               (@filter_app _ makes_command) eq_refl (fun _ _ _ _ => eq_refl) Hblocks).
    apply flat_map_ext. intros command1.
    rewrite flat_map_singletons. reflexivity. }
  split; [exact Hloads|].
  rewrite Hloads. clear.
  induction dm1_command_list as [|c1 l1 IH]; [reflexivity|].
  cbn [List.flat_map]. rewrite length_app, IH. cbn [List.length].
  rewrite length_map. lia.
Qed.

End DataSetsFacts.

(** ** The COFFEE data set after stroke minimisation *)

Section CoffeeStrokeMinFacts.

Import Testbed General DataSets Traces CoffeeStrokeMin.

Variables W Image : Type.
Variable tb : testbed W Image.
Variables basename dirname : string -> string.
Variable load_dm_command_as : W -> string -> bool -> bool -> Z -> bool -> DmCommand * W.
Variable glob : W -> string -> list string * W.
Variable load_dm_command_for : W -> option string -> bool -> Z -> DmCommand * W.

(** With no key of [self.kwargs] in the way, the call is the function,
    with the camera and the pipeline flag of [self.kwargs] or their
    defaults. *)
Lemma call_take_coffee_data_set_fits files p esn coron_t direct_t n dm1 cen kw
      (s : Testbed.state W) :
  repeated bound_names (kw_others kw) = None ->
  call_take_coffee_data_set tb basename dirname load_dm_command_as
    files p esn coron_t direct_t n dm1 cen kw s
  = take_coffee_data_set tb basename dirname load_dm_command_as
      files p esn coron_t direct_t n dm1
      match kw_camera_type kw with
      | Some camera_type => camera_type
      | None => "imaging_camera"%string
      end
      cen
      match kw_pipeline kw with Some pipeline => pipeline | None => true end
      (kw_others kw) s
  /\ repeated ("centering"%string :: take_exposures_parameters) (kw_others kw) = None.
Proof.
  intros Hfit. unfold call_take_coffee_data_set.
  assert (H1 : repeated named (kw_others kw) = None).
  { apply (@repeated_fewer bound_names); [|exact Hfit].
    intros k Hk. unfold bound_names. apply in_or_app. left. exact Hk. }
  assert (H2 : repeated positional (kw_others kw) = None).
  { apply (@repeated_fewer bound_names); [|exact Hfit].
    intros k Hk. unfold bound_names. apply in_or_app. right.
    apply in_or_app. left. exact Hk. }
  rewrite H1, H2. split; [reflexivity|].
  apply (@repeated_fewer bound_names); [|exact Hfit].
  intros k [<-|Hk]; unfold bound_names.
  - apply in_or_app. left. right. right. left. reflexivity.
  - apply in_or_app. right. apply in_or_app. right. exact Hk.
Qed.

(** From the focus commands on, with the data path [p]. *)
Lemma coffee_experiment_rest (p : Testbed.path) (o : object W) :
  repeated bound_names (kw_others (CoffeeStrokeMin.kwargs (self o))) = None ->
  exists w w_glob w_load blocks,
    let files :=
      fst (glob w_glob
             "Z:/Testbeds/hicat_dev/data_vault/coffee/coffee_commands/focus//*p2v/*.fits") in
    let dm1 := fst (load_dm_command_for w_load (path_dm1_corr (self o)) true 1) in
    (focus_zernike_command_paths <-
       on_bench (unrecorded (fun w =>
         glob w ("Z:/Testbeds/hicat_dev/data_vault/coffee/coffee_commands/focus/"
                   ++ "/*p2v/*.fits"))) ;;
     dm1_path <- gets (fun o => path_dm1_corr (self o)) ;;
     dm1_correction <-
       on_bench (unrecorded (fun w => load_dm_command_for w dm1_path true 1)) ;;
     me <- gets (fun o => self o) ;;
     on_bench (call_take_coffee_data_set tb basename dirname load_dm_command_as
                 focus_zernike_command_paths p "stroke_min" (coron_exp_time me)
                 (direct_exp_time me) (CoffeeStrokeMin.num_exposures me) dm1_correction
                 (CoffeeStrokeMin.centering me) (CoffeeStrokeMin.kwargs me))) o
    = (Ok tt,
       {| self := self o;
          bench := {| world := w; trace := trace (bench o) ++ List.concat blocks |} |}) /\
    Forall2
      (fun command evs =>
         exists w0,
           let dm2 := fst (load_dm_command_as w0 command false false 2 true) in
           let name := basename (dirname command) in
           let folder := path_join (path_join p [Lit "stroke_min"]) [Lit name] in
           let camera := match kw_camera_type (CoffeeStrokeMin.kwargs (self o)) with
                         | Some camera_type => camera_type
                         | None => "imaging_camera"%string
                         end in
           let pipeline := match kw_pipeline (CoffeeStrokeMin.kwargs (self o)) with
                         | Some pipeline => pipeline
                         | None => true
                         end in
           evs = LoadDmCommand command false false
                   :: exposure_events tb dm1 dm2 (direct_exp_time (self o))
                        (CoffeeStrokeMin.num_exposures (self o)) camera false pipeline
                        folder [Lit name] "direct" (Some psf)
                        (kw_others (CoffeeStrokeMin.kwargs (self o)))
                   ++ exposure_events tb dm1 dm2 (coron_exp_time (self o))
                        (CoffeeStrokeMin.num_exposures (self o)) camera true pipeline
                        folder [Lit name] "coron"
                        (Some (CoffeeStrokeMin.centering (self o)))
                        (kw_others (CoffeeStrokeMin.kwargs (self o))))
      files blocks.
Proof.
  intros Hfit.
  unfold bind, gets, on_bench, unrecorded.
  change ("Z:/Testbeds/hicat_dev/data_vault/coffee/coffee_commands/focus/" ++ "/*p2v/*.fits")%string
    with "Z:/Testbeds/hicat_dev/data_vault/coffee/coffee_commands/focus//*p2v/*.fits"%string.
  destruct (glob (world (bench o)) _) as [files wg] eqn:Eg.
  cbn [self bench world trace].
  destruct (load_dm_command_for wg (path_dm1_corr (self o)) true 1) as [dm1 wl] eqn:El.
  cbn [self bench world trace].
  destruct (call_take_coffee_data_set_fits files p "stroke_min" (coron_exp_time (self o))
              (direct_exp_time (self o)) (CoffeeStrokeMin.num_exposures (self o)) dm1
              (CoffeeStrokeMin.centering (self o)) (CoffeeStrokeMin.kwargs (self o))
              {| world := wl; trace := trace (bench o) |} Hfit) as (Hcall & Hdown).
  rewrite Hcall.
  destruct (@take_coffee_data_set_run W Image tb basename dirname load_dm_command_as
              files p "stroke_min" (coron_exp_time (self o)) (direct_exp_time (self o))
              (CoffeeStrokeMin.num_exposures (self o)) dm1
              match kw_camera_type (CoffeeStrokeMin.kwargs (self o)) with
              | Some camera_type => camera_type
              | None => "imaging_camera"%string
              end
              (CoffeeStrokeMin.centering (self o))
              match kw_pipeline (CoffeeStrokeMin.kwargs (self o)) with
              | Some pipeline => pipeline
              | None => true
              end
              (kw_others (CoffeeStrokeMin.kwargs (self o)))
              {| world := wl; trace := trace (bench o) |} Hdown)
    as (w & blocks & Hrun & Hblocks).
  rewrite Hrun. cbn [trace].
  exists w, (world (bench o)), wg, blocks. cbv zeta. rewrite Eg, El.
  split; [reflexivity|exact Hblocks].
Qed.

(** What [experiment] leaves behind. *)
Lemma coffee_experiment_run (o : object W) :
  repeated bound_names (kw_others (CoffeeStrokeMin.kwargs (self o))) = None ->
  let p := match CoffeeStrokeMin.path (self o) with
           | Some p => p
           | None => fst (create_data_path tb (world (bench o)) "coffee_strokemin")
           end in
  let opening := match CoffeeStrokeMin.path (self o) with
                 | Some _ => []
                 | None => [CreateDataPath "coffee_strokemin" p;
                            SetupHicatLogging p "coffee_strokemin"]
                 end in
  exists w w_glob w_load blocks,
    let files :=
      fst (glob w_glob
             "Z:/Testbeds/hicat_dev/data_vault/coffee/coffee_commands/focus//*p2v/*.fits") in
    let dm1 := fst (load_dm_command_for w_load (path_dm1_corr (self o)) true 1) in
    experiment tb basename dirname load_dm_command_as glob load_dm_command_for o
    = (Ok tt,
       {| self := match CoffeeStrokeMin.path (self o) with
                  | Some _ => self o
                  | None => set_path (self o) (Some p)
                  end;
          bench := {| world := w;
                      trace := trace (bench o) ++ opening ++ List.concat blocks |} |}) /\
    Forall2
      (fun command evs =>
         exists w0,
           let dm2 := fst (load_dm_command_as w0 command false false 2 true) in
           let name := basename (dirname command) in
           let folder := path_join (path_join p [Lit "stroke_min"]) [Lit name] in
           let camera := match kw_camera_type (CoffeeStrokeMin.kwargs (self o)) with
                         | Some camera_type => camera_type
                         | None => "imaging_camera"%string
                         end in
           let pipeline := match kw_pipeline (CoffeeStrokeMin.kwargs (self o)) with
                         | Some pipeline => pipeline
                         | None => true
                         end in
           evs = LoadDmCommand command false false
                   :: exposure_events tb dm1 dm2 (direct_exp_time (self o))
                        (CoffeeStrokeMin.num_exposures (self o)) camera false pipeline
                        folder [Lit name] "direct" (Some psf)
                        (kw_others (CoffeeStrokeMin.kwargs (self o)))
                   ++ exposure_events tb dm1 dm2 (coron_exp_time (self o))
                        (CoffeeStrokeMin.num_exposures (self o)) camera true pipeline
                        folder [Lit name] "coron"
                        (Some (CoffeeStrokeMin.centering (self o)))
                        (kw_others (CoffeeStrokeMin.kwargs (self o))))
      files blocks.
Proof.
  intros Hfit. cbv zeta. unfold experiment.
  unfold gets at 1. unfold bind at 1.
  destruct (CoffeeStrokeMin.path (self o)) as [p|] eqn:Ep.
  - unfold ret at 1. unfold bind at 1.
    destruct (coffee_experiment_rest p o Hfit) as (w & wg & wl & blocks & Hrun & Hblocks).
    exists w, wg, wl, blocks. split; [exact Hrun|exact Hblocks].
  - unfold bind at 1. unfold bind at 1.
    unfold on_bench at 1. unfold called at 1.
    destruct (create_data_path tb (world (bench o)) "coffee_strokemin") as [created w1].
    cbn [fst self bench world trace].
    unfold bind at 1. unfold modify at 1.
    unfold bind at 1. unfold on_bench at 1. unfold called_, called.
    cbn [fst self bench world trace]. unfold ret at 1.
    destruct (coffee_experiment_rest created
                {| self := set_path (self o) (Some created);
                   bench :=
                     {| world := setup_hicat_logging tb w1 created "coffee_strokemin";
                        trace := (trace (bench o)
                                    ++ [CreateDataPath "coffee_strokemin" created])
                                   ++ [SetupHicatLogging created "coffee_strokemin"] |} |}
                Hfit)
      as (w & wg & wl & blocks & Hrun & Hblocks).
    exists w, wg, wl, blocks. split.
    + cbv zeta in Hrun. refine (eq_trans Hrun _). cbn [self bench world trace].
      rewrite <- !app_assoc. reflexivity.
    + exact Hblocks.
Qed.

Lemma under_longer (p : Testbed.path) (t : Testbed.text) (a : imaging) :
  img_path a = path_join p t -> under p a.
Proof.
  intros H. unfold under. rewrite H. unfold path_join.
  rewrite firstn_app, firstn_all, Nat.sub_diag. apply app_nil_r.
Qed.

(** X19: when no key of [self.kwargs] names a parameter that the calls
    down to [take_exposures] bind themselves, [CoffeeStrokeMin.experiment]
    returns.  Without a path it creates the data path with suffix
    [coffee_strokemin], keeps it in [self.path] and sets up logging
    there; with a path it does neither.  It then takes, for every focus
    command file the glob finds and in that order, the direct and the
    coron image set into [self.path/stroke_min/<folder of the file>],
    with the camera and the pipeline flag of [self.kwargs], or
    [imaging_camera] and the pipeline on when it has none.  The DM1
    command of every set is the one loaded from [path_dm1_corr], with
    the flat map, for DM 1; the only commands the trace shows loaded are
    the focus files. *)
Theorem coffee_experiment_fills_stroke_min (o : object W) :
  repeated bound_names (kw_others (CoffeeStrokeMin.kwargs (self o))) = None ->
  let p := match CoffeeStrokeMin.path (self o) with
           | Some p => p
           | None => fst (create_data_path tb (world (bench o)) "coffee_strokemin")
           end in
  let opening := match CoffeeStrokeMin.path (self o) with
                 | Some _ => []
                 | None => [CreateDataPath "coffee_strokemin" p;
                            SetupHicatLogging p "coffee_strokemin"]
                 end in
  exists w w_glob w_load evs,
    let files :=
      fst (glob w_glob
             "Z:/Testbeds/hicat_dev/data_vault/coffee/coffee_commands/focus//*p2v/*.fits") in
    let dm1 := fst (load_dm_command_for w_load (path_dm1_corr (self o)) true 1) in
    experiment tb basename dirname load_dm_command_as glob load_dm_command_for o
    = (Ok tt,
       {| self := match CoffeeStrokeMin.path (self o) with
                  | Some _ => self o
                  | None => set_path (self o) (Some p)
                  end;
          bench := {| world := w; trace := trace (bench o) ++ opening ++ evs |} |}) /\
    map (fun a => (shot_of a, img_camera_type a, img_pipeline a)) (images evs) =
      List.flat_map
        (fun file =>
           let name := basename (dirname file) in
           let folder := path_join (path_join p [Lit "stroke_min"]) [Lit name] in
           let camera := match kw_camera_type (CoffeeStrokeMin.kwargs (self o)) with
                         | Some camera_type => camera_type
                         | None => "imaging_camera"%string
                         end in
           let pipeline := match kw_pipeline (CoffeeStrokeMin.kwargs (self o)) with
                         | Some pipeline => pipeline
                         | None => true
                         end in
           [((folder, [Lit name], direct, direct_exp_time (self o), Some psf),
             Some camera, Some pipeline);
            ((folder, [Lit name], coron, coron_exp_time (self o),
              Some (CoffeeStrokeMin.centering (self o))),
             Some camera, Some pipeline)])
        files /\
    map fst (pairs evs) = List.flat_map (fun _ => [dm1; dm1]) files /\
    filter makes_command evs = map (fun file => LoadDmCommand file false false) files /\
    scopes false false (map kind evs) = Some (false, false).
Proof.
  intros Hfit p opening.
  destruct (coffee_experiment_run o Hfit) as (w & wg & wl & blocks & Hrun & Hblocks).
  fold p opening in Hrun. cbv zeta in Hrun, Hblocks. fold p in Hblocks.
  exists w, wg, wl, (List.concat blocks). cbv zeta.
  split; [exact Hrun|]. clear Hrun.
  split; [|split; [|split]].
  - apply (@view_of_blocks _ _ _
             (fun evs => map (fun a => (shot_of a, img_camera_type a, img_pipeline a))
                             (images evs))).
    + intros a b. rewrite images_app, map_app. reflexivity.
    + reflexivity.
    + revert Hblocks. apply Forall2_impl. intros file evs (w0 & ->). reflexivity.
  - apply (@view_of_blocks _ _ _ (fun evs => map fst (pairs evs))).
    + intros a b. rewrite pairs_app, map_app. reflexivity.
    + reflexivity.
    + revert Hblocks. apply Forall2_impl. intros file evs (w0 & ->). reflexivity.
  - rewrite <- flat_map_singletons.
    apply (@view_of_blocks _ _ _ (filter makes_command)).
    + apply filter_app.
    + reflexivity.
    + revert Hblocks. apply Forall2_impl. intros file evs (w0 & ->). reflexivity.
  - apply scopes_of_blocks.
    induction Hblocks as [|file evs l bl (w0 & ->) _ IH]; constructor; auto.
Qed.

(** X20: under the same condition on [self.kwargs], a second run of the
    same experiment object returns too and keeps the data path of the
    first run, whether that one was given or created: it creates no data
    path, leaves the attributes as they are and saves every image set
    under [self.path/stroke_min] again. *)
Theorem second_coffee_run_keeps_the_data_path (o : object W) :
  repeated bound_names (kw_others (CoffeeStrokeMin.kwargs (self o))) = None ->
  let run := experiment tb basename dirname load_dm_command_as glob load_dm_command_for in
  let o1 := snd (run o) in
  let o2 := snd (run o1) in
  exists p evs,
    CoffeeStrokeMin.path (self o1) = Some p /\
    (forall given, CoffeeStrokeMin.path (self o) = Some given -> p = given) /\
    fst (run o1) = Ok tt /\
    self o2 = self o1 /\
    trace (bench o2) = trace (bench o1) ++ evs /\
    ~ In data_path_created (map kind evs) /\
    Forall (under (path_join p [Lit "stroke_min"])) (images evs).
Proof.
  intros Hfit run o1 o2.
  destruct (coffee_experiment_run o Hfit) as (w & wg & wl & blocks & Hrun & _).
  cbv zeta in Hrun. fold run in Hrun.
  assert (Hp : exists p, CoffeeStrokeMin.path (self o1) = Some p /\
                         forall given, CoffeeStrokeMin.path (self o) = Some given ->
                                       p = given).
  { unfold o1. rewrite Hrun. cbn [snd self].
    destruct (CoffeeStrokeMin.path (self o)) as [q|] eqn:Eq.
    - exists q. split; [exact Eq|]. intros given Hg. congruence.
    - eexists. split; [reflexivity|]. intros given Hg. discriminate. }
  destruct Hp as (p & Hp & Hgiven).
  assert (Hfit1 : repeated bound_names (kw_others (CoffeeStrokeMin.kwargs (self o1))) = None).
  { unfold o1. rewrite Hrun. cbn [snd self].
    destruct (CoffeeStrokeMin.path (self o)); exact Hfit. }
  destruct (coffee_experiment_run o1 Hfit1)
    as (w' & wg' & wl' & blocks' & Hrun' & Hblocks').
  cbv zeta in Hrun', Hblocks'. fold run in Hrun'.
  rewrite Hp in Hrun', Hblocks'.
  exists p, (List.concat blocks').
  split; [exact Hp|]. split; [exact Hgiven|].
  unfold o2. rewrite Hrun'. cbn [fst snd self bench trace app].
  split; [reflexivity|]. split; [reflexivity|]. split; [reflexivity|].
  split.
  - intros Hin. rewrite concat_map in Hin. apply in_concat in Hin.
    destruct Hin as (ks & Hks & Hin). apply in_map_iff in Hks.
    destruct Hks as (evs & <- & Hevs).
    apply (@Forall2_in_r _ _ _ _ _ evs Hblocks') in Hevs.
    destruct Hevs as (file & _ & w0 & ->).
    cbn in Hin. intuition discriminate.
  - apply Forall_forall. intros a Ha.
    assert (Hblock : exists evs, In evs blocks' /\ In a (images evs)).
    { clear -Ha. induction blocks' as [|evs bl IH]; [destruct Ha|].
      cbn [List.concat] in Ha. rewrite images_app in Ha. apply in_app_or in Ha.
      destruct Ha as [Ha|Ha].
      - exists evs. split; [left; reflexivity|exact Ha].
      - destruct (IH Ha) as (evs' & Hin & Ha'). exists evs'. split; [right; exact Hin|exact Ha']. }
    destruct Hblock as (evs & Hevs & Ha').
    apply (@Forall2_in_r _ _ _ _ _ evs Hblocks') in Hevs.
    destruct Hevs as (file & _ & w0 & ->).
    cbn in Ha'. destruct Ha' as [<-|[<-|[]]];
      apply (@under_longer _ [Lit (basename (dirname file))]); reflexivity.
Qed.

(** X24: a key of [self.kwargs] that repeats a keyword of the call of
    [take_coffee_data_set] ([num_exposures], [dm1_command_object],
    [centering]) or names a parameter it binds by position
    ([dm2_command_list], [path], [exp_set_name], [coron_exp_time],
    [direct_exp_time]) makes [CoffeeStrokeMin.experiment] raise a
    [TypeError].  By then a missing data path has been created and kept
    in [self.path], and logging set up; nothing else is in the trace,
    and no image was taken. *)
Theorem keyword_bound_twice_stops_the_coffee_experiment (o : object W) k :
  repeated named (kw_others (CoffeeStrokeMin.kwargs (self o))) = Some k \/
  (repeated named (kw_others (CoffeeStrokeMin.kwargs (self o))) = None /\
   repeated positional (kw_others (CoffeeStrokeMin.kwargs (self o))) = Some k) ->
  let p := match CoffeeStrokeMin.path (self o) with
           | Some p => p
           | None => fst (create_data_path tb (world (bench o)) "coffee_strokemin")
           end in
  let opening := match CoffeeStrokeMin.path (self o) with
                 | Some _ => []
                 | None => [CreateDataPath "coffee_strokemin" p;
                            SetupHicatLogging p "coffee_strokemin"]
                 end in
  exists w,
    experiment tb basename dirname load_dm_command_as glob load_dm_command_for o
    = (Raise (TypeError k),
       {| self := match CoffeeStrokeMin.path (self o) with
                  | Some _ => self o
                  | None => set_path (self o) (Some p)
                  end;
          bench := {| world := w; trace := trace (bench o) ++ opening |} |}).
Proof.
  intros Hk. cbv zeta.
  assert (Hrest : forall (q : Testbed.path) (o1 : object W),
             CoffeeStrokeMin.kwargs (self o1) = CoffeeStrokeMin.kwargs (self o) ->
             exists w,
               (focus_zernike_command_paths <-
                  on_bench (unrecorded (fun w =>
                    glob w ("Z:/Testbeds/hicat_dev/data_vault/coffee/coffee_commands/focus/"
                              ++ "/*p2v/*.fits"))) ;;
                dm1_path <- gets (fun o => path_dm1_corr (self o)) ;;
                dm1_correction <-
                  on_bench (unrecorded (fun w => load_dm_command_for w dm1_path true 1)) ;;
                me <- gets (fun o => self o) ;;
                on_bench (call_take_coffee_data_set tb basename dirname load_dm_command_as
                            focus_zernike_command_paths q "stroke_min" (coron_exp_time me)
                            (direct_exp_time me) (CoffeeStrokeMin.num_exposures me)
                            dm1_correction (CoffeeStrokeMin.centering me)
                            (CoffeeStrokeMin.kwargs me))) o1
               = (Raise (TypeError k),
                  {| self := self o1;
                     bench := {| world := w; trace := trace (bench o1) |} |})).
  { intros q o1 Hsame.
    unfold bind, gets, on_bench, unrecorded.
    destruct (glob (world (bench o1)) _) as [files wg].
    cbn [self bench world trace].
    destruct (load_dm_command_for wg (path_dm1_corr (self o1)) true 1) as [dm1 wl].
    cbn [self bench world trace].
    unfold call_take_coffee_data_set, raise. rewrite Hsame.
    exists wl. destruct Hk as [Hn|[Hn Hp]].
    - rewrite Hn. reflexivity.
    - rewrite Hn, Hp. reflexivity. }
  unfold experiment.
  unfold gets at 1. unfold bind at 1.
  destruct (CoffeeStrokeMin.path (self o)) as [p|] eqn:Ep.
  - unfold ret at 1. unfold bind at 1.
    destruct (Hrest p o eq_refl) as (w & Hrun).
    exists w. rewrite app_nil_r. exact Hrun.
  - unfold bind at 1. unfold bind at 1.
    unfold on_bench at 1. unfold called at 1.
    destruct (create_data_path tb (world (bench o)) "coffee_strokemin") as [created w1].
    cbn [fst self bench world trace].
    unfold bind at 1. unfold modify at 1.
    unfold bind at 1. unfold on_bench at 1. unfold called_, called.
    cbn [fst self bench world trace]. unfold ret at 1.
    destruct (Hrest created
                {| self := set_path (self o) (Some created);
                   bench :=
                     {| world := setup_hicat_logging tb w1 created "coffee_strokemin";
                        trace := (trace (bench o)
                                    ++ [CreateDataPath "coffee_strokemin" created])
                                   ++ [SetupHicatLogging created "coffee_strokemin"] |} |}
                eq_refl)
      as (w & Hrun).
    exists w. refine (eq_trans Hrun _). cbn [self bench world trace].
    rewrite <- !app_assoc. reflexivity.
Qed.

End CoffeeStrokeMinFacts.

(** Two command files and a keyword of the camera on paper, with the
    path functions taken as the identity: four image sets. *)
Lemma coffee_data_set_takes_both_sets_witness :
  Testbed.repeated ("centering"%string :: DataSets.take_exposures_parameters)
                   [("file_mode", "True")]%string = None
  /\ exists w blocks,
      DataSets.take_coffee_data_set Testbed.paper (fun file => file) (fun file => file)
        CoffeeStrokeMin.paper_load_as ["a/x.fits"; "b/y.fits"]%string [[Lit "data"]]
        "set" (Testbed.Quantity 100 Testbed.millisecond)
        (Testbed.Quantity 1 Testbed.millisecond) 10
        {| Testbed.data := [1; 1]; Testbed.attributes := [] |} "imaging_camera"
        Testbed.custom_apodizer_spots true [("file_mode", "True")]%string (Testbed.start 0)
      = (Ok tt, {| Testbed.world := w;
                   Testbed.trace := Testbed.trace (Testbed.start 0)
                                      ++ List.concat blocks |}) /\
      Traces.scopes false false (map Testbed.kind (List.concat blocks))
      = Some (false, false) /\
      List.length (Traces.images (List.concat blocks)) = 4%nat.
Proof.
  split; [reflexivity|].
  destruct (@coffee_data_set_takes_both_sets nat unit Testbed.paper
              (fun file => file) (fun file => file) CoffeeStrokeMin.paper_load_as
              ["a/x.fits"; "b/y.fits"]%string [[Lit "data"]]
              "set" (Testbed.Quantity 100 Testbed.millisecond)
              (Testbed.Quantity 1 Testbed.millisecond) 10
              {| Testbed.data := [1; 1]; Testbed.attributes := [] |} "imaging_camera"
              Testbed.custom_apodizer_spots true [("file_mode", "True")]%string
              (Testbed.start 0) eq_refl)
    as (w & blocks & Hrun & _ & Hscopes & Hlen).
  exists w, blocks. split; [exact Hrun|]. split; [exact Hscopes|exact Hlen].
Defined.

(** A new experiment asking for the pupil camera, on paper: six image
    sets, all with that camera. *)
Lemma coffee_experiment_fills_stroke_min_witness :
  Testbed.repeated CoffeeStrokeMin.bound_names
    (CoffeeStrokeMin.kw_others
       (CoffeeStrokeMin.kwargs (CoffeeStrokeMin.self CoffeeStrokeMin.fresh))) = None
  /\ exists evs,
      fst (CoffeeStrokeMin.experiment Testbed.paper (fun file => file) (fun file => file)
             CoffeeStrokeMin.paper_load_as CoffeeStrokeMin.vault
             CoffeeStrokeMin.paper_load_for CoffeeStrokeMin.fresh) = Ok tt /\
      Testbed.trace
        (CoffeeStrokeMin.bench
           (snd (CoffeeStrokeMin.experiment Testbed.paper (fun file => file)
                   (fun file => file) CoffeeStrokeMin.paper_load_as CoffeeStrokeMin.vault
                   CoffeeStrokeMin.paper_load_for CoffeeStrokeMin.fresh)))
      = [Testbed.CreateDataPath "coffee_strokemin" [[Lit "data"]; [Lit "coffee_strokemin"]];
         Testbed.SetupHicatLogging [[Lit "data"]; [Lit "coffee_strokemin"]]
                                   "coffee_strokemin"] ++ evs /\
      map Testbed.img_camera_type (Traces.images evs)
      = repeat (Some "pupil_camera"%string) 6.
Proof.
  split; [reflexivity|].
  destruct (@coffee_experiment_fills_stroke_min nat unit Testbed.paper
              (fun file => file) (fun file => file) CoffeeStrokeMin.paper_load_as
              CoffeeStrokeMin.vault CoffeeStrokeMin.paper_load_for CoffeeStrokeMin.fresh
              eq_refl)
    as (w & wg & wl & evs & Hrun & Hshots & _).
  exists evs. rewrite Hrun. split; [reflexivity|]. split; [reflexivity|].
  apply (f_equal (map (fun x : DataSets.shot * option string * option bool =>
                         snd (fst x)))) in Hshots.
  rewrite map_map in Hshots. exact Hshots.
Defined.

(** The same experiment run twice on paper. *)
Lemma second_coffee_run_keeps_the_data_path_witness :
  Testbed.repeated CoffeeStrokeMin.bound_names
    (CoffeeStrokeMin.kw_others
       (CoffeeStrokeMin.kwargs (CoffeeStrokeMin.self CoffeeStrokeMin.fresh))) = None
  /\ let run := CoffeeStrokeMin.experiment Testbed.paper (fun file => file)
                  (fun file => file) CoffeeStrokeMin.paper_load_as CoffeeStrokeMin.vault
                  CoffeeStrokeMin.paper_load_for in
     let o1 := snd (run CoffeeStrokeMin.fresh) in
     let o2 := snd (run o1) in
     exists p evs,
       CoffeeStrokeMin.path (CoffeeStrokeMin.self o1) = Some p /\
       (forall given,
           CoffeeStrokeMin.path (CoffeeStrokeMin.self CoffeeStrokeMin.fresh) = Some given ->
           p = given) /\
       fst (run o1) = Ok tt /\
       CoffeeStrokeMin.self o2 = CoffeeStrokeMin.self o1 /\
       Testbed.trace (CoffeeStrokeMin.bench o2)
       = Testbed.trace (CoffeeStrokeMin.bench o1) ++ evs /\
       ~ In Testbed.data_path_created (map Testbed.kind evs) /\
       Forall (CoffeeStrokeMin.under (Testbed.path_join p [Lit "stroke_min"]))
              (Traces.images evs).
Proof.
  split; [reflexivity|].
  exact (@second_coffee_run_keeps_the_data_path nat unit Testbed.paper
           (fun file => file) (fun file => file) CoffeeStrokeMin.paper_load_as
           CoffeeStrokeMin.vault CoffeeStrokeMin.paper_load_for CoffeeStrokeMin.fresh
           eq_refl).
Defined.

(** [SpeckleNulling(simulator=True)] on paper: the first pass stops at
    the first image of the phase sweep. *)
Lemma keyword_passed_twice_stops_the_pass_witness :
  Testbed.repeated SpeckleNulling.imaging_keywords
                   (SpeckleNulling.kwargs SpeckleRuns.with_simulator)
  = Some "simulator"%string
  /\ exists w evs,
      SpeckleNulling.iteration Testbed.paper SpeckleRuns.with_simulator
        [[Lit "data"]] "sin" "coron" 0 SpeckleNulling.on_paper (Testbed.start 0)
      = (Raise (TypeError "simulator"),
         {| Testbed.world := w;
            Testbed.trace := Testbed.trace (Testbed.start 0) ++ evs |}) /\
      map Testbed.kind evs =
        [Testbed.shape_applied; Testbed.dark_zone_tested; Testbed.images_taken;
         Testbed.speckles_sensed; Testbed.sine_built; Testbed.shape_applied].
Proof.
  split; [reflexivity|].
  destruct (@keyword_passed_twice_stops_the_pass nat unit Testbed.paper
              SpeckleRuns.with_simulator [[Lit "data"]] "sin" "coron" 0
              SpeckleNulling.on_paper (Testbed.start 0) "simulator" eq_refl)
    as (w & evs & Hrun & Hk & _).
  exists w, evs. split; [exact Hrun|exact Hk].
Defined.

(** [SpeckleNulling(num_iterations=0, simulator=True)] on paper: no
    image, and both scopes closed again. *)
Lemma keyword_passed_twice_stops_the_final_image_witness :
  (SpeckleNulling.num_iterations SpeckleRuns.without_loop_with_simulator <= 0)%Z
  /\ Testbed.repeated ["centering"; "lyot_stop_position"; "path"; "exposure_set_name";
                       "filename"; "simulator"]%string
                      (SpeckleNulling.kwargs SpeckleRuns.without_loop_with_simulator)
     = Some "simulator"%string
  /\ exists w evs,
      SpeckleNulling.experiment Testbed.paper SpeckleRuns.without_loop_with_simulator
                                (Testbed.start 0)
      = (Raise (TypeError "simulator"),
         {| Testbed.world := w;
            Testbed.trace := Testbed.trace (Testbed.start 0) ++ evs |}) /\
      map Testbed.kind evs =
        SpeckleNulling.prologue_steps SpeckleRuns.without_loop_with_simulator
          ++ [Testbed.laser_opened; Testbed.current_set; Testbed.dm_opened;
              Testbed.dm_closed; Testbed.laser_closed] /\
      Traces.images evs = [] /\
      Traces.scopes false false (map Testbed.kind evs) = Some (false, false).
Proof.
  assert (Hzero : (SpeckleNulling.num_iterations SpeckleRuns.without_loop_with_simulator
                   <= 0)%Z) by (cbn; lia).
  split; [exact Hzero|]. split; [reflexivity|].
  exact (@keyword_passed_twice_stops_the_final_image nat unit Testbed.paper
           SpeckleRuns.without_loop_with_simulator (Testbed.start 0) "simulator"
           Hzero eq_refl).
Defined.

(** A keyword [suffix] on paper: the first file is loaded, then the
    call fails. *)
Lemma keyword_bound_twice_stops_the_data_set_witness :
  (Testbed.repeated ["centering"%string] [("suffix", "x")]%string = None /\
   Testbed.repeated DataSets.take_exposures_parameters [("suffix", "x")]%string
   = Some "suffix"%string)
  /\ DataSets.take_coffee_data_set Testbed.paper (fun file => file) (fun file => file)
       CoffeeStrokeMin.paper_load_as ["a/x.fits"; "b/y.fits"]%string [[Lit "data"]]
       "set" (Testbed.Quantity 100 Testbed.millisecond)
       (Testbed.Quantity 1 Testbed.millisecond) 10
       {| Testbed.data := [1; 1]; Testbed.attributes := [] |} "imaging_camera"
       Testbed.custom_apodizer_spots true [("suffix", "x")]%string (Testbed.start 0)
     = (Raise (TypeError "suffix"),
        {| Testbed.world := 1%nat;
           Testbed.trace := [Testbed.LoadDmCommand "a/x.fits" false false] |}).
Proof.
  split; [split; reflexivity|].
  exact (proj1 (@keyword_bound_twice_stops_the_data_set nat unit Testbed.paper
                  (fun file => file) (fun file => file) CoffeeStrokeMin.paper_load_as
                  "a/x.fits"%string ["b/y.fits"%string] [[Lit "data"]]
                  "set" (Testbed.Quantity 100 Testbed.millisecond)
                  (Testbed.Quantity 1 Testbed.millisecond) 10
                  {| Testbed.data := [1; 1]; Testbed.attributes := [] |} "imaging_camera"
                  Testbed.custom_apodizer_spots true [("suffix", "x")]%string
                  "suffix"%string (Testbed.start 0)
                  (or_intror (conj eq_refl eq_refl)))).
Defined.

(** [CoffeeStrokeMin(exp_set_name="mine")] on paper: the data path is
    created and kept, then the call fails. *)
Lemma keyword_bound_twice_stops_the_coffee_experiment_witness :
  (Testbed.repeated CoffeeStrokeMin.named
     (CoffeeStrokeMin.kw_others
        (CoffeeStrokeMin.kwargs (CoffeeStrokeMin.self CoffeeStrokeMin.with_set_name)))
   = None /\
   Testbed.repeated CoffeeStrokeMin.positional
     (CoffeeStrokeMin.kw_others
        (CoffeeStrokeMin.kwargs (CoffeeStrokeMin.self CoffeeStrokeMin.with_set_name)))
   = Some "exp_set_name"%string)
  /\ exists w,
      CoffeeStrokeMin.experiment Testbed.paper (fun file => file) (fun file => file)
        CoffeeStrokeMin.paper_load_as CoffeeStrokeMin.vault
        CoffeeStrokeMin.paper_load_for CoffeeStrokeMin.with_set_name
      = (Raise (TypeError "exp_set_name"),
         {| CoffeeStrokeMin.self :=
              CoffeeStrokeMin.set_path
                (CoffeeStrokeMin.self CoffeeStrokeMin.with_set_name)
                (Some [[Lit "data"]; [Lit "coffee_strokemin"]]);
            CoffeeStrokeMin.bench :=
              {| Testbed.world := w;
                 Testbed.trace :=
                   [Testbed.CreateDataPath "coffee_strokemin"
                      [[Lit "data"]; [Lit "coffee_strokemin"]];
                    Testbed.SetupHicatLogging [[Lit "data"]; [Lit "coffee_strokemin"]]
                                              "coffee_strokemin"] |} |}).
Proof.
  split; [split; reflexivity|].
  exact (@keyword_bound_twice_stops_the_coffee_experiment nat unit Testbed.paper
           (fun file => file) (fun file => file) CoffeeStrokeMin.paper_load_as
           CoffeeStrokeMin.vault CoffeeStrokeMin.paper_load_for
           CoffeeStrokeMin.with_set_name "exp_set_name"%string
           (or_intror (conj eq_refl eq_refl))).
Defined.
